(** * Shunya: the sandbox error-detection and auto-repair loop

    A shallow embedding of the repair loop of the Shunya code generator:

    - [ReasoningService.reasonAboutErrorFix] and
      [SmartSandboxErrorFixerService] (server/services), the staged repair
      pipeline that queries the language model twice, parses its answers and
      verifies the proposed files;
    - the route [POST /api/sandbox/fix-error] (server/routes), which streams
      the pipeline's progress records;
    - [ErrorMonitor] in frontend/src/components/CodePreview.tsx: the listener
      that turns Sandpack messages into error fingerprints and decides
      whether to start a repair, and [handleSandboxError], which consumes the
      stream and merges the fixed files.

    JavaScript strings are sequences of 16-bit code units; they are modelled
    as lists of code units ([list N]), so that [substring], [trim] and the
    character classes of the regular expressions count what the code counts.
    The language model, the network and the user are the environment: their
    behaviour is an input of the model (an oracle outcome, a script of stream
    reads, a timed list of events).

    Conventions of the model:
    - the event stream brings the records the route wrote, whole and in
      order, cut into chunks in any way;
    - the event stream brings every record as [JSON.parse] reads what
      [JSON.stringify] wrote;
    - the listener of [ErrorMonitor] is the closure of the render in which
      its effect last ran; React renders, and runs the effects whose
      dependencies changed, before the next event; a [setTimeout] callback
      runs when its delay has passed, before anything that happens later;
    - when [listen] changes is the provider's business, and an event of the
      environment; so is the number of files [CodePreview] is rendered
      with, except that the owner of the files takes what a repair hands
      over;
    - pressing Stop while [fetch] or a read of the stream is pending aborts
      the request of the call made last, as the effect on
      [stopSignal.stopped] makes it do, and the pending promise rejects. *)

From Stdlib Require Import ZArith NArith List String Ascii Bool Lia.
From Stdlib Require Import DecimalString.
From stdpp Require Import gmap.
Import ListNotations.

Set Warnings "-register-all".

(** ** JavaScript strings *)

Module JS.

Abbreviation jsstring := (list N).

(** A string literal of the source, as code units. *)
Definition js (s : string) : jsstring := map N_of_ascii (list_ascii_of_string s).

Definition isEmpty {A} (l : list A) : bool :=
  match l with [] => true | _ :: _ => false end.

Definition eqb (a b : jsstring) : bool := bool_decide (a = b).

(** [s.startsWith(p)] *)
Fixpoint startsWith (s p : jsstring) : bool :=
  match p, s with
  | [], _ => true
  | a :: p', b :: s' => (a =? b)%N && startsWith s' p'
  | _ :: _, [] => false
  end.

(** [s.includes(sub)] *)
Fixpoint includes (s sub : jsstring) : bool :=
  startsWith s sub ||
  match s with
  | [] => false
  | _ :: s' => includes s' sub
  end.

(** [s.substring(0, n)] *)
Definition substring0 (n : nat) (s : jsstring) : jsstring := firstn n s.

(** The class [\s] of regular expressions, which is also what [trim] strips:
    WhiteSpace and LineTerminator code units. *)
Definition isSpace (c : N) : bool :=
  existsb (N.eqb c)
    [9; 10; 11; 12; 13; 32; 160; 5760; 8232; 8233; 8239; 8287; 12288; 65279]%N
  || ((8192 <=? c) && (c <=? 8202))%N.

Definition isDigit (c : N) : bool := ((48 <=? c) && (c <=? 57))%N.

Definition isLetter (c : N) : bool :=
  (((65 <=? c) && (c <=? 90)) || ((97 <=? c) && (c <=? 122)))%N.

(** The class [\w]. *)
Definition isWord (c : N) : bool := isDigit c || isLetter c || (c =? 95)%N.

Fixpoint dropWhile (p : N -> bool) (s : jsstring) : jsstring :=
  match s with
  | [] => []
  | c :: s' => if p c then dropWhile p s' else s
  end.

Fixpoint takeWhile (p : N -> bool) (s : jsstring) : jsstring :=
  match s with
  | [] => []
  | c :: s' => if p c then c :: takeWhile p s' else []
  end.

(** [s.trim()] *)
Definition trim (s : jsstring) : jsstring :=
  rev (dropWhile isSpace (rev (dropWhile isSpace s))).

(** [arr.join(sep)] on an array of strings. *)
Fixpoint join (sep : jsstring) (l : list jsstring) : jsstring :=
  match l with
  | [] => []
  | [x] => x
  | x :: rest => x ++ sep ++ join sep rest
  end.

(** A non-negative integer in a template literal. *)
Definition ofN (n : N) : jsstring := js (NilZero.string_of_uint (N.to_uint n)).

(** ASCII upper case of a code unit, for the [i] flag: outside Unicode mode a
    code unit above 127 never folds to an ASCII one. *)
Definition upper (c : N) : N :=
  if ((97 <=? c) && (c <=? 122))%N then (c - 32)%N else c.

(** A thrown value: an [Error] object with its [name] and [message]. *)
Record JSError := { errName : jsstring; errMessage : jsstring }.

Definition TypeError (m : string) : JSError :=
  {| errName := js "TypeError"; errMessage := js m |}.
Definition SyntaxError (m : string) : JSError :=
  {| errName := js "SyntaxError"; errMessage := js m |}.
Definition Error (m : jsstring) : JSError :=
  {| errName := js "Error"; errMessage := m |}.
(** What a pending [fetch] or body read rejects with once its signal is
    aborted. *)
Definition AbortError : JSError :=
  {| errName := js "AbortError"; errMessage := js "The user aborted a request." |}.

(** The completion of a call that may throw. *)
Inductive Completion (A : Type) :=
| Return (a : A)
| Throw (e : JSError).
Arguments Return {A} a.
Arguments Throw {A} e.

End JS.
Import JS.

(** ** Regular expressions

    The expressions of the source are sequences of literals and of repeated
    character classes. [exec_at] is the backtracking matcher at one
    position: a greedy repetition takes as many code units as it can and
    gives them back one by one, a lazy one takes as few as it can. The
    result lists the text matched by each atom, so that a capture group is
    the piece of its atom. *)

Module Regex.

Inductive atom :=
| Lit (s : jsstring)                        (* the characters of s *)
| LitI (s : jsstring)                       (* the same under the i flag *)
| LitAlt (alts : list jsstring)             (* (s1|s2|...) *)
| One (cls : N -> bool)                     (* one code unit of a class *)
| Rep (greedy plus : bool) (cls : N -> bool) (* cls*, cls+, cls*?, cls+? *)
| AtEnd                                     (* $ without the m flag *)
| AheadLitOrEnd (s : jsstring).             (* (?=s|$) *)

Fixpoint stripLit (fold : N -> N) (l s : jsstring) : option (jsstring * jsstring) :=
  match l, s with
  | [], _ => Some ([], s)
  | a :: l', b :: s' =>
      if (fold a =? fold b)%N then
        match stripLit fold l' s' with
        | Some (m, rest) => Some (b :: m, rest)
        | None => None
        end
      else None
  | _ :: _, [] => None
  end.

Fixpoint exec_at (r : list atom) (s : jsstring) {struct r}
  : option (list jsstring * jsstring) :=
  match r with
  | [] => Some ([], s)
  | a :: r' =>
      let continue (piece rest : jsstring) :=
        match exec_at r' rest with
        | Some (ps, out) => Some (piece :: ps, out)
        | None => None
        end in
      match a with
      | Lit l =>
          match stripLit (fun c => c) l s with
          | Some (m, rest) => continue m rest
          | None => None
          end
      | LitI l =>
          match stripLit upper l s with
          | Some (m, rest) => continue m rest
          | None => None
          end
      | LitAlt alts =>
          (fix try (alts : list jsstring) :=
             match alts with
             | [] => None
             | l :: alts' =>
                 match stripLit (fun c => c) l s with
                 | Some (m, rest) =>
                     match continue m rest with
                     | Some x => Some x
                     | None => try alts'
                     end
                 | None => try alts'
                 end
             end) alts
      | One cls =>
          match s with
          | c :: s' => if cls c then continue [c] s' else None
          | [] => None
          end
      | Rep greedy plus cls =>
          (fix go (taken s : jsstring) {struct s} :=
             let stop (_ : unit) :=
               if plus && isEmpty taken then None else continue (rev taken) s in
             let more (_ : unit) :=
               match s with
               | c :: s' => if cls c then go (c :: taken) s' else None
               | [] => None
               end in
             if greedy
             then match more tt with Some x => Some x | None => stop tt end
             else match stop tt with Some x => Some x | None => more tt end) [] s
      | AtEnd => if isEmpty s then continue [] s else None
      | AheadLitOrEnd l =>
          if startsWith s l || isEmpty s then continue [] s else None
      end
  end.

(** The leftmost match: the text before it, the pieces, the text after it. *)
Fixpoint search (r : list atom) (s : jsstring)
  : option (jsstring * list jsstring * jsstring) :=
  match exec_at r s with
  | Some (ps, rest) => Some ([], ps, rest)
  | None =>
      match s with
      | [] => None
      | c :: s' =>
          match search r s' with
          | Some (pre, ps, rest) => Some (c :: pre, ps, rest)
          | None => None
          end
      end
  end.

(** [s.match(r)] for an expression without the [g] flag: element 0. *)
Definition matchText (r : list atom) (s : jsstring) : option jsstring :=
  match search r s with
  | Some (_, ps, _) => Some (concat ps)
  | None => None
  end.

Definition test (r : list atom) (s : jsstring) : bool :=
  match search r s with Some _ => true | None => false end.

(** [s.replace(r, '')] without the [g] flag. *)
Definition removeFirst (r : list atom) (s : jsstring) : jsstring :=
  match search r s with
  | Some (pre, _, rest) => pre ++ rest
  | None => s
  end.

(** [s.replace(/^.../, '')]: the expression can only match at index 0. *)
Definition removePrefix (r : list atom) (s : jsstring) : jsstring :=
  match exec_at r s with
  | Some (_, rest) => rest
  | None => s
  end.

(** The loop [while ((match = r.exec(s)) !== null)] of an expression with
    the [g] flag: every match in turn, each search starting where the match
    before it ended, which is also the order of [matchAll]. [skip] counts
    the code units still covered by the last match. The expressions used
    this way cannot match the empty string. *)
Fixpoint execAll (r : list atom) (skip : nat) (s : jsstring) {struct s}
  : list (list jsstring) :=
  match skip with
  | S k =>
      match s with
      | [] => []
      | _ :: s' => execAll r k s'
      end
  | O =>
      match exec_at r s with
      | Some (ps, rest) =>
          ps :: match s with
                | [] => []
                | _ :: s' => execAll r (length s - length rest - 1) s'
                end
      | None =>
          match s with
          | [] => []
          | _ :: s' => execAll r 0 s'
          end
      end
  end.

Definition anyChar (c : N) : bool := true.

(** The class of [.]: every code unit that is no line terminator. *)
Definition dot (c : N) : bool := negb (existsb (N.eqb c) [10; 13; 8232; 8233]%N).

Definition notChar (x : N) (c : N) : bool := negb (c =? x)%N.

End Regex.

(** ** JSON values and [JSON.parse] *)

Module JSON.

(** A number keeps the exact decimal it was written as:
    [(-1)^neg * digits * 10^exp10]. *)
Inductive json :=
| JNull
| JBool (b : bool)
| JNum (neg : bool) (digits : N) (exp10 : Z)
| JStr (s : jsstring)
| JArr (items : list json)
| JObj (props : list (jsstring * json)).

(** An own-property list is kept in the order in which JavaScript enumerates
    it: array indices (canonical decimal strings below 2^32 - 1) first, in
    increasing order, then the other keys in insertion order. *)
Fixpoint decimalValue (acc : N) (s : jsstring) : option N :=
  match s with
  | [] => Some acc
  | c :: s' =>
      if isDigit c then decimalValue (acc * 10 + (c - 48))%N s' else None
  end.

Definition arrayIndex (k : jsstring) : option N :=
  match k with
  | [] => None
  | c :: rest =>
      if (c =? 48)%N && negb (isEmpty rest) then None
      else match decimalValue 0 k with
           | Some n => if (n <? 4294967295)%N then Some n else None
           | None => None
           end
  end.

Section Props.
Context {V : Type}.

Fixpoint getOwn (k : jsstring) (props : list (jsstring * V)) : option V :=
  match props with
  | [] => None
  | (k', v) :: rest => if eqb k' k then Some v else getOwn k rest
  end.

Fixpoint setOwn (k : jsstring) (v : V) (props : list (jsstring * V))
  : list (jsstring * V) :=
  match props with
  | [] => []
  | (k', v') :: rest =>
      if eqb k' k then (k', v) :: rest else (k', v') :: setOwn k v rest
  end.

Fixpoint insertIndex (n : N) (k : jsstring) (v : V) (props : list (jsstring * V))
  : list (jsstring * V) :=
  match props with
  | [] => [(k, v)]
  | (k', v') :: rest =>
      match arrayIndex k' with
      | Some n' =>
          if (n' <? n)%N then (k', v') :: insertIndex n k v rest
          else (k, v) :: props
      | None => (k, v) :: props
      end
  end.

(** Defining the own data property [k]: an existing key keeps its place. *)
Definition define (k : jsstring) (v : V) (props : list (jsstring * V))
  : list (jsstring * V) :=
  match getOwn k props with
  | Some _ => setOwn k v props
  | None =>
      match arrayIndex k with
      | Some n => insertIndex n k v props
      | None => props ++ [(k, v)]
      end
  end.

End Props.

(** *** The lexer: one code unit at a time *)

Inductive token :=
| TLBrace | TRBrace | TLBracket | TRBracket | TColon | TComma
| TValue (v : json).        (* a string, a number, true, false or null *)

Inductive lexmode :=
| LStart                                   (* between tokens *)
| LString (acc : jsstring)                 (* in a string; acc is reversed *)
| LEscape (acc : jsstring)                 (* after a backslash *)
| LUnicode (acc : jsstring) (hex : list N) (* after \u; digits read, reversed *)
| LWord (acc : jsstring).                  (* in a number or a literal name *)

Definition isJsonSpace (c : N) : bool :=
  existsb (N.eqb c) [32; 9; 10; 13]%N.

Definition isWordChar (c : N) : bool :=
  isDigit c || isLetter c || existsb (N.eqb c) [45; 43; 46]%N.

Definition hexVal (c : N) : option N :=
  if isDigit c then Some (c - 48)%N
  else if ((97 <=? c) && (c <=? 102))%N then Some (c - 87)%N
  else if ((65 <=? c) && (c <=? 70))%N then Some (c - 55)%N
  else None.

Definition span (p : N -> bool) (s : jsstring) : jsstring * jsstring :=
  (takeWhile p s, dropWhile p s).

(** The grammar of a JSON number: an optional minus sign, an integer part
    (0, or digits that do not start with 0), an optional fraction (a point
    and digits), an optional exponent (e or E, an optional sign, digits). *)
Definition parseNumber (w : jsstring) : option json :=
  let '(neg, w1) :=
    match w with
    | 45%N :: w' => (true, w')
    | _ => (false, w)
    end in
  let '(ip, w2) := span isDigit w1 in
  if isEmpty ip || (startsWith ip (js "0") && negb (length ip =? 1)%nat) then None
  else
    let frac :=
      match w2 with
      | 46%N :: w' =>
          let '(fp, w3) := span isDigit w' in
          if isEmpty fp then None else Some (fp, w3)
      | _ => Some ([], w2)
      end in
    match frac with
    | None => None
    | Some (fp, w3) =>
        let expo :=
          match w3 with
          | [] => Some 0%Z
          | c :: w' =>
              if (c =? 101)%N || (c =? 69)%N then
                let '(eneg, w4) :=
                  match w' with
                  | 45%N :: w'' => (true, w'')
                  | 43%N :: w'' => (false, w'')
                  | _ => (false, w')
                  end in
                match w4, decimalValue 0 w4 with
                | _ :: _, Some e => Some (if eneg then - Z.of_N e else Z.of_N e)%Z
                | _, _ => None
                end
              else None
          end in
        match expo, decimalValue 0 (ip ++ fp) with
        | Some e, Some m => Some (JNum neg m (e - Z.of_nat (length fp)))
        | _, _ => None
        end
    end.

Definition wordToken (w : jsstring) : option token :=
  if eqb w (js "true") then Some (TValue (JBool true))
  else if eqb w (js "false") then Some (TValue (JBool false))
  else if eqb w (js "null") then Some (TValue JNull)
  else match parseNumber w with
       | Some n => Some (TValue n)
       | None => None
       end.

Definition lexStart (toks : list token) (c : N) : option (lexmode * list token) :=
  if isJsonSpace c then Some (LStart, toks)
  else if (c =? 123)%N then Some (LStart, TLBrace :: toks)
  else if (c =? 125)%N then Some (LStart, TRBrace :: toks)
  else if (c =? 91)%N then Some (LStart, TLBracket :: toks)
  else if (c =? 93)%N then Some (LStart, TRBracket :: toks)
  else if (c =? 58)%N then Some (LStart, TColon :: toks)
  else if (c =? 44)%N then Some (LStart, TComma :: toks)
  else if (c =? 34)%N then Some (LString [], toks)
  else if isWordChar c then Some (LWord [c], toks)
  else None.

(** The character after a backslash: quote, backslash, slash, b, f, n, r, t. *)
Definition unescape (c : N) : option N :=
  if (c =? 34)%N then Some 34%N
  else if (c =? 92)%N then Some 92%N
  else if (c =? 47)%N then Some 47%N
  else if (c =? 98)%N then Some 8%N
  else if (c =? 102)%N then Some 12%N
  else if (c =? 110)%N then Some 10%N
  else if (c =? 114)%N then Some 13%N
  else if (c =? 116)%N then Some 9%N
  else None.

(** The token list is built in reverse. *)
Definition lexStep (st : lexmode * list token) (c : N)
  : option (lexmode * list token) :=
  let '(mode, toks) := st in
  match mode with
  | LStart => lexStart toks c
  | LString acc =>
      if (c =? 34)%N then Some (LStart, TValue (JStr (rev acc)) :: toks)
      else if (c =? 92)%N then Some (LEscape acc, toks)
      else if (c <? 32)%N then None
      else Some (LString (c :: acc), toks)
  | LEscape acc =>
      if (c =? 117)%N then Some (LUnicode acc [], toks)
      else match unescape c with
           | Some u => Some (LString (u :: acc), toks)
           | None => None
           end
  | LUnicode acc hex =>
      match hexVal c with
      | Some d =>
          match hex with
          | [d2; d1; d0] =>
              Some (LString ((((d0 * 16 + d1) * 16 + d2) * 16 + d)%N :: acc), toks)
          | _ => Some (LUnicode acc (d :: hex), toks)
          end
      | None => None
      end
  | LWord acc =>
      if isWordChar c then Some (LWord (c :: acc), toks)
      else match wordToken (rev acc) with
           | Some t => lexStart (t :: toks) c
           | None => None
           end
  end.

Fixpoint lexRun (st : lexmode * list token) (s : jsstring)
  : option (lexmode * list token) :=
  match s with
  | [] => Some st
  | c :: s' =>
      match lexStep st c with
      | Some st' => lexRun st' s'
      | None => None
      end
  end.

Definition lex (s : jsstring) : option (list token) :=
  match lexRun (LStart, []) s with
  | Some (LStart, toks) => Some (rev toks)
  | Some (LWord acc, toks) =>
      match wordToken (rev acc) with
      | Some t => Some (rev (t :: toks))
      | None => None
      end
  | _ => None
  end.

(** *** The parser: a stack of the containers being read *)

Inductive frame :=
| FArr (items : list json)                           (* elements so far, reversed *)
| FObj (props : list (jsstring * json)) (key : jsstring). (* members so far, pending key *)

Inductive pstate :=
| PValue (st : list frame)                  (* a value is expected *)
| PArrStart (st : list frame)               (* after [ *)
| PObjStart (st : list frame)               (* after { *)
| PKey (props : list (jsstring * json)) (st : list frame)   (* after , in an object *)
| PColon (props : list (jsstring * json)) (key : jsstring) (st : list frame)
| PAfterArr (items : list json) (st : list frame)           (* after an element *)
| PAfterObj (props : list (jsstring * json)) (st : list frame) (* after a member *)
| PDone (v : json).

Definition deliver (v : json) (st : list frame) : pstate :=
  match st with
  | [] => PDone v
  | FArr items :: st' => PAfterArr (v :: items) st'
  | FObj props key :: st' => PAfterObj (define key v props) st'
  end.

Definition parseValue (st : list frame) (t : token) : option pstate :=
  match t with
  | TValue v => Some (deliver v st)
  | TLBracket => Some (PArrStart st)
  | TLBrace => Some (PObjStart st)
  | _ => None
  end.

Definition parseStep (p : pstate) (t : token) : option pstate :=
  match p with
  | PValue st => parseValue st t
  | PArrStart st =>
      match t with
      | TRBracket => Some (deliver (JArr []) st)
      | _ => parseValue (FArr [] :: st) t
      end
  | PObjStart st =>
      match t with
      | TRBrace => Some (deliver (JObj []) st)
      | TValue (JStr k) => Some (PColon [] k st)
      | _ => None
      end
  | PKey props st =>
      match t with
      | TValue (JStr k) => Some (PColon props k st)
      | _ => None
      end
  | PColon props k st =>
      match t with
      | TColon => Some (PValue (FObj props k :: st))
      | _ => None
      end
  | PAfterArr items st =>
      match t with
      | TComma => Some (PValue (FArr items :: st))
      | TRBracket => Some (deliver (JArr (rev items)) st)
      | _ => None
      end
  | PAfterObj props st =>
      match t with
      | TComma => Some (PKey props st)
      | TRBrace => Some (deliver (JObj props) st)
      | _ => None
      end
  | PDone _ => None
  end.

Fixpoint parseRun (p : pstate) (toks : list token) : option pstate :=
  match toks with
  | [] => Some p
  | t :: toks' =>
      match parseStep p t with
      | Some p' => parseRun p' toks'
      | None => None
      end
  end.

(** [JSON.parse(text)]. The wording of the SyntaxError is the engine's; no
    property below depends on it. *)
Definition parse (text : jsstring) : Completion json :=
  match lex text with
  | Some toks =>
      match parseRun (PValue []) toks with
      | Some (PDone v) => Return v
      | _ => Throw (SyntaxError "Unexpected token in JSON")
      end
  | None => Throw (SyntaxError "Unexpected token in JSON")
  end.

(** *** Values of the running program *)

(** What a property read can yield: [undefined], a JSON value, or a member
    inherited from [Object.prototype] (a function or the prototype itself,
    always truthy). *)
Inductive value :=
| Undefined
| J (j : json)
| Inherited (name : jsstring).

(** A number converts to the nearest double: it is zero when its digits are,
    or when it is at most 2^-1075, half of the least positive double. *)
Definition numIsZero (digits : N) (exp10 : Z) : bool :=
  (digits =? 0)%N ||
  (if (exp10 <? 0)%Z
   then (Z.of_N digits * 2 ^ 1075 <=? 10 ^ (- exp10))%Z
   else false).

(** It is [Infinity] when it is at least 2^1024 - 2^970, half way from
    the greatest double to 2^1024. *)
Definition numIsInfinite (digits : N) (exp10 : Z) : bool :=
  if (exp10 <? 0)%Z
  then ((2 ^ 1024 - 2 ^ 970) * 10 ^ (- exp10) <=? Z.of_N digits)%Z
  else ((2 ^ 1024 - 2 ^ 970) <=? Z.of_N digits * 10 ^ exp10)%Z.

Definition truthyJson (j : json) : bool :=
  match j with
  | JNull => false
  | JBool b => b
  | JNum _ m e => negb (numIsZero m e)
  | JStr s => negb (isEmpty s)
  | JArr _ | JObj _ => true
  end.

Definition truthy (v : value) : bool :=
  match v with
  | Undefined => false
  | J j => truthyJson j
  | Inherited _ => true
  end.

(** [a || b] *)
Definition or_ (a b : value) : value := if truthy a then a else b.

Definition Object_prototype_names : list jsstring :=
  [js "constructor"; js "__defineGetter__"; js "__defineSetter__";
   js "hasOwnProperty"; js "__lookupGetter__"; js "__lookupSetter__";
   js "isPrototypeOf"; js "propertyIsEnumerable"; js "toString";
   js "valueOf"; js "__proto__"; js "toLocaleString"].

(** [o[k]] on a plain object with own properties [props]. *)
Definition getProp (props : list (jsstring * json)) (k : jsstring) : value :=
  match getOwn k props with
  | Some v => J v
  | None =>
      if existsb (eqb k) Object_prototype_names then Inherited k else Undefined
  end.

(** The error of reading the property [k] of [null] or [undefined]. *)
Definition cannotRead (base : string) (k : jsstring) : JSError :=
  {| errName := js "TypeError";
     errMessage := js "Cannot read properties of " ++ js base ++ js " (reading '" ++ k
                   ++ js "')" |}.

(** The error of the call [expr.method(...)] on a value: reading the
    method of [null] or [undefined] fails; any other value that lacks the
    method has [undefined] in its place, which cannot be called. *)
Definition cannotCall (v : value) (expr method : string) : JSError :=
  match v with
  | Undefined => cannotRead "undefined" (js method)
  | J JNull => cannotRead "null" (js method)
  | _ => {| errName := js "TypeError";
            errMessage := js expr ++ js "." ++ js method ++ js " is not a function" |}
  end.

(** [parsed.k] for a key that no prototype defines, on the result of
    [JSON.parse]: [null] has no properties. *)
Definition getField (j : json) (k : jsstring) : Completion value :=
  match j with
  | JNull => Throw (cannotRead "null" k)
  | JObj props =>
      match getOwn k props with
      | Some v => Return (J v)
      | None => Return Undefined
      end
  | _ => Return Undefined
  end.

Fixpoint indexed {A} (i : N) (l : list A) : list (jsstring * A) :=
  match l with
  | [] => []
  | x :: l' => (ofN i, x) :: indexed (i + 1)%N l'
  end.

(** [Object.entries(v)] for a JSON value other than [null]: the own
    enumerable properties of an object, the elements of an array, the code
    units of a string, nothing for a number or a boolean. *)
Definition Object_entries (v : json) : list (jsstring * json) :=
  match v with
  | JObj props => props
  | JArr items => indexed 0 items
  | JStr s => indexed 0 (map (fun c => JStr [c]) s)
  | _ => []
  end.

Definition Object_keys (v : json) : list jsstring := map fst (Object_entries v).

(** *** Values written with [JSON.stringify] and read with [JSON.parse] *)

(** [JSON.parse(JSON.stringify(v))] for a value that [JSON.parse] gave: a
    number that is [Infinity] is written as [null], a zero as [0], and every
    other number by digits that give the same double back, for which the
    digits it has stand; strings, keys and their order come back as they
    were. *)
Fixpoint wired (v : json) : json :=
  match v with
  | JNum neg m e =>
      if numIsInfinite m e then JNull
      else if numIsZero m e then JNum false 0 0
      else JNum neg m e
  | JArr items => JArr (map wired items)
  | JObj props => JObj (map (fun kv => (fst kv, wired (snd kv))) props)
  | _ => v
  end.

Definition isInfinity (v : json) : bool :=
  match v with
  | JNum _ m e => numIsInfinite m e
  | _ => false
  end.

End JSON.
Import Regex JSON.

(** ** The environment and the data shared by server and frontend *)

(** One call of [llmService.streamCompletion], consumed by
    [for await (const chunk of ...) response += chunk]: the concatenated
    chunks, or the error that interrupts the stream (or that building the
    prompt raises before it). The model client (llmService.js) and the
    prompt builders are the environment: what they answer is an input. *)
Inductive OracleOutcome :=
| Streams (text : jsstring)
| Fails (e : JSError).

(** [GeneratedFile] of CodePreview.tsx. The content is a string until a merge
    stores whatever truthy value the patch held. *)
Record GeneratedFile := { path : jsstring; content : value }.

(** The regular expression [/\{[\s\S]*\}/] that every parser of a model
    answer uses to cut out the JSON text. *)
Definition reObject : list atom :=
  [Lit (js "{"); Rep true false anyChar; Lit (js "}")].

(** ** server/services/reasoningService.js *)

Module ReasoningService.

(** [/^```json\s*/i], [/^```\s*/i] and [/\s*```$/i] *)
Definition reFenceJson : list atom := [LitI (js "```json"); Rep true false isSpace].
Definition reFence : list atom := [LitI (js "```"); Rep true false isSpace].
Definition reFenceEnd : list atom := [Rep true false isSpace; LitI (js "```"); AtEnd].

Definition parseReasoningResponse (response : jsstring) : Completion json :=
  let cleanedResponse := trim response in
  let cleanedResponse := removePrefix reFenceJson cleanedResponse in
  let cleanedResponse := removePrefix reFence cleanedResponse in
  let cleanedResponse := removeFirst reFenceEnd cleanedResponse in
  match matchText reObject cleanedResponse with
  | None => Throw (Error (js "No valid JSON in reasoning output"))
  | Some jsonMatch =>
      match parse jsonMatch with
      | Return parsed =>
          (* !parsed.thinking && !parsed.errorAnalysis only logs a warning *)
          match getField parsed (js "thinking") with
          | Return _ => Return parsed
          | Throw e => Throw e
          end
      | Throw e => Throw e
      end
  end.

(** The object returned by the [catch] block of [reasonAboutErrorFix]. *)
Definition fallbackAnalysis (errorInfo : jsstring) (e : JSError) : json :=
  JObj
    [(js "errorAnalysis",
      JObj
        [(js "identification",
          JObj [(js "errorMessage", JStr errorInfo);
                (js "errorType", JStr (js "unknown"))]);
         (js "rootCause",
          JObj [(js "fundamentalIssue", JStr (js "Unable to analyze error"));
                (js "symptom", JStr (js "Analysis service error"))]);
         (js "fixStrategy",
          JObj [(js "selected", JStr (js "manual_review"));
                (js "reasoning",
                 JStr (js "Automatic analysis failed, manual review needed"))])]);
     (js "confidence",
      JObj [(js "rootCauseIdentification", JNum false 3 (-1));
            (js "reasoning", JStr (js "Analysis service encountered an error"))]);
     (js "error", JStr (errMessage e))].

(** [reasonAboutErrorFix(errorInfo, existingFiles)], with the outcome of its
    model call. The whole body is inside [try]: every error, of the stream
    or of the parser, ends in the [catch] block, which returns. *)
Definition reasonAboutErrorFix (errorInfo : jsstring) (oracle : OracleOutcome) : json :=
  let attempt :=
    match oracle with
    | Streams reasoningResponse => parseReasoningResponse reasoningResponse
    | Fails e => Throw e
    end in
  match attempt with
  | Return analysis => analysis
  | Throw e => fallbackAnalysis errorInfo e
  end.

End ReasoningService.

(** ** server/services/smartSandboxErrorFixerService.js *)

Module Stage.
(** The [stage] strings of the progress records. *)
Inductive t :=
| analyzing | reasoning_complete | codebase_analysis | generating_fix
| verifying | complete | error.
End Stage.

Module SmartSandboxErrorFixerService.

(** *** analyzeCodebase *)

(** The [exports] map of the source is never filled and is left out. *)
Record CodebaseContext := {
  totalFiles : nat;
  affectedFiles : list jsstring;
  dependencies : list jsstring;              (* Array.from(Set) *)
  imports : list (jsstring * list jsstring); (* Object.fromEntries(Map) *)
  relatedFiles : list jsstring
}.

(** [/\/([^:]+\.(css|tsx?|jsx?|json))/] *)
Definition reErrorFile : list atom :=
  [Lit (js "/"); Rep true true (notChar 58); Lit (js ".");
   LitAlt [js "css"; js "tsx"; js "ts"; js "jsx"; js "js"; js "json"]].

Definition extractFileFromError (errorStr : jsstring) : option jsstring :=
  matchText reErrorFile errorStr.

Definition isQuote (c : N) : bool := (c =? 39)%N || (c =? 34)%N.

(** The expression for import statements, with the g flag: import, spaces,
    a lazy run of [.], spaces, from, spaces, a quote, the module (a lazy
    non-empty run of [.]: piece 7), a quote. *)
Definition reImport : list atom :=
  [Lit (js "import"); Rep true true isSpace; Rep false false dot;
   Rep true true isSpace; Lit (js "from"); Rep true true isSpace;
   One isQuote; Rep false true dot; One isQuote].

(** The expression for dependencies, with the g flag: from, spaces, a
    quote, the module (piece 3), a quote. *)
Definition reFrom : list atom :=
  [Lit (js "from"); Rep true true isSpace; One isQuote; Rep false true dot;
   One isQuote].

(** [/\.(tsx?|jsx?)$/] *)
Definition reSourceExt : list atom :=
  [Lit (js "."); LitAlt [js "tsx"; js "ts"; js "jsx"; js "js"]; AtEnd].

Definition group (i : nat) (pieces : list jsstring) : jsstring := nth i pieces [].

(** [set.add(x)] on the insertion-ordered elements of a Set. *)
Definition setAdd (x : jsstring) (l : list jsstring) : list jsstring :=
  if existsb (eqb x) l then l else l ++ [x].

(** [map.get(k).push(x)] after [if (!map.has(k)) map.set(k, [])]. *)
Fixpoint mapPush (k x : jsstring) (m : list (jsstring * list jsstring))
  : list (jsstring * list jsstring) :=
  match m with
  | [] => [(k, [x])]
  | (k', xs) :: rest =>
      if eqb k' k then (k', xs ++ [x]) :: rest else (k', xs) :: mapPush k x rest
  end.

Definition analyzeFile (errorFilePath : option jsstring) (file : GeneratedFile)
    (analysis : CodebaseContext) : Completion CodebaseContext :=
  match content file with
  | J (JStr text) =>
      let affected :=
        match errorFilePath with
        | Some p => if includes (path file) p then affectedFiles analysis ++ [path file]
                    else affectedFiles analysis
        | None => affectedFiles analysis
        end in
      let imps :=
        fold_left (fun m pieces => mapPush (path file) (group 7 pieces) m)
                  (execAll reImport 0 text) (imports analysis) in
      let deps :=
        fold_left (fun d pieces =>
                     if startsWith (group 3 pieces) (js ".") then d
                     else setAdd (group 3 pieces) d)
                  (execAll reFrom 0 text) (dependencies analysis) in
      let related :=
        match errorFilePath with
        | Some p =>
            let importPath := removeFirst reSourceExt (removePrefix [Lit (js "/")] p) in
            if includes text importPath then relatedFiles analysis ++ [path file]
            else relatedFiles analysis
        | None => relatedFiles analysis
        end in
      Return {| totalFiles := totalFiles analysis; affectedFiles := affected;
                dependencies := deps; imports := imps; relatedFiles := related |}
  | c => Throw (cannotCall c "file.content" "matchAll")
  end.

Fixpoint analyzeFiles (errorFilePath : option jsstring) (files : list GeneratedFile)
    (analysis : CodebaseContext) : Completion CodebaseContext :=
  match files with
  | [] => Return analysis
  | file :: rest =>
      match analyzeFile errorFilePath file analysis with
      | Return analysis' => analyzeFiles errorFilePath rest analysis'
      | Throw e => Throw e
      end
  end.

Definition analyzeCodebase (files : list GeneratedFile) (error : jsstring)
  : Completion CodebaseContext :=
  match analyzeFiles (extractFileFromError error) files
          {| totalFiles := length files; affectedFiles := []; dependencies := [];
             imports := []; relatedFiles := [] |} with
  | Return analysis =>
      Return {| totalFiles := totalFiles analysis;
                affectedFiles := affectedFiles analysis;
                dependencies := dependencies analysis;
                imports := fold_left (fun o kv => define (fst kv) (snd kv) o)
                                     (imports analysis) [];
                relatedFiles := relatedFiles analysis |}
  | Throw e => Throw e
  end.

(** *** parseFixedFiles and extractExplanation *)

(** The [try] block of [parseFixedFiles]: the value it returns, if it
    returns one. A text without braces, a text that is no JSON, and an
    object without a truthy [files] all leave the block without a value. *)
Definition structuredFiles (response : jsstring) : option json :=
  match matchText reObject response with
  | Some jsonMatch =>
      match parse jsonMatch with
      | Return parsed =>
          match getField parsed (js "files") with
          | Return (J files) => if truthyJson files then Some files else None
          | _ => None
          end
      | Throw _ => None
      end
  | None => None
  end.

(** [/===\s*([^\n]+)\s*===\n([\s\S]*?)(?====|$)/g]; the groups are pieces 2
    and 5. *)
Definition reFileBlock : list atom :=
  [Lit (js "==="); Rep true false isSpace; Rep true true (notChar 10);
   Rep true false isSpace; Lit (js "===" ++ [10%N]); Rep false false anyChar;
   AheadLitOrEnd (js "===")].

(** [fixedFiles[filePath] = content] on an object literal: the inherited
    setter of [__proto__] ignores a string, every other key becomes an own
    property. *)
Definition assign (k : jsstring) (v : json) (props : list (jsstring * json))
  : list (jsstring * json) :=
  if eqb k (js "__proto__") then props else define k v props.

Definition fallbackFiles (response : jsstring) : list (jsstring * json) :=
  fold_left
    (fun fixedFiles m =>
       let filePath := trim (group 2 m) in
       let content := trim (group 5 m) in
       assign filePath (JStr content) fixedFiles)
    (execAll reFileBlock 0 response) [].

Definition parseFixedFiles (response : jsstring) : json :=
  match structuredFiles response with
  | Some files => files
  | None => JObj (fallbackFiles response)
  end.

Definition extractExplanation (response : jsstring) : json :=
  let unparsed := JStr (js "Applied fixes based on deep reasoning and codebase analysis") in
  match matchText reObject response with
  | Some jsonMatch =>
      match parse jsonMatch with
      | Return parsed =>
          match getField parsed (js "explanation") with
          | Return (J e) =>
              if truthyJson e then e
              else JStr (js "Applied fixes based on deep reasoning")
          | Return _ => JStr (js "Applied fixes based on deep reasoning")
          | Throw _ => unparsed
          end
      | Throw _ => unparsed
      end
  | None => unparsed
  end.

(** [generateSmartFixes], with the outcome of its model call: [files] and
    [explanation]. *)
Definition generateSmartFixes (oracle : OracleOutcome) : Completion (json * json) :=
  match oracle with
  | Streams response => Return (parseFixedFiles response, extractExplanation response)
  | Fails e => Throw e
  end.

(** *** verifyFixes *)

Record Checks := {
  noEmptyFunctions : bool;
  noTODOComments : bool;
  validSyntax : bool;
  importsResolved : bool
}.

Record Verification := {
  filesModified : nat;
  checks : Checks;
  warnings : list jsstring
}.

(** The two objects [verifyFixes] holds: the caller's patch and its own
    report. *)
Record VerifyState := { patch : json; report : Verification }.

(** [/function\s+\w+\([^)]*\)\s*\{\s*\}/] *)
Definition reEmptyFunction : list atom :=
  [Lit (js "function"); Rep true true isSpace; Rep true true isWord;
   Lit (js "("); Rep true false (notChar 41); Lit (js ")");
   Rep true false isSpace; Lit (js "{"); Rep true false isSpace; Lit (js "}")].

Definition pushWarning (w : jsstring) (st : VerifyState) : VerifyState :=
  {| patch := patch st;
     report := {| filesModified := filesModified (report st);
                  checks := checks (report st);
                  warnings := warnings (report st) ++ [w] |} |}.

Definition setChecks (c : Checks) (st : VerifyState) : VerifyState :=
  {| patch := patch st;
     report := {| filesModified := filesModified (report st);
                  checks := c;
                  warnings := warnings (report st) |} |}.

Definition checkEmptyFunctions (path text : jsstring) (st : VerifyState) : VerifyState :=
  if test reEmptyFunction text then
    let c := checks (report st) in
    pushWarning (path ++ js ": Contains empty function")
      (setChecks {| noEmptyFunctions := false; noTODOComments := noTODOComments c;
                    validSyntax := validSyntax c;
                    importsResolved := importsResolved c |} st)
  else st.

Definition checkTODOComments (path text : jsstring) (st : VerifyState) : VerifyState :=
  if includes text (js "// TODO") || includes text (js "// FIXME") then
    let c := checks (report st) in
    pushWarning (path ++ js ": Contains TODO/FIXME comments")
      (setChecks {| noEmptyFunctions := noEmptyFunctions c; noTODOComments := false;
                    validSyntax := validSyntax c;
                    importsResolved := importsResolved c |} st)
  else st.

(** The check commented "basic syntax issues" in the source. *)
Definition checkUndefined (path text : jsstring) (st : VerifyState) : VerifyState :=
  if includes text (js "undefined") && negb (includes text (js "!== undefined")) then
    pushWarning (path ++ js ": May have undefined references") st
  else st.

(** The body of the loop over [Object.entries(fixedFiles)]. Only a string
    has a [match] method. *)
Definition verifyEntry (entry : jsstring * json) (st : VerifyState)
  : Completion VerifyState :=
  match snd entry with
  | JStr text =>
      Return (checkUndefined (fst entry) text
                (checkTODOComments (fst entry) text
                   (checkEmptyFunctions (fst entry) text st)))
  | c => Throw (cannotCall (J c) "content" "match")
  end.

Fixpoint verifyLoop (entries : list (jsstring * json)) (st : VerifyState)
  : VerifyState * option JSError :=
  match entries with
  | [] => (st, None)
  | entry :: rest =>
      match verifyEntry entry st with
      | Return st' => verifyLoop rest st'
      | Throw e => (st, Some e)
      end
  end.

(** [verifyFixes(fixedFiles, originalError)]: the patch object as the call
    leaves it, and the report or the error. *)
Definition verifyFixes (fixedFiles : json) : json * Completion Verification :=
  match fixedFiles with
  | JNull => (fixedFiles, Throw (TypeError "Cannot convert undefined or null to object"))
  | _ =>
      let verification :=
        {| filesModified := length (Object_keys fixedFiles);
           checks := {| noEmptyFunctions := true; noTODOComments := true;
                        validSyntax := true; importsResolved := true |};
           warnings := [] |} in
      match verifyLoop (Object_entries fixedFiles)
                       {| patch := fixedFiles; report := verification |} with
      | (st, None) => (patch st, Return (report st))
      | (st, Some e) => (patch st, Throw e)
      end
  end.

(** *** fixWithReasoning *)

Record FixProcess := {
  fpReasoning : option json;
  fpAnalysis : option CodebaseContext;
  fpFixedFiles : option json;
  fpVerification : option Verification
}.

(** The argument of [onReasoningUpdate]. *)
Record Update := {
  stage : Stage.t;
  message : jsstring;
  progress : N;
  reasoning : option json;
  result : option FixProcess
}.

Definition update (s : Stage.t) (m : string) (p : N) : Update :=
  {| stage := s; message := js m; progress := p; reasoning := None; result := None |}.

(** The value [fixWithReasoning] resolves to. *)
Inductive FixResult :=
| FixSuccess (fixedFiles explanation reasoning : json) (analysis : CodebaseContext)
    (verification : Verification) (affected : list jsstring)  (* success: true *)
| FixFailure (error : jsstring) (reasoning : option json).    (* success: false *)

(** The [catch] block. *)
Definition fixFailed (sent : list Update) (reasoning : option json) (err : JSError)
  : list Update * FixResult :=
  (sent ++ [{| stage := Stage.error; message := js "Fix failed: " ++ errMessage err;
               progress := 0; reasoning := None; result := None |}],
   FixFailure (errMessage err) reasoning).

(** [fixWithReasoning(error, files, fileStructure, onReasoningUpdate)] with
    the outcomes of its two model calls: the records handed to
    [onReasoningUpdate], in order, and the result. *)
Definition fixWithReasoning (error : jsstring) (files : list GeneratedFile)
    (analysisCall fixCall : OracleOutcome) : list Update * FixResult :=
  let u1 := update Stage.analyzing "Analyzing error and codebase context..." 10 in
  let errorAnalysis := ReasoningService.reasonAboutErrorFix error analysisCall in
  let u2 := {| stage := Stage.reasoning_complete; message := js "Root cause identified";
               progress := 30; reasoning := Some errorAnalysis; result := None |} in
  let u3 := update Stage.codebase_analysis
                   "Scanning entire codebase for related issues..." 40 in
  match analyzeCodebase files error with
  | Throw err => fixFailed [u1; u2; u3] (Some errorAnalysis) err
  | Return codebaseContext =>
      let u4 := update Stage.generating_fix
                       "Implementing fixes across affected files..." 60 in
      match generateSmartFixes fixCall with
      | Throw err => fixFailed [u1; u2; u3; u4] (Some errorAnalysis) err
      | Return (fixesFiles, fixesExplanation) =>
          let u5 := update Stage.verifying "Verifying fixes..." 80 in
          match snd (verifyFixes fixesFiles) with
          | Throw err => fixFailed [u1; u2; u3; u4; u5] (Some errorAnalysis) err
          | Return verification =>
              let fixProcess :=
                {| fpReasoning := Some errorAnalysis;
                   fpAnalysis := Some codebaseContext;
                   fpFixedFiles := Some fixesFiles;
                   fpVerification := Some verification |} in
              let u6 := {| stage := Stage.complete;
                           message := js "Fix complete and verified";
                           progress := 100; reasoning := None;
                           result := Some fixProcess |} in
              ([u1; u2; u3; u4; u5; u6],
               FixSuccess fixesFiles fixesExplanation errorAnalysis codebaseContext
                          verification (Object_keys fixesFiles))
          end
      end
  end.

End SmartSandboxErrorFixerService.

(** ** server/routes/sandboxErrorFix.js *)

Module SandboxErrorFix.
Import SmartSandboxErrorFixerService.

(** A [data:] record of the event stream, as the frontend tells them apart
    by their [type]. *)
Inductive SSERecord :=
| Progress (u : Update)                      (* sendUpdate of the service: no type *)
| TypeComplete (success : bool) (fixedFiles : value) (explanation : value)
| TypeError_ (error : jsstring).

Inductive Response :=
| BadRequest                                 (* status 400 *)
| EventStream (records : list SSERecord).

(** A progress record as it arrives: [sendUpdate] writes it with
    [JSON.stringify] and the frontend reads it with [JSON.parse]. The
    numbers of the analysis of the codebase and of the verification are
    counts. *)
Definition wiredUpdate (u : Update) : Update :=
  {| stage := stage u; message := message u; progress := progress u;
     reasoning := option_map wired (reasoning u);
     result :=
       option_map
         (fun fp => {| fpReasoning := option_map wired (fpReasoning fp);
                       fpAnalysis := fpAnalysis fp;
                       fpFixedFiles := option_map wired (fpFixedFiles fp);
                       fpVerification := fpVerification fp |})
         (result u) |}.

(** [POST /fix-error]: the records as the frontend reads them. The frontend
    always sends [files], [fileStructure] and [apiSettings]; an empty
    [error] is the one missing parameter left. Every record is written with
    [JSON.stringify] and read with [JSON.parse]. *)
Definition fixError (error : jsstring) (files : list GeneratedFile)
    (analysisCall fixCall : OracleOutcome) : Response :=
  if isEmpty error then BadRequest
  else
    let '(sent, res) := fixWithReasoning error files analysisCall fixCall in
    EventStream
      (map Progress (map wiredUpdate sent) ++
       [match res with
        | FixSuccess fixedFiles explanation _ _ _ _ =>
            TypeComplete true (J (wired fixedFiles)) (J (wired explanation))
        | FixFailure err _ => TypeError_ err
        end]).

End SandboxErrorFix.

(** ** frontend/src/components/CodePreview.tsx *)

Module CodePreview.
Import SmartSandboxErrorFixerService SandboxErrorFix.

(** *** handleSandboxError: consuming the stream, merging the patch *)

Inductive Toast :=
| ToastInfo (m : jsstring)
| ToastSuccess (m : value)
| ToastError (m : jsstring).

(** [files.map(file => ...)]: the content under the file's path, or under
    the path with a leading slash, replaces the file's content when it is
    truthy. *)
Definition updateFile (fixedFiles : list (jsstring * json)) (file : GeneratedFile)
  : GeneratedFile :=
  let fixedContent :=
    or_ (getProp fixedFiles (path file)) (getProp fixedFiles (js "/" ++ path file)) in
  if truthy fixedContent then {| path := path file; content := fixedContent |}
  else file.

(** [files.some(f => f.path === path || `/${f.path}` === path)] *)
Definition fileExists (files : list GeneratedFile) (p : jsstring) : bool :=
  existsb (fun f => eqb (path f) p || eqb (js "/" ++ path f) p) files.

(** The entries pushed by [Object.entries(fixedFiles).forEach]. *)
Definition addedFiles (files : list GeneratedFile) (fixedFiles : list (jsstring * json))
  : list GeneratedFile :=
  flat_map (fun entry =>
              if fileExists files (fst entry) then []
              else [{| path := fst entry; content := J (snd entry) |}])
           fixedFiles.

(** The array handed to [onFilesFixed], for a patch that is a plain object. *)
Definition updatedFiles (files : list GeneratedFile) (fixedFiles : list (jsstring * json))
  : list GeneratedFile :=
  map (updateFile fixedFiles) files ++ addedFiles files fixedFiles.

(** What one [await reader.read()] brings. The end of the script is the
    read that reports [done]. *)
Inductive Read :=
| Chunk (records : list SSERecord)  (* the records this chunk completes *)
| Rejected (e : JSError)            (* the connection fails *)
| StopClicked                       (* the user presses Stop while the read is
                                       pending: handleStopFixing sets
                                       stopSignal.stopped, the effect on it
                                       aborts the controller whose signal
                                       fetch was given, the read rejects *)
| StopElsewhere.                    (* the same while the abortControllerRef
                                       of the mounted component does not hold
                                       the controller of this call (a call
                                       made later has replaced it, or the
                                       component was mounted anew): the flag
                                       is set, this read goes on *)

(** What [await fetch(...)] brings. *)
Inductive Fetch :=
| FetchRejected (e : JSError)
| FetchStopClicked                  (* Stop pressed before the response *)
| Responded (ok : bool) (reads : list Read)
| RespondedAfterStop (ok : bool) (reads : list Read).
                                    (* Stop pressed before the response while
                                       abortControllerRef does not hold the
                                       controller of this call: the flag is
                                       set when the response arrives *)

(** How the call of [handleSandboxError] ended. *)
Inductive Exit :=
| NoApiSettings                     (* the early return *)
| Applied (updated : list GeneratedFile)  (* onFilesFixed(updated) *)
| AppliedNonObject (handed : nat)   (* the same with a patch that is no plain
                                       object: the number of files handed
                                       over; their contents are not modelled *)
| NotApplied                        (* the stream ended without a result to apply *)
| Cancelled                         (* stopSignal.stopped seen by the loop *)
| Caught (e : JSError).             (* the catch block *)

Record Outcome := {
  exit : Exit;
  toasts : list Toast;                  (* in the order shown *)
  shown : list Update;                  (* the calls of onReasoningUpdate *)
  stopped : bool                        (* stopSignal.stopped afterwards *)
}.

(** The last record of type complete seen so far: [finalResult]. *)
Record FinalResult := { success : bool; fixedFiles : value; explanation : value }.

(** [for (const line of lines)] over the records of one chunk: the calls of
    [onReasoningUpdate] made so far, and [finalResult] or the error thrown
    for a record of type error. *)
Fixpoint processRecords (records : list SSERecord) (finalResult : option FinalResult)
    (seen : list Update) : list Update * Completion (option FinalResult) :=
  match records with
  | [] => (seen, Return finalResult)
  | TypeComplete s f e :: rest =>
      processRecords rest (Some {| success := s; fixedFiles := f; explanation := e |}) seen
  | TypeError_ err :: _ =>
      (seen, Throw (Error (if isEmpty err then js "Error fixing failed" else err)))
  | Progress u :: rest => processRecords rest finalResult (seen ++ [u])
  end.

(** The [catch] block. *)
Definition caught (e : JSError) (ts : list Toast) (seen : list Update) (stop : bool)
  : Outcome :=
  {| exit := Caught e;
     toasts := ts ++ [ToastError (js "Failed to auto-fix the error")];
     shown := seen; stopped := stop |}.

(** After the loop: [if (!stopSignal.stopped && finalResult?.success &&
    finalResult?.fixedFiles)]. *)
Definition applyFinalResult (files : list GeneratedFile) (stop : bool)
    (finalResult : option FinalResult) (ts : list Toast) (seen : list Update) : Outcome :=
  match finalResult with
  | Some fr =>
      if negb stop && success fr && truthy (fixedFiles fr) then
        {| exit := match fixedFiles fr with
                   | J (JObj props) => Applied (updatedFiles files props)
                   | J patch =>
                       AppliedNonObject
                         (length files + length (addedFiles files (Object_entries patch)))
                   | _ => AppliedNonObject (length files)
                   end;
           toasts := ts ++ [ToastSuccess (or_ (explanation fr) (J (JStr (js "Error fixed!"))))];
           shown := seen; stopped := stop |}
      else {| exit := if stop then Cancelled else NotApplied;
              toasts := ts; shown := seen; stopped := stop |}
  | None => {| exit := if stop then Cancelled else NotApplied;
               toasts := ts; shown := seen; stopped := stop |}
  end.

(** A read that is pending when the stop flag is set and that is not
    aborted: it brings what the stream brings next, and the loop then finds
    the flag set, at its next check or after the read has reported the end.
    Pressing Stop again only shows the notice again: the effect on
    [stopSignal.stopped] runs when the flag changes. *)
Fixpoint readFlagged (files : list GeneratedFile) (reads : list Read)
    (finalResult : option FinalResult) (ts : list Toast) (seen : list Update) : Outcome :=
  match reads with
  | [] => applyFinalResult files true finalResult ts seen
  | Chunk records :: _ =>
      match processRecords records finalResult seen with
      | (seen', Return finalResult') => applyFinalResult files true finalResult' ts seen'
      | (seen', Throw e) => caught e ts seen' true
      end
  | Rejected e :: _ => caught e ts seen true
  | StopClicked :: rest | StopElsewhere :: rest =>
      readFlagged files rest finalResult
        (ts ++ [ToastInfo (js "Error fixing cancelled")]) seen
  end.

(** The [while (reader)] loop: [stop] is [stopSignal.stopped] as the check
    at the head of the loop finds it. *)
Fixpoint readLoop (files : list GeneratedFile) (stop : bool) (reads : list Read)
    (finalResult : option FinalResult) (ts : list Toast) (seen : list Update) : Outcome :=
  if stop then applyFinalResult files stop finalResult ts seen
  else
    match reads with
    | [] => applyFinalResult files stop finalResult ts seen
    | Chunk records :: rest =>
        match processRecords records finalResult seen with
        | (seen', Return finalResult') => readLoop files stop rest finalResult' ts seen'
        | (seen', Throw e) => caught e ts seen' stop
        end
    | Rejected e :: _ => caught e ts seen stop
    | StopClicked :: _ =>
        caught AbortError (ts ++ [ToastInfo (js "Error fixing cancelled")]) seen true
    | StopElsewhere :: rest =>
        readFlagged files rest finalResult
          (ts ++ [ToastInfo (js "Error fixing cancelled")]) seen
    end.

(** [handleSandboxError(error, errorHash)], for the component's [files], the
    value of [stopSignal.stopped] when it is called, whether API settings
    are configured, and what the network brings. *)
Definition handleSandboxError (files : list GeneratedFile) (stop : bool)
    (apiSettings : bool) (fetch : Fetch) : Outcome :=
  let ts := [ToastInfo (js "AI is analyzing and fixing the error...")] in
  if negb apiSettings then
    {| exit := NoApiSettings;
       toasts := ts ++ [ToastError (js "API settings not configured")];
       shown := []; stopped := stop |}
  else
    match fetch with
    | FetchRejected e => caught e ts [] stop
    | FetchStopClicked =>
        caught AbortError (ts ++ [ToastInfo (js "Error fixing cancelled")]) [] true
    | Responded false _ => caught (Error (js "Failed to fix error")) ts [] stop
    | Responded true reads => readLoop files stop reads None ts []
    | RespondedAfterStop false _ =>
        caught (Error (js "Failed to fix error"))
          (ts ++ [ToastInfo (js "Error fixing cancelled")]) [] true
    | RespondedAfterStop true reads =>
        readLoop files true reads None (ts ++ [ToastInfo (js "Error fixing cancelled")]) []
    end.

(** The response of the route, delivered whole, one record per chunk. *)
Definition delivered (r : Response) : Fetch :=
  match r with
  | BadRequest => Responded false []
  | EventStream records => Responded true (map (fun rec => Chunk [rec]) records)
  end.

(** The terminal states of a repair session, read off the way the call
    ended. It is complete when the patch was handed over. It is aborted when
    the user stopped it: the loop saw the stop flag, or Stop was pressed
    while an await was pending and the rejection of that await ended the
    call in the catch block. It is failed when the catch block ran for any
    other reason. An early return for missing settings and a stream that
    ends with nothing to apply reach none of the three. *)
Inductive Terminal := Complete | Failed | Aborted.

Definition terminal (o : Outcome) : option Terminal :=
  match exit o with
  | Applied _ | AppliedNonObject _ => Some Complete
  | Cancelled => Some Aborted
  | Caught _ => if stopped o then Some Aborted else Some Failed
  | NoApiSettings | NotApplied => None
  end.

Definition surfacedAsFailure (o : Outcome) : bool :=
  existsb (fun t => match t with ToastError _ => true | _ => false end) (toasts o).

(** *** ErrorMonitor: the listener on Sandpack messages *)

Inductive LogItem :=
| LogObject (method : jsstring) (data : option (list jsstring))
| LogOther.                          (* typeof log is not object *)

(** A message of the Sandpack client, by the fields the listener reads. An
    absent string or number is the empty string or 0, which the listener
    cannot tell from it. *)
Inductive SandpackMessage :=
| Done (compilatonError : bool)      (* type done; compilatonError === true *)
| ShowError (message title : jsstring) (line column : N) (path : jsstring)
                                     (* type action, action show-error *)
| Notification (notificationType title : jsstring)
                                     (* type action, action notification *)
| Console (codesandbox : bool) (log : option (list LogItem))
                                     (* type console *)
| OtherMessage.

Definition isErrorLog (l : LogItem) : bool :=
  match l with
  | LogObject method _ => eqb method (js "error") || eqb method (js "warn")
  | LogOther => false
  end.

Definition logText (l : LogItem) : jsstring :=
  match l with
  | LogObject _ (Some data) => join (js " ") data
  | _ => []
  end.

(** The four detectors: [errorType] and [errorMessage]. *)
Definition observe (m : SandpackMessage) : jsstring * jsstring :=
  match m with
  | ShowError message title line column path =>
      let m0 := if negb (isEmpty message) then message
                else if negb (isEmpty title) then title
                else js "Compilation failed" in
      let m1 := if (line =? 0)%N then m0 else m0 ++ [10%N] ++ js "Line: " ++ ofN line in
      let m2 := if (column =? 0)%N then m1 else m1 ++ js ", Column: " ++ ofN column in
      let m3 := if isEmpty path then m2 else m2 ++ [10%N] ++ js "File: " ++ path in
      (js "Compilation Error", m3)
  | Notification notificationType title =>
      if eqb notificationType (js "error") then
        (js "Build Error", if isEmpty title then js "Build notification error" else title)
      else ([], [])
  | Console true (Some log) =>
      let errorLogs := List.filter isErrorLog log in
      if isEmpty errorLogs then ([], [])
      else
        let errorMessage := join [10%N] (map logText errorLogs) in
        (js "Runtime Error",
         if includes errorMessage (js "Error") || includes errorMessage (js "Syntax")
            || includes errorMessage (js "Warning")
         then errorMessage else [])
  | Done true =>
      (js "Compilation Failed", js "Build completed with compilation errors")
  | _ => ([], [])
  end.

(** [`${errorType}:${errorMessage.substring(0, 100)}`] *)
Definition errorHashOf (errorType errorMessage : jsstring) : jsstring :=
  errorType ++ js ":" ++ substring0 100 errorMessage.

(** The component [ErrorMonitor]: its state, the deadlines of the pending
    [setTimeout] callbacks, and what the subscribed listener holds.

    The listener is a closure of the render in which the effect last ran. The
    effect depends on [listen] and [lastErrorHash] only, so the listener
    holds the [fixedErrors], [errorCooldown] and [lastSuccessTime] of that
    render, while [lastErrorHash] is always the current one: a change of it
    runs the effect again. The updaters [prev => ...] and the setters work
    on the current state.

    The component is mounted under [<motion.div key={files.length}>]: when
    the number of files changes, React unmounts it and mounts a new one,
    with the initial state; the callbacks and the calls of the old one no
    longer reach any state. [mount] counts the mounts. *)
Record Monitor := {
  lastErrorHash : jsstring;
  fixedErrors : gset jsstring;
  errorCooldown : bool;
  lastSuccessTime : Z;
  timers : list Z;
  heldFixedErrors : gset jsstring;
  heldCooldown : bool;
  heldSuccessTime : Z;
  fileCount : nat;
  mount : nat
}.

(** The component as mounted for [n] files, the [k]-th time. *)
Definition mounted (n k : nat) : Monitor :=
  {| lastErrorHash := []; fixedErrors := ∅; errorCooldown := false;
     lastSuccessTime := 0; timers := [];
     heldFixedErrors := ∅; heldCooldown := false; heldSuccessTime := 0;
     fileCount := n; mount := k |}.

(** The component when it is first mounted, on a project of one file. *)
Definition initial : Monitor := mounted 1 0.

(** The effect runs again: the listener of the current render is
    subscribed. *)
Definition resubscribe (st : Monitor) : Monitor :=
  {| lastErrorHash := lastErrorHash st; fixedErrors := fixedErrors st;
     errorCooldown := errorCooldown st; lastSuccessTime := lastSuccessTime st;
     timers := timers st;
     heldFixedErrors := fixedErrors st; heldCooldown := errorCooldown st;
     heldSuccessTime := lastSuccessTime st;
     fileCount := fileCount st; mount := mount st |}.

(** [CodePreview] is rendered with [n] files: a new component for a new
    number of files. Otherwise the component stays, and so does the
    listener. (With no file at all [CodePreview] renders no [ErrorMonitor]
    and no Sandpack client: no message arrives then.) *)
Definition filesChange (n : nat) (st : Monitor) : Monitor :=
  if (n =? fileCount st)%nat then st else mounted n (S (mount st)).

(** A repair started by the listener: the arguments of
    [handleSandboxError], and the mount whose listener made the call. *)
Record Started := { startedError : jsstring; startedHash : jsstring; startedMount : nat }.

(** The block [if (errorMessage) { ... }] of the listener: the decision to
    start a repair, when [Date.now()] is [now]. The three state updates
    change [lastErrorHash], so that the effect runs again. *)
Definition gate (now : Z) (errorType errorMessage : jsstring) (st : Monitor)
  : Monitor * option Started :=
  if isEmpty errorMessage then (st, None)
  else
    let errorHash := errorHashOf errorType errorMessage in
    if heldCooldown st then (st, None)
    else if bool_decide (errorHash ∈ heldFixedErrors st) then (st, None)
    else if negb (eqb errorHash (lastErrorHash st)) then
      if (now - heldSuccessTime st <? 2000)%Z then (st, None)
      else
        (resubscribe
           {| lastErrorHash := errorHash;
              fixedErrors := fixedErrors st ∪ {[errorHash]};
              errorCooldown := true;
              lastSuccessTime := lastSuccessTime st;
              timers := timers st ++ [(now + 5000)%Z];
              heldFixedErrors := heldFixedErrors st; heldCooldown := heldCooldown st;
              heldSuccessTime := heldSuccessTime st;
              fileCount := fileCount st; mount := mount st |},
         Some {| startedError := errorType ++ js ": " ++ errorMessage;
                 startedHash := errorHash; startedMount := mount st |})
    else (st, None).

(** The listener, called with a message when [Date.now()] is [now]. The
    branch of a successful build changes no dependency of the effect. *)
Definition listener (now : Z) (m : SandpackMessage) (st : Monitor)
  : Monitor * option Started :=
  match m with
  | Done false =>
      ({| lastErrorHash := lastErrorHash st; fixedErrors := ∅;
          errorCooldown := false; lastSuccessTime := now; timers := timers st;
          heldFixedErrors := heldFixedErrors st; heldCooldown := heldCooldown st;
          heldSuccessTime := heldSuccessTime st;
          fileCount := fileCount st; mount := mount st |},
       None)
  | _ => gate now (fst (observe m)) (snd (observe m)) st
  end.

(** The callbacks [() => setErrorCooldown(false)] whose delay has passed. A
    callback set at time [t] is due at [t + 5000] and runs before anything
    that happens at that time or later; no callback is ever cleared. It
    changes no dependency of the effect. *)
Definition fireTimers (now : Z) (st : Monitor) : Monitor :=
  {| lastErrorHash := lastErrorHash st; fixedErrors := fixedErrors st;
     errorCooldown := errorCooldown st && negb (existsb (fun d => (d <=? now)%Z) (timers st));
     lastSuccessTime := lastSuccessTime st;
     timers := List.filter (fun d => negb (d <=? now)%Z) (timers st);
     heldFixedErrors := heldFixedErrors st; heldCooldown := heldCooldown st;
     heldSuccessTime := heldSuccessTime st;
     fileCount := fileCount st; mount := mount st |}.

(** [setLastErrorHash('')]: the effect runs again when the hash was not
    empty. *)
Definition clearLastErrorHash (st : Monitor) : Monitor :=
  let st' :=
    {| lastErrorHash := []; fixedErrors := fixedErrors st;
       errorCooldown := errorCooldown st; lastSuccessTime := lastSuccessTime st;
       timers := timers st;
       heldFixedErrors := heldFixedErrors st; heldCooldown := heldCooldown st;
       heldSuccessTime := heldSuccessTime st;
       fileCount := fileCount st; mount := mount st |} in
  if isEmpty (lastErrorHash st) then st' else resubscribe st'.

(** The state updates of a call that hands files over: [setLastErrorHash('')]
    and [setLastSuccessTime(Date.now())]. *)
Definition fixApplied (now : Z) (st : Monitor) : Monitor :=
  clearLastErrorHash
    {| lastErrorHash := lastErrorHash st; fixedErrors := fixedErrors st;
       errorCooldown := errorCooldown st; lastSuccessTime := now;
       timers := timers st;
       heldFixedErrors := heldFixedErrors st; heldCooldown := heldCooldown st;
       heldSuccessTime := heldSuccessTime st;
       fileCount := fileCount st; mount := mount st |}.

(** The state updates of the [catch] block: the fingerprint leaves
    [fixedErrors], and [setLastErrorHash('')]. *)
Definition fixFailedState (errorHash : jsstring) (st : Monitor) : Monitor :=
  clearLastErrorHash
    {| lastErrorHash := lastErrorHash st;
       fixedErrors := fixedErrors st ∖ {[errorHash]};
       errorCooldown := errorCooldown st; lastSuccessTime := lastSuccessTime st;
       timers := timers st;
       heldFixedErrors := heldFixedErrors st; heldCooldown := heldCooldown st;
       heldSuccessTime := heldSuccessTime st;
       fileCount := fileCount st; mount := mount st |}.

(** The end of the call [handleSandboxError(error, errorHash)] that the
    repair [s] is. The owner of the files takes the array handed to
    [onFilesFixed] and renders [CodePreview] with it. The state updates
    reach the component that made the call, if it is still mounted. *)
Definition sessionExit (now : Z) (s : Started) (x : Exit) (st : Monitor)
  : Monitor :=
  let own := (startedMount s =? mount st)%nat in
  match x with
  | Applied updated =>
      filesChange (length updated) (if own then fixApplied now st else st)
  | AppliedNonObject handed =>
      filesChange handed (if own then fixApplied now st else st)
  | Caught _ => if own then fixFailedState (startedHash s) st else st
  | NoApiSettings | NotApplied | Cancelled => st
  end.

(** What happens to the component: a message arrives, a repair ends, the
    provider of [useSandpack] hands out a new [listen], or [CodePreview] is
    rendered with some number of files. *)
Inductive Event :=
| Message (m : SandpackMessage)
| SessionEnds (s : Started) (x : Exit)
| ListenChanges
| Renders (files : nat).

(** One event at time [fst ev]: first the timers that are due. *)
Definition step (st : Monitor) (ev : Z * Event) : Monitor * option Started :=
  let st' := fireTimers (fst ev) st in
  match snd ev with
  | Message m => listener (fst ev) m st'
  | SessionEnds s x => (sessionExit (fst ev) s x st', None)
  | ListenChanges => (resubscribe st', None)
  | Renders n => (filesChange n st', None)
  end.

(** A timed list of events: the final state and the repairs started. *)
Fixpoint run (st : Monitor) (evs : list (Z * Event)) : Monitor * list Started :=
  match evs with
  | [] => (st, [])
  | ev :: rest =>
      let '(st', started) := step st ev in
      let '(st'', more) := run st' rest in
      (st'', match started with Some s => s :: more | None => more end)
  end.

(** Whether the gate lets a message through: a repair is started. *)
Definition accepts (now : Z) (m : SandpackMessage) (st : Monitor) : bool :=
  match snd (step st (now, Message m)) with Some _ => true | None => false end.

End CodePreview.

(** ** Notions used in the statements *)

Import SmartSandboxErrorFixerService SandboxErrorFix CodePreview.

(** What the three checks of the loop body look for in a content. *)
Definition hasEmptyFunction (content : json) : bool :=
  match content with JStr text => test reEmptyFunction text | _ => false end.

Definition hasTODO (content : json) : bool :=
  match content with
  | JStr text => includes text (js "// TODO") || includes text (js "// FIXME")
  | _ => false
  end.

Definition isString (content : json) : bool :=
  match content with JStr _ => true | _ => false end.

(** The content of the first file under a path. *)
Fixpoint contentAt (files : list GeneratedFile) (p : jsstring) : option value :=
  match files with
  | [] => None
  | f :: rest => if eqb (path f) p then Some (content f) else contentAt rest p
  end.

Definition isStringValue (v : value) : bool :=
  match v with J (JStr _) => true | _ => false end.

(** The reads bring these records, cut into chunks in any way, and then
    report the end of the stream. *)
Definition delivers (reads : list Read) (records : list SSERecord) : Prop :=
  exists chunks, reads = map Chunk chunks /\ concat chunks = records.

(** A string literal between double quotes, for JSON texts. *)
Definition quoted (s : string) : jsstring := [34%N] ++ js s ++ [34%N].

(** The records of a response, and the stages of its progress records. *)
Definition recordsOf (r : Response) : list SSERecord :=
  match r with
  | EventStream records => records
  | BadRequest => []
  end.

Definition stagesOf (records : list SSERecord) : list Stage.t :=
  flat_map (fun r => match r with Progress u => [stage u] | _ => [] end) records.


(** The fingerprint the listener computes for a message, and whether the
    message is a fault: not a successful build, and with an error message. *)
Definition hashOf (m : SandpackMessage) : jsstring :=
  errorHashOf (fst (observe m)) (snd (observe m)).

Definition isFault (m : SandpackMessage) : bool :=
  match m with
  | Done false => false
  | _ => negb (isEmpty (snd (observe m)))
  end.

(** The build succeeds at time [T]: the message of the finished build
    arrives, and the provider, which renders again when a build is done,
    hands the component a new [listen]. *)
Definition buildSucceeded (T : Z) (st : Monitor) : Monitor :=
  fst (step (fst (step st (T, Message (Done false)))) (T, ListenChanges)).

(** The four tests of the gate, in one condition, on what the listener
    holds. *)
Definition passes (now : Z) (h : jsstring) (st : Monitor) : bool :=
  negb (heldCooldown st)
  && negb (bool_decide (h ∈ heldFixedErrors st))
  && negb (eqb h (lastErrorHash st))
  && (2000 <=? now - heldSuccessTime st)%Z.

(** An event that leaves the component mounted: [CodePreview] is not
    rendered with another number of files than [n], and no repair hands
    over another number. *)
Definition keepsFiles (n : nat) (ev : Event) : Prop :=
  match ev with
  | Renders k => k = n
  | SessionEnds _ (Applied updated) => length updated = n
  | SessionEnds _ (AppliedNonObject handed) => handed = n
  | _ => True
  end.

(** The state after the listener has accepted the fingerprint [h] at time
    [now]: the three state updates, the timer, and the effect that runs
    again since [lastErrorHash] changed. *)
Definition afterAccept (now : Z) (h : jsstring) (st : Monitor) : Monitor :=
  {| lastErrorHash := h;
     fixedErrors := fixedErrors st ∪ {[h]};
     errorCooldown := true;
     lastSuccessTime := lastSuccessTime st;
     timers := timers st ++ [(now + 5000)%Z];
     heldFixedErrors := fixedErrors st ∪ {[h]};
     heldCooldown := true;
     heldSuccessTime := lastSuccessTime st;
     fileCount := fileCount st; mount := mount st |}.

(** A fault arrives: a message other than that of a successful build. *)
Definition faultAt (tm : Z * SandpackMessage) : Z * Event := (fst tm, Message (snd tm)).

(** The state after a fault has passed the gate at time [now]. *)
Definition accepted (now : Z) (m : SandpackMessage) (st : Monitor) : Monitor :=
  fst (step st (now, Message m)).

(** A session in which the user presses Stop during the implementation
    stage: the four progress records up to generating_fix have arrived, one
    per chunk, and the next read is pending. *)
Definition filesBeforeStop : list GeneratedFile :=
  [{| path := js "/src/App.tsx"; content := J (JStr (js "export default 0")) |}].

Definition sentBeforeStop : list Update :=
  firstn 4
    (map wiredUpdate
       (fst (fixWithReasoning (js "Compilation Error: Unexpected token") filesBeforeStop
               (Streams (js "{" ++ quoted "errorAnalysis" ++ js ": {}}"))
               (Streams (js "{" ++ quoted "files" ++ js ": {" ++ quoted "/src/App.tsx"
                         ++ js ": " ++ quoted "export default 1" ++ js "}}"))))).

Definition stopDuringImplementingFix : Fetch :=
  Responded true (map Chunk (map (fun u => [Progress u]) sentBeforeStop) ++ [StopClicked]).

(** The array a repair hands over on a project of one file when its patch
    brings a second file. *)
Definition withTestFile : list GeneratedFile :=
  updatedFiles filesBeforeStop
    [(js "/src/App.tsx", JStr (js "export default 1"));
     (js "/src/App.test.tsx", JStr (js "test('renders', () => {})"))].

(** The same for a patch that changes the one file only. *)
Definition withoutTestFile : list GeneratedFile :=
  updatedFiles filesBeforeStop [(js "/src/App.tsx", JStr (js "export default 1"))].

(** Whether the call handed files over to [onFilesFixed]. *)
Definition merged (x : Exit) : bool :=
  match x with
  | Applied _ | AppliedNonObject _ => true
  | _ => false
  end.

(** The stages of a repair that succeeds, in the order the service reports
    them. *)
Definition allStages : list Stage.t :=
  [Stage.analyzing; Stage.reasoning_complete; Stage.codebase_analysis;
   Stage.generating_fix; Stage.verifying; Stage.complete].

(** ** server/services/vectorService.js *)

Module VectorService.

(** ToInt32: an integer taken modulo 2^32 into the signed 32-bit range, as
    the bitwise operators do with their operands and their result. *)
Definition toInt32 (z : Z) : Z := ((z + 2 ^ 31) mod 2 ^ 32 - 2 ^ 31)%Z.

(** [a << n] and [a & b] on numbers that hold integers. *)
Definition shl (a n : Z) : Z := toInt32 (Z.shiftl (toInt32 a) n).
Definition and_ (a b : Z) : Z := toInt32 (Z.land (toInt32 a) (toInt32 b)).

(** The body of the loop of [hashContent]: [hash = ((hash << 5) - hash) +
    char; hash = hash & hash]. The subtraction and the addition are those
    of doubles, exact on integers of this size. *)
Definition hashStep (hash : Z) (char : N) : Z :=
  let hash := (shl hash 5 - hash + Z.of_N char)%Z in
  and_ hash hash.

(** The number [hash] when the loop ends. *)
Definition hashValue (content : jsstring) : Z := fold_left hashStep content 0%Z.

(** A digit of [toString(36)]: 0 to 9, then a to z. *)
Definition digit36 (d : Z) : N :=
  if (d <? 10)%Z then (48 + Z.to_N d)%N else (87 + Z.to_N d)%N.

(** The digits of a non-negative integer in base 36, in front of [acc]. The
    fuel bounds the number of digits. *)
Fixpoint digits36 (fuel : nat) (n : Z) (acc : jsstring) : jsstring :=
  match fuel with
  | O => acc
  | S fuel' =>
      let acc' := digit36 (n mod 36) :: acc in
      if (n / 36 =? 0)%Z then acc' else digits36 fuel' (n / 36)%Z acc'
  end.

(** [n.toString(36)] for an integer [n]: a number below 2^k has at most k
    digits. *)
Definition toString36 (n : Z) : jsstring :=
  let digits := digits36 (S (Z.to_nat (Z.log2 (Z.abs n)))) (Z.abs n) [] in
  if (n <? 0)%Z then js "-" ++ digits else digits.

(** [hashContent(content)] on a string. *)
Definition hashContent (content : jsstring) : jsstring := toString36 (hashValue content).

(** [parseInt(s, 36)] on a string of digits with an optional minus sign,
    the inverse of [toString(36)]. *)
Definition value36 (c : N) : Z :=
  if isDigit c then Z.of_N c - 48 else Z.of_N c - 87.

Definition parseInt36 (s : jsstring) : Z :=
  match s with
  | 45%N :: digits => - fold_left (fun v c => v * 36 + value36 c)%Z digits 0%Z
  | _ => fold_left (fun v c => v * 36 + value36 c)%Z s 0%Z
  end.

(** The polynomial of the code units with base 31, over the integers. *)
Definition poly31 (content : jsstring) : Z :=
  fold_left (fun v c => 31 * v + Z.of_N c)%Z content 0%Z.

End VectorService.

(** ** server/services/productionValidatorService.js: the helpers *)

Module ProductionValidatorService.

(** [s.split(sep)] for a separator of one code unit: the pieces between the
    separators, at least one. *)
Fixpoint split (sep : N) (s : jsstring) : list jsstring :=
  match s with
  | [] => [[]]
  | c :: s' =>
      if (c =? sep)%N then [] :: split sep s'
      else match split sep s' with
           | piece :: rest => (c :: piece) :: rest
           | [] => [[c]]
           end
  end.

(** [arr.findIndex(p)]; [None] stands for -1. *)
Fixpoint findIndex {A} (p : A -> bool) (l : list A) : option nat :=
  match l with
  | [] => None
  | x :: l' =>
      if p x then Some 0%nat
      else match findIndex p l' with
           | Some i => Some (S i)
           | None => None
           end
  end.

(** [findLine(content, searchText)] on a string. *)
Definition findLine (content searchText : jsstring) : nat :=
  let lines := split 10 content in
  match findIndex (fun line => includes line searchText) lines with
  | Some lineIndex => (lineIndex + 1)%nat
  | None => 0%nat
  end.

(** The body of the loop over the parts of the import path: [.] is
    skipped, [..] pops, which does nothing on an empty array, and every
    other part is pushed. *)
Definition resolvePart (dirParts : list jsstring) (part : jsstring) : list jsstring :=
  if eqb part (js ".") then dirParts
  else if eqb part (js "..") then removelast dirParts
  else dirParts ++ [part].

(** [resolveImportPath(fromPath, importPath)] *)
Definition resolveImportPath (fromPath importPath : jsstring) : jsstring :=
  let fromDir := join (js "/") (removelast (split 47 fromPath)) in
  let parts := split 47 importPath in
  let dirParts := List.filter (fun p => negb (isEmpty p)) (split 47 fromDir) in
  js "/" ++ join (js "/") (fold_left resolvePart parts dirParts).

End ProductionValidatorService.

(** ** Regular expressions with the flags [g] and [m]

    The expressions that strip markdown fences and artifacts are used with
    [replace(r, '')] under the [g] flag, some with line anchors under the
    [m] flag. An anchor looks at the code unit before or after the position,
    so the matcher carries the code unit before it. Repetitions are
    greedy. *)

Module Multiline.

Inductive matom :=
| MLit (s : jsstring)                  (* the characters of s *)
| MRep (plus : bool) (cls : N -> bool) (* cls* and cls+ *)
| MLineStart                           (* ^ under the m flag *)
| MLineEnd.                            (* $ under the m flag *)

Definition isLineTerminator (c : N) : bool :=
  existsb (N.eqb c) [10; 13; 8232; 8233]%N.

Definition atLineStart (prev : option N) : bool :=
  match prev with
  | None => true
  | Some c => isLineTerminator c
  end.

Definition atLineEnd (s : jsstring) : bool :=
  match s with
  | [] => true
  | c :: _ => isLineTerminator c
  end.

(** A greedy repetition of a class, followed by the rest of the expression
    [k]: as many code units as possible are taken, and given back one by one
    while the rest does not match. *)
Fixpoint repeatGreedy (cls : N -> bool) (k : option N -> jsstring -> option jsstring)
    (plus taken : bool) (prev : option N) (s : jsstring) {struct s} : option jsstring :=
  let stop (_ : unit) := if plus && negb taken then None else k prev s in
  let more (_ : unit) :=
    match s with
    | c :: s' => if cls c then repeatGreedy cls k plus true (Some c) s' else None
    | [] => None
    end in
  match more tt with Some x => Some x | None => stop tt end.

(** The match at one position, by backtracking: the text left after it.
    [prev] is the code unit before the position. *)
Fixpoint mexec (r : list matom) (prev : option N) (s : jsstring) {struct r}
  : option jsstring :=
  match r with
  | [] => Some s
  | a :: r' =>
      match a with
      | MLit l =>
          match stripLit (fun c => c) l s with
          | Some (m, rest) => mexec r' (List.last (map Some m) prev) rest
          | None => None
          end
      | MRep plus cls => repeatGreedy cls (mexec r') plus false prev s
      | MLineStart => if atLineStart prev then mexec r' prev s else None
      | MLineEnd => if atLineEnd s then mexec r' prev s else None
      end
  end.

(** [s.replace(r, '')] for an expression with the [g] flag: every match is
    cut out, each search starting where the match before it ended. [skip]
    counts the code units still covered by the last match. The expressions
    used this way cannot match the empty string. *)
Fixpoint removeAll (r : list matom) (prev : option N) (skip : nat) (s : jsstring)
    {struct s} : jsstring :=
  match s with
  | [] => []
  | c :: s' =>
      match skip with
      | S k => removeAll r (Some c) k s'
      | O =>
          match mexec r prev s with
          | Some rest => removeAll r (Some c) (length s - length rest - 1) s'
          | None => c :: removeAll r (Some c) 0 s'
          end
      end
  end.

(** [replace(/^```[\w]*\n/gm, '')], [replace(/\n```$/gm, '')],
    [replace(/```[\w]*$/gm, '')] and [replace(/^```/gm, '')], in this
    order: the markdown fences. *)
Definition reFenceOpenLine : list matom :=
  [MLineStart; MLit (js "```"); MRep false isWord; MLit [10%N]].
Definition reFenceCloseLine : list matom := [MLit (10%N :: js "```"); MLineEnd].
Definition reFenceTail : list matom := [MLit (js "```"); MRep false isWord; MLineEnd].
Definition reFenceHead : list matom := [MLineStart; MLit (js "```")].

Definition removeFences (content : jsstring) : jsstring :=
  let content := removeAll reFenceOpenLine None 0 content in
  let content := removeAll reFenceCloseLine None 0 content in
  let content := removeAll reFenceTail None 0 content in
  removeAll reFenceHead None 0 content.

(** [replace(/<ctrl\d+>/g, '')], [replace(/<end>/g, '')] and
    [replace(/<start>/g, '')]: the artifacts of the model. *)
Definition reCtrl : list matom := [MLit (js "<ctrl"); MRep true isDigit; MLit (js ">")].

Definition removeArtifacts (content : jsstring) : jsstring :=
  let content := removeAll reCtrl None 0 content in
  let content := removeAll [MLit (js "<end>")] None 0 content in
  removeAll [MLit (js "<start>")] None 0 content.

End Multiline.

(** ** frontend/src/components/CodePreview.tsx: the files of the sandbox *)

Module Sandpack.
Import Multiline.

(** [file.path.startsWith('/') ? file.path : `/${file.path}`] *)
Definition normalizedPath (p : jsstring) : jsstring :=
  if startsWith p (js "/") then p else js "/" ++ p.

(** The content as [convertToSandpackFiles] stores it. *)
Definition cleanedContent (content : jsstring) : jsstring :=
  trim (removeArtifacts (removeFences content)).

(** The loop of [convertToSandpackFiles] over the files. Only a string has
    a [replace] method. *)
Fixpoint convertFiles (files : list GeneratedFile) (sandpackFiles : list (jsstring * jsstring))
  : Completion (list (jsstring * jsstring)) :=
  match files with
  | [] => Return sandpackFiles
  | file :: rest =>
      match content file with
      | J (JStr text) =>
          convertFiles rest
            (define (normalizedPath (path file)) (cleanedContent text) sandpackFiles)
      | c => Throw (cannotCall c "cleanedContent" "replace")
      end
  end.

Definition convertToSandpackFiles (files : list GeneratedFile)
  : Completion (list (jsstring * jsstring)) :=
  convertFiles files [].

(** [s.endsWith(suffix)] *)
Definition endsWith (s suffix : jsstring) : bool := startsWith (rev s) (rev suffix).

Definition entryPatterns : list jsstring :=
  [js "src/main.tsx"; js "src/main.ts"; js "src/index.tsx"; js "src/index.ts";
   js "src/App.tsx"; js "src/App.ts"; js "index.html"; js "index.tsx"; js "index.ts";
   js "main.tsx"; js "main.ts"].

(** The predicate of [files.find] for one pattern. *)
Definition matchesPattern (pattern : jsstring) (f : GeneratedFile) : bool :=
  eqb (path f) pattern || eqb (path f) (js "/" ++ pattern) || endsWith (path f) pattern.

(** [for (const pattern of entryPatterns)]: the first pattern that some
    file matches, with the first file that matches it. *)
Fixpoint findEntry (patterns : list jsstring) (files : list GeneratedFile)
  : option GeneratedFile :=
  match patterns with
  | [] => None
  | pattern :: rest =>
      match List.find (matchesPattern pattern) files with
      | Some found => Some found
      | None => findEntry rest files
      end
  end.

(** [getEntryFile(files, projectType)]; the project type is not used. *)
Definition getEntryFile (files : list GeneratedFile) : jsstring :=
  match findEntry entryPatterns files with
  | Some found => normalizedPath (path found)
  | None =>
      match files with
      | file :: _ => normalizedPath (path file)
      | [] => js "/src/App.tsx"
      end
  end.

End Sandpack.

(** ** server/services/sandboxErrorFixerService.js *)

Module SandboxErrorFixerService.
Import Multiline.

(** [replace(/^---+$/gm, '')]: the separator lines of the prompt. *)
Definition reSeparator : list matom :=
  [MLineStart; MLit (js "--"); MRep true (fun c => (c =? 45)%N); MLineEnd].

Definition cleanContent (content : jsstring) : jsstring :=
  trim (removeAll reSeparator None 0 (removeArtifacts (removeFences content))).

(** [/FILE:\s*([^\n]+)\n(?:CONTENT:\n)?([\s\S]*?)(?=FILE:|$)/g]; the groups
    are pieces 2 and 5. *)
Definition reFileBlock : list atom :=
  [Lit (js "FILE:"); Rep true false isSpace; Rep true true (notChar 10);
   Lit [10%N]; LitAlt [js "CONTENT:" ++ [10%N]; []]; Rep false false anyChar;
   AheadLitOrEnd (js "FILE:")].

Definition fallbackFiles (response : jsstring) : list (jsstring * json) :=
  fold_left
    (fun fixedFiles m =>
       let filePath := trim (group 2 m) in
       let content := cleanContent (trim (group 5 m)) in
       assign filePath (JStr content) fixedFiles)
    (execAll reFileBlock 0 response) [].

(** [parseFixedFiles]: its [try] block is the one of the smart service. *)
Definition parseFixedFiles (response : jsstring) : json :=
  match structuredFiles response with
  | Some files => files
  | None => JObj (fallbackFiles response)
  end.

Definition extractExplanation (response : jsstring) : json :=
  let default := JStr (js "Fixed sandbox errors") in
  match matchText reObject response with
  | Some jsonMatch =>
      match parse jsonMatch with
      | Return parsed =>
          match getField parsed (js "explanation") with
          | Return (J e) => if truthyJson e then e else default
          | _ => default
          end
      | Throw _ => default
      end
  | None => default
  end.

(** The value [fixSandboxErrors] resolves to. *)
Inductive SandboxFixResult :=
| Fixed (fixedFiles explanation : json)   (* success: true *)
| NotFixed (error : jsstring).            (* success: false *)

(** [fixSandboxErrors(error, files, fileStructure)] with the outcome of its
    model call, for a prompt that could be built: the stream and the
    parsing are inside [try]. *)
Definition fixSandboxErrors (oracle : OracleOutcome) : SandboxFixResult :=
  match oracle with
  | Streams response => Fixed (parseFixedFiles response) (extractExplanation response)
  | Fails err => NotFixed (errMessage err)
  end.

Inductive ErrorType :=
| CSS_SYNTAX_ERROR | JS_SYNTAX_ERROR | MISSING_MODULE | MISSING_IMPORT | UNKNOWN_ERROR.

Inductive Severity := high | medium.

Record ErrorCategory := {
  type : ErrorType;
  severity : Severity;
  file : option jsstring
}.

(** [categorizeError(error)] for an error given as a string. *)
Definition categorizeError (errorStr : jsstring) : ErrorCategory :=
  if includes errorStr (js "CssSyntaxError") then
    {| type := CSS_SYNTAX_ERROR; severity := high; file := extractFileFromError errorStr |}
  else if includes errorStr (js "SyntaxError") then
    {| type := JS_SYNTAX_ERROR; severity := high; file := extractFileFromError errorStr |}
  else if includes errorStr (js "Module not found") then
    {| type := MISSING_MODULE; severity := high; file := extractFileFromError errorStr |}
  else if includes errorStr (js "Cannot find module") then
    {| type := MISSING_IMPORT; severity := medium; file := extractFileFromError errorStr |}
  else
    {| type := UNKNOWN_ERROR; severity := medium; file := None |}.

End SandboxErrorFixerService.

(** ** contextualChatService.js: parseCodeEditResponse *)

Module ContextualChatService.

(** Whether a value converts to a string, as a template literal requires.
    A plain object with an own property [toString], which is no function,
    has no primitive value, and an array converts its elements. *)
Fixpoint convertible (v : json) : bool :=
  match v with
  | JObj props =>
      match getOwn (js "toString") props with
      | Some _ => false
      | None => true
      end
  | JArr items => forallb convertible items
  | _ => true
  end.

(** A property of a value that is not [null]. *)
Definition prop (v : json) (k : jsstring) : value :=
  match getField v k with
  | Return x => x
  | Throw _ => Undefined
  end.

(** [a || b] where [b] is a string literal. *)
Definition orElse (a : value) (b : string) : json :=
  match or_ a (J (JStr (js b))) with
  | J x => x
  | _ => JStr (js b)
  end.

(** [content.includes(x)]: of a string or of an array; nothing else has the
    method. *)
Definition contentIncludes (content : json) (x : string) : Completion bool :=
  match content with
  | JStr s => Return (includes s (js x))
  | JArr items =>
      Return (existsb (fun item => match item with
                                   | JStr s => eqb s (js x)
                                   | _ => false
                                   end) items)
  | c => Throw (cannotCall (J c) "content" "includes")
  end.

(** The three tests joined by [||]: the first that throws or holds ends
    them. *)
Definition hasPlaceholders (content : json) : Completion bool :=
  match contentIncludes content "// TODO" with
  | Throw e => Throw e
  | Return true => Return true
  | Return false =>
      match contentIncludes content "// ... existing code ..." with
      | Throw e => Throw e
      | Return true => Return true
      | Return false => contentIncludes content "// Add code here"
      end
  end.

Record Change := {
  file : json;
  action : jsstring;
  newContent : json;
  summary : json
}.

Definition validActions : list jsstring := [js "edit"; js "create"; js "delete"].

(** [validActions.includes(action)] *)
Definition isValidAction (a : json) : bool :=
  match a with
  | JStr s => existsb (eqb s) validActions
  | _ => false
  end.

Definition isAction (a : json) (name : string) : bool :=
  match a with
  | JStr s => eqb s (js name)
  | _ => false
  end.

Definition cannotConvert : JSError := TypeError "Cannot convert object to primitive value".

(** The callback of [parsed.changes.map]. The warnings it logs are written
    with template literals, which convert the action and the file to
    strings. *)
Definition validateChange (index : N) (change : json) : Completion Change :=
  let missingFile := Error (js "Change " ++ ofN index ++ js " missing file path") in
  match getField change (js "file") with
  | Throw e => Throw e
  | Return (J changeFile) =>
      if negb (truthyJson changeFile) then Throw missingFile
      else
        let action := orElse (prop change (js "action")) "edit" in
        if negb (isValidAction action) && negb (convertible action) then Throw cannotConvert
        else if (isAction action "edit" || isAction action "create")
                && negb (truthy (prop change (js "newContent")))
                && negb (truthy (prop change (js "content")))
        then
          Throw (Error (js "Change " ++ ofN index ++ js " requires newContent for "
                        ++ match action with JStr s => s | _ => [] end ++ js " action"))
        else
          let content :=
            orElse (or_ (prop change (js "newContent")) (prop change (js "content"))) "" in
          match hasPlaceholders content with
          | Throw e => Throw e
          | Return placeholders =>
              if placeholders && negb (convertible changeFile) then Throw cannotConvert
              else
                Return
                  {| file := changeFile;
                     action := match action with
                               | JStr s => if isValidAction action then s else js "edit"
                               | _ => js "edit"
                               end;
                     newContent := content;
                     summary :=
                       orElse (prop change (js "summary"))
                         (if isAction action "create" then "Created file"
                          else if isAction action "delete" then "Deleted file"
                          else "Updated file") |}
          end
  | Return _ => Throw missingFile
  end.

(** [array.map(callback)], which stops at the first call that throws. *)
Fixpoint validateChanges (index : N) (changes : list json) : Completion (list Change) :=
  match changes with
  | [] => Return []
  | change :: rest =>
      match validateChange index change with
      | Throw e => Throw e
      | Return c =>
          match validateChanges (index + 1) rest with
          | Throw e => Throw e
          | Return cs => Return (c :: cs)
          end
      end
  end.

Record Stats := { edited : nat; created : nat; deleted : nat }.

Definition countAction (name : string) (changes : list Change) : nat :=
  length (List.filter (fun c => eqb (action c) (js name)) changes).

(** What [parseCodeEditResponse] returns: the object of the [try] block or
    the one of the [catch] block, whose [changes] and [affectedFiles] are
    empty. *)
Inductive CodeEdit :=
| Edits (explanation : json) (changes : list Change) (affectedFiles : json)
    (testingNotes : json) (stats : Stats)
| Unparsed (explanation : jsstring) (message : jsstring) (responsePreview : jsstring).

Definition parseCodeEditResponse (response : jsstring) : CodeEdit :=
  let attempt : Completion CodeEdit :=
    let cleanedResponse := trim response in
    let cleanedResponse := removePrefix ReasoningService.reFenceJson cleanedResponse in
    let cleanedResponse := removePrefix ReasoningService.reFence cleanedResponse in
    let cleanedResponse := removeFirst ReasoningService.reFenceEnd cleanedResponse in
    match matchText reObject cleanedResponse with
    | None =>
        Throw (Error (js ("AI did not return valid JSON. Response may contain "
                          ++ "explanatory text instead of code changes.")))
    | Some jsonMatch =>
        match parse jsonMatch with
        | Throw e => Throw e
        | Return parsed =>
            match getField parsed (js "changes") with
            | Throw e => Throw e
            | Return (J (JArr items)) =>
                match validateChanges 0 items with
                | Throw e => Throw e
                | Return changes =>
                    (* the log of the files converts each to a string *)
                    if negb (forallb (fun c => convertible (file c)) changes) then
                      Throw cannotConvert
                    else
                      Return
                        (Edits
                           (orElse (prop parsed (js "explanation")) "Code changes applied")
                           changes
                           (match or_ (prop parsed (js "affectedFiles"))
                                      (J (JArr (map file changes))) with
                            | J x => x
                            | _ => JArr (map file changes)
                            end)
                           (orElse (prop parsed (js "testingNotes"))
                                   "Verify changes in preview")
                           {| edited := countAction "edit" changes;
                              created := countAction "create" changes;
                              deleted := countAction "delete" changes |})
                end
            | Return _ => Throw (Error (js "Invalid response format: missing changes array"))
            end
        end
    end in
  match attempt with
  | Return r => r
  | Throw e =>
      Unparsed
        (js "Failed to parse AI response: " ++ errMessage e
         ++ js (". The AI may have outputted explanatory text or incomplete JSON instead "
                ++ "of valid code changes. Please try rephrasing your request with more "
                ++ "specific file names or paths."))
        (errMessage e) (substring0 300 response)
  end.

End ContextualChatService.

(** The loop of a repetition in [exec_at], by name, for the proofs about
    the expressions: [k] is the rest of the expression. *)
Fixpoint repLoop (greedy plus : bool) (cls : N -> bool)
    (k : jsstring -> jsstring -> option (list jsstring * jsstring))
    (taken s : jsstring) {struct s} : option (list jsstring * jsstring) :=
  let stop (_ : unit) :=
    if plus && isEmpty taken then None else k (rev taken) s in
  let more (_ : unit) :=
    match s with
    | c :: s' => if cls c then repLoop greedy plus cls k (c :: taken) s' else None
    | [] => None
    end in
  if greedy
  then match more tt with Some x => Some x | None => stop tt end
  else match stop tt with Some x => Some x | None => more tt end.

(** The rest of an expression after one of its atoms. *)
Definition continueWith (r : list atom) (piece rest : jsstring)
  : option (list jsstring * jsstring) :=
  match exec_at r rest with
  | Some (ps, out) => Some (piece :: ps, out)
  | None => None
  end.

(** The header of a block in the prompt of the smart service,
    [=== path ===] and a line feed. *)
Definition blockHeader (p : jsstring) : jsstring :=
  js "=== " ++ p ++ js " ===" ++ [10%N].

(** A path that a header carries as it is: one line, not empty, without
    white space at either end. *)
Definition headerPath (p : jsstring) : bool :=
  forallb (notChar 10) p && negb (isEmpty p) && eqb (trim p) p.

(** A text without [===], also not when [==] follows it, and with a code
    unit that is no white space. *)
Definition markerFree (c : jsstring) : bool :=
  negb (includes (c ++ js "==") (js "===")) && negb (isEmpty (trim c)).

(** A block of an answer: the header and the content, for a path and a
    content that are strings. *)
Definition block (f : jsstring * jsstring) : jsstring :=
  blockHeader (fst f) ++ snd f.

Definition blocks (files : list (jsstring * jsstring)) : jsstring :=
  concat (map block files).

(** The listing of the files in the prompt of [createSmartFixPrompt],
    [files.map(f => `\n=== ${f.path} ===\n${f.content}\n`).join('\n')], for
    files whose [path] and [content] are strings. *)
Definition fileEntry (f : jsstring * jsstring) : jsstring :=
  [10%N] ++ js "=== " ++ fst f ++ js " ===" ++ [10%N] ++ snd f ++ [10%N].

Definition fileListing (files : list (jsstring * jsstring)) : jsstring :=
  join [10%N] (map fileEntry files).

(** What the fallback parser stores for a block. *)
Definition putBlock (fixedFiles : list (jsstring * json)) (f : jsstring * jsstring)
  : list (jsstring * json) :=
  SmartSandboxErrorFixerService.assign (fst f) (JStr (trim (snd f))) fixedFiles.

(** The pieces of the match of [reFileBlock] on a block. *)
Definition blockPieces (f : jsstring * jsstring) : list jsstring :=
  [js "==="; js " "; fst f ++ js " "; []; js "===" ++ [10%N]; snd f; []].

(** The blocks of a listing: each content with the line feeds that follow
    it up to the next header or the end. *)
Fixpoint listed (files : list (jsstring * jsstring)) : list (jsstring * jsstring) :=
  match files with
  | [] => []
  | [f] => [(fst f, snd f ++ [10%N])]
  | f :: rest => (fst f, snd f ++ [10; 10; 10]%N) :: listed rest
  end.

(** ** The files handed to Sandpack (CodePreview.tsx) *)

Module Preview.
Import Sandpack.

Section WithLowerCase.

(** [String.prototype.toLowerCase], the case mapping of the engine. *)
Variable toLowerCase : jsstring -> jsstring.

Definition typeMap : list (jsstring * jsstring) :=
  [(js "react", js "react"); (js "react-ts", js "react-ts");
   (js "nextjs", js "nextjs"); (js "vue", js "vue"); (js "vue3", js "vue3");
   (js "angular", js "angular"); (js "svelte", js "svelte");
   (js "vanilla", js "vanilla"); (js "vanilla-js", js "vanilla");
   (js "static", js "static"); (js "node-api", js "node");
   (js "full-stack", js "react-ts")].

(** What [getTemplate] returns: a string, or a member that [typeMap]
    inherits from [Object.prototype], which is truthy. *)
Inductive Template :=
| TemplateName (name : jsstring)
| InheritedMember (key : jsstring).

(** [typeMap[projectType.toLowerCase()] || 'react-ts'] *)
Definition getTemplate (projectType : jsstring) : Template :=
  let key := toLowerCase projectType in
  match getOwn key typeMap with
  | Some name => if isEmpty name then TemplateName (js "react-ts") else TemplateName name
  | None =>
      if existsb (eqb key) Object_prototype_names
      then InheritedMember key
      else TemplateName (js "react-ts")
  end.

Definition quote : jsstring := [34%N].

(** The page of [/index.html], with [fileStructure.description || 'React App']
    as its title. *)
Definition indexHtml (description : jsstring) : jsstring :=
  js "<!DOCTYPE html>
<html lang=" ++ quote ++ js "en" ++ quote ++ js ">
  <head>
    <meta charset=" ++ quote ++ js "UTF-8" ++ quote ++ js ">
    <meta name=" ++ quote ++ js "viewport" ++ quote ++ js " content="
  ++ quote ++ js "width=device-width, initial-scale=1.0" ++ quote ++ js ">
    <title>" ++ (if isEmpty description then js "React App" else description)
  ++ js "</title>
  </head>
  <body>
    <div id=" ++ quote ++ js "root" ++ quote ++ js "></div>
  </body>
</html>".

Definition mainTsx : jsstring :=
  js "import React from 'react';
import { createRoot } from 'react-dom/client';
import App from './App';

const rootElement = document.getElementById('root');
if (!rootElement) throw new Error('Root element not found');

const root = createRoot(rootElement);
root.render(
  <React.StrictMode>
    <App />
  </React.StrictMode>
);".

Definition appTsx : jsstring :=
  js "import React from 'react';

function App() {
  return (
    <div style={{ padding: '2rem', textAlign: 'center', fontFamily: 'system-ui' }}>
      <h1>Hello React!</h1>
      <p>Your app is running successfully.</p>
    </div>
  );
}

export default App;".

(** Defining a property when a condition holds. *)
Definition defineIf (b : bool) (k v : jsstring) (required : list (jsstring * jsstring))
  : list (jsstring * jsstring) :=
  if b then define k v required else required.

(** [Object.keys(required).some(test)] *)
Definition someKey (test : jsstring -> bool) (required : list (jsstring * jsstring)) : bool :=
  existsb test (map fst required).

Definition isIndexHtml (path : jsstring) : bool :=
  includes (toLowerCase path) (js "index.html").

Definition isMainEntry (path : jsstring) : bool :=
  includes path (js "/src/main.tsx") || includes path (js "/src/index.tsx")
  || includes path (js "/src/main.jsx").

Definition isApp (path : jsstring) : bool :=
  includes path (js "/src/App.tsx") || includes path (js "/src/App.ts")
  || includes path (js "/src/App.jsx").

(** [ensureRequiredFiles()], with the text that [JSON.stringify] gives for
    the package description, which holds the time of the call. The copy
    [{ ...sandpackFiles }] has the properties of [sandpackFiles] in their
    order. Only a string has an [includes] method. *)
Definition ensureRequiredFiles (packageJson description : jsstring) (template : Template)
    (sandpackFiles : list (jsstring * jsstring))
  : Completion (list (jsstring * jsstring)) :=
  let required := sandpackFiles in
  let required := define (js "/package.json") packageJson required in
  let hasIndexHtml := someKey isIndexHtml required in
  let required :=
    defineIf (negb hasIndexHtml) (js "/index.html") (indexHtml description) required in
  match template with
  | InheritedMember _ => Throw (TypeError "template.includes is not a function")
  | TemplateName name =>
      if includes name (js "react") then
        let hasMainEntry := someKey isMainEntry required in
        let required :=
          defineIf (negb hasMainEntry) (js "/src/main.tsx") mainTsx required in
        let hasApp := someKey isApp required in
        let required :=
          defineIf (negb hasApp) (js "/src/App.tsx") appTsx required in
        Return required
      else Return required
  end.

End WithLowerCase.

(** The lower case of the ASCII letters, which [toLowerCase] gives on a
    string of ASCII code units. *)
Definition asciiLower (s : jsstring) : jsstring :=
  map (fun c => if ((65 <=? c) && (c <=? 90))%N then (c + 32)%N else c) s.

End Preview.

(** ** The intent of a chat message (ContextualChatService) *)

Module ChatIntent.

Section WithLowerCase.

(** [String.prototype.toLowerCase], the case mapping of the engine. *)
Variable toLowerCase : jsstring -> jsstring.

Definition editKeywords : list jsstring :=
  map js ["fix"; "change"; "update"; "modify"; "add"; "remove"; "delete";
          "refactor"; "improve"; "optimize"; "create"; "implement"; "build";
          "rename"; "move"; "replace"; "insert"; "cleanup"; "enhance";
          "adjust"; "tweak"; "correct"; "repair"; "revise"; "make"]%string.

Definition questionKeywords : list jsstring :=
  map js ["what"; "how"; "why"; "when"; "where"; "which"; "who";
          "can you"; "could you"; "would you"; "should i";
          "explain"; "tell me"; "show me"; "describe"; "clarify"]%string.

Definition featureKeywords : list jsstring :=
  map js ["button"; "form"; "modal"; "page"; "navbar"; "footer"; "header";
          "theme"; "style"; "layout"; "design"; "ui"; "interface";
          "dark mode"; "light mode"; "responsive"; "mobile"]%string.

Definition errorKeywords : list jsstring :=
  map js ["error"; "bug"; "fix"; "broken"; "not working"; "crash"; "failed";
          "issue"; "problem"; "wrong"; "incorrect"; "unexpected"; "debug"]%string.

(** [keywords.some(keyword => lowerMessage.includes(keyword))] *)
Definition someKeyword (keywords : list jsstring) (lowerMessage : jsstring) : bool :=
  existsb (fun keyword => includes lowerMessage keyword) keywords.

(** [keywords.filter(k => lowerMessage.includes(k))] *)
Definition filterKeywords (keywords : list jsstring) (lowerMessage : jsstring)
  : list jsstring :=
  List.filter (fun k => includes lowerMessage k) keywords.

(** The extensions of [/\.(tsx?|jsx?|css|html|json|md|py|java|go|rs)/i]. The
    result of [match] is only tested: it is truthy when a dot is followed by
    one of them in some case. *)
Definition fileExtensions : list jsstring :=
  map js ["tsx"; "ts"; "jsx"; "js"; "css"; "html"; "json"; "md"; "py"; "java";
          "go"; "rs"]%string.

Definition matchesExtension (lowerMessage : jsstring) : bool :=
  existsb (fun ext => test [Lit (js "."); LitI ext] lowerMessage) fileExtensions.

Definition hasFileReference (lowerMessage : jsstring) : bool :=
  matchesExtension lowerMessage
  || includes lowerMessage (js "component")
  || includes lowerMessage (js "file")
  || includes lowerMessage (js "function")
  || includes lowerMessage (js "class")
  || includes lowerMessage (js "module")
  || includes lowerMessage (js "service").

(** The confidence is a decimal literal: its digits and its exponent of
    ten. *)
Record Intent := {
  type : jsstring;
  confidence : N * Z;
  keywords : list jsstring
}.

Definition analyzeIntent (message : jsstring) : Intent :=
  let lowerMessage := toLowerCase message in
  let hasEditKeyword := someKeyword editKeywords lowerMessage in
  let hasQuestionKeyword := someKeyword questionKeywords lowerMessage in
  let hasFeatureKeyword := someKeyword featureKeywords lowerMessage in
  if hasEditKeyword || hasFeatureKeyword then
    if hasFileReference lowerMessage then
      {| type := js "code_edit"; confidence := (95%N, (-2)%Z);
         keywords := filterKeywords editKeywords lowerMessage
                     ++ filterKeywords featureKeywords lowerMessage |}
    else
      {| type := js "fix_issue"; confidence := (85%N, (-2)%Z);
         keywords := filterKeywords editKeywords lowerMessage |}
  else if hasQuestionKeyword && negb hasEditKeyword then
    {| type := js "question"; confidence := (8%N, (-1)%Z);
       keywords := filterKeywords questionKeywords lowerMessage |}
  else
    {| type := js "code_edit"; confidence := (6%N, (-1)%Z); keywords := [] |}.

Definition isErrorFixing (message : jsstring) (intent : Intent) : bool :=
  let lowerMessage := toLowerCase message in
  let hasErrorKeyword := someKeyword errorKeywords lowerMessage in
  let isFixIntent := eqb (type intent) (js "fix_issue") || eqb (type intent) (js "code_edit") in
  hasErrorKeyword && isFixIntent.

(** The method that answers a message. *)
Inductive Handler :=
| handleCodeEditWithReasoning
| standardCodeEdit
| handleQuestion
| handleGeneralChat.

(** [handleCodeEdit]: with reasoning for an error fix, else the standard
    edit. *)
Definition handleCodeEdit (message : jsstring) (intent : Intent) : Handler :=
  if isErrorFixing message intent then handleCodeEditWithReasoning else standardCodeEdit.

(** The method that [processMessage] calls for the intent of the message,
    when its calls of the vector service return. *)
Definition chosenHandler (message : jsstring) : Handler :=
  let intent := analyzeIntent message in
  if eqb (type intent) (js "code_edit") || eqb (type intent) (js "fix_issue")
  then handleCodeEdit message intent
  else if eqb (type intent) (js "question") then handleQuestion
  else handleGeneralChat.

End WithLowerCase.

End ChatIntent.

(** * Properties *)

(** ** verifyFixes *)

Lemma checkEmptyFunctions_frame p text st :
  patch (checkEmptyFunctions p text st) = patch st
  /\ validSyntax (checks (report (checkEmptyFunctions p text st)))
     = validSyntax (checks (report st))
  /\ importsResolved (checks (report (checkEmptyFunctions p text st)))
     = importsResolved (checks (report st))
  /\ noTODOComments (checks (report (checkEmptyFunctions p text st)))
     = noTODOComments (checks (report st))
  /\ noEmptyFunctions (checks (report (checkEmptyFunctions p text st)))
     = noEmptyFunctions (checks (report st)) && negb (test reEmptyFunction text).
Proof.
  unfold checkEmptyFunctions.
  destruct (test reEmptyFunction text); cbn;
    rewrite ?andb_true_r, ?andb_false_r; auto.
Qed.

Lemma checkTODOComments_frame p text st :
  patch (checkTODOComments p text st) = patch st
  /\ validSyntax (checks (report (checkTODOComments p text st)))
     = validSyntax (checks (report st))
  /\ importsResolved (checks (report (checkTODOComments p text st)))
     = importsResolved (checks (report st))
  /\ noEmptyFunctions (checks (report (checkTODOComments p text st)))
     = noEmptyFunctions (checks (report st))
  /\ noTODOComments (checks (report (checkTODOComments p text st)))
     = noTODOComments (checks (report st)) && negb (hasTODO (JStr text)).
Proof.
  unfold checkTODOComments, hasTODO.
  destruct (includes text (js "// TODO") || includes text (js "// FIXME")); cbn;
    rewrite ?andb_true_r, ?andb_false_r; auto.
Qed.

Lemma checkUndefined_frame p text st :
  patch (checkUndefined p text st) = patch st
  /\ checks (report (checkUndefined p text st)) = checks (report st)
  /\ filesModified (report (checkUndefined p text st)) = filesModified (report st)
  /\ warnings (report (checkUndefined p text st))
     = warnings (report st)
       ++ (if includes text (js "undefined") && negb (includes text (js "!== undefined"))
           then [p ++ js ": May have undefined references"] else []).
Proof.
  unfold checkUndefined.
  destruct (includes text (js "undefined") && negb (includes text (js "!== undefined")));
    cbn; rewrite ?app_nil_r; auto.
Qed.

Lemma verifyEntry_frame entry st st' :
  verifyEntry entry st = Return st' ->
  patch st' = patch st
  /\ validSyntax (checks (report st')) = validSyntax (checks (report st))
  /\ importsResolved (checks (report st')) = importsResolved (checks (report st))
  /\ noEmptyFunctions (checks (report st'))
     = noEmptyFunctions (checks (report st)) && negb (hasEmptyFunction (snd entry))
  /\ noTODOComments (checks (report st'))
     = noTODOComments (checks (report st)) && negb (hasTODO (snd entry)).
Proof.
  unfold verifyEntry. destruct (snd entry) as [| | | text | |]; try discriminate.
  intros [= <-].
  destruct (checkUndefined_frame (fst entry) text
              (checkTODOComments (fst entry) text
                 (checkEmptyFunctions (fst entry) text st))) as (Hp & Hc & _ & _).
  destruct (checkTODOComments_frame (fst entry) text
              (checkEmptyFunctions (fst entry) text st)) as (Hp2 & Hv2 & Hi2 & He2 & Ht2).
  destruct (checkEmptyFunctions_frame (fst entry) text st) as (Hp1 & Hv1 & Hi1 & Ht1 & He1).
  rewrite Hp, Hc, Hp2, Hv2, Hi2, He2, Ht2, Hp1, Hv1, Hi1, Ht1, He1.
  cbn [hasEmptyFunction]. auto.
Qed.

Lemma verifyLoop_frame entries : forall st,
  patch (fst (verifyLoop entries st)) = patch st
  /\ validSyntax (checks (report (fst (verifyLoop entries st))))
     = validSyntax (checks (report st))
  /\ importsResolved (checks (report (fst (verifyLoop entries st))))
     = importsResolved (checks (report st)).
Proof.
  induction entries as [| entry rest IH]; intros st; cbn [verifyLoop]; [auto |].
  destruct (verifyEntry entry st) as [st' | e] eqn:He; [| auto].
  destruct (verifyEntry_frame _ _ _ He) as (Hp & Hv & Hi & _).
  destruct (IH st') as (Hp' & Hv' & Hi').
  rewrite Hp', Hv', Hi'. auto.
Qed.

Lemma verifyLoop_checks entries : forall st,
  snd (verifyLoop entries st) = None ->
  noEmptyFunctions (checks (report (fst (verifyLoop entries st))))
  = noEmptyFunctions (checks (report st))
    && forallb (fun e => negb (hasEmptyFunction (snd e))) entries
  /\ noTODOComments (checks (report (fst (verifyLoop entries st))))
     = noTODOComments (checks (report st))
       && forallb (fun e => negb (hasTODO (snd e))) entries.
Proof.
  induction entries as [| entry rest IH]; intros st; cbn [verifyLoop forallb].
  - rewrite !andb_true_r. auto.
  - destruct (verifyEntry entry st) as [st' | e] eqn:He; [| discriminate].
    intros Hnone. destruct (IH st' Hnone) as (H1 & H2).
    destruct (verifyEntry_frame _ _ _ He) as (_ & _ & _ & He' & Ht').
    rewrite H1, H2, He', Ht', !andb_assoc. auto.
Qed.

Lemma verifyLoop_total entries : forall st,
  forallb (fun e => isString (snd e)) entries = true ->
  snd (verifyLoop entries st) = None.
Proof.
  induction entries as [| entry rest IH]; intros st; cbn [verifyLoop forallb]; [auto |].
  intros [Hs Hrest]%andb_prop. unfold verifyEntry.
  destruct (snd entry); try discriminate. now apply IH.
Qed.

(** C10. For every patch, [verifyFixes] leaves the patch object as it found
    it; a report it returns has [validSyntax] and [importsResolved] true,
    and [noEmptyFunctions] and [noTODOComments] decided by the
    empty-function and TODO/FIXME tests alone; the check for [undefined]
    changes no check and no counter and appends at most its one warning;
    and a report is returned whenever every content of the patch is a
    string. *)
Theorem C10_verifyFixes_report (fixedFiles : json) :
  fst (verifyFixes fixedFiles) = fixedFiles
  /\ (forall v, snd (verifyFixes fixedFiles) = Return v ->
        validSyntax (checks v) = true
        /\ importsResolved (checks v) = true
        /\ noEmptyFunctions (checks v)
           = forallb (fun e => negb (hasEmptyFunction (snd e))) (Object_entries fixedFiles)
        /\ noTODOComments (checks v)
           = forallb (fun e => negb (hasTODO (snd e))) (Object_entries fixedFiles)
        /\ filesModified v = length (Object_keys fixedFiles))
  /\ (forall p text st,
        patch (checkUndefined p text st) = patch st
        /\ checks (report (checkUndefined p text st)) = checks (report st)
        /\ filesModified (report (checkUndefined p text st)) = filesModified (report st)
        /\ warnings (report (checkUndefined p text st))
           = warnings (report st)
             ++ (if includes text (js "undefined")
                    && negb (includes text (js "!== undefined"))
                 then [p ++ js ": May have undefined references"] else []))
  /\ (fixedFiles <> JNull ->
      forallb (fun e => isString (snd e)) (Object_entries fixedFiles) = true ->
      exists v, snd (verifyFixes fixedFiles) = Return v).
Proof.
  split; [| split; [| split]].
  - unfold verifyFixes. destruct fixedFiles; cbn [fst]; try reflexivity;
      match goal with
      | |- context [verifyLoop ?es ?st] =>
          destruct (verifyLoop_frame es st) as (Hp & _);
          destruct (verifyLoop es st) as [st' [e |]]; cbn [fst] in *; exact Hp
      end.
  - intros v. unfold verifyFixes.
    destruct fixedFiles; cbn [snd]; try discriminate;
      match goal with
      | |- context [verifyLoop ?es ?st] =>
          destruct (verifyLoop_frame es st) as (_ & Hv & Hi);
          pose proof (verifyLoop_checks es st) as Hc;
          assert (Hm : filesModified (report (fst (verifyLoop es st)))
                       = filesModified (report st));
          [ clear; generalize st; induction es as [| en rest IH]; intros s0;
            cbn [verifyLoop]; [reflexivity |];
            destruct (verifyEntry en s0) as [s1 | e1] eqn:He1; [| reflexivity];
            rewrite IH; unfold verifyEntry in He1;
            destruct (snd en); try discriminate; injection He1 as <-;
            unfold checkUndefined, checkTODOComments, checkEmptyFunctions;
            repeat match goal with |- context [if ?b then _ else _] => destruct b end;
            reflexivity
          | destruct (verifyLoop es st) as [st' [e |]]; cbn [fst snd] in *;
            [discriminate |];
            intros [= <-]; destruct (Hc eq_refl) as (H1 & H2);
            rewrite Hv, Hi, H1, H2, Hm; cbn; auto ]
      end.
  - intros p text st. apply checkUndefined_frame.
  - intros Hnull Hall. unfold verifyFixes.
    destruct fixedFiles; try congruence;
      match goal with
      | |- context [verifyLoop ?es ?st] =>
          pose proof (verifyLoop_total es st Hall) as Ht;
          destruct (verifyLoop es st) as [st' [e |]]; cbn [snd] in *;
          [discriminate | eexists; reflexivity]
      end.
Qed.

(** A patch with an empty function, a TODO comment and an unguarded
    [undefined]: both booleans stay true, the report has three warnings. *)
Lemma C10_verifyFixes_report_witness :
  let fixedFiles :=
    JObj [(js "/src/App.tsx", JStr (js "function App() {} // TODO undefined"))] in
  fst (verifyFixes fixedFiles) = fixedFiles
  /\ exists v, snd (verifyFixes fixedFiles) = Return v
       /\ validSyntax (checks v) = true /\ importsResolved (checks v) = true
       /\ noEmptyFunctions (checks v) = false /\ length (warnings v) = 3.
Proof.
  intros fixedFiles.
  destruct (C10_verifyFixes_report fixedFiles) as (Hp & Hflags & _ & Htotal).
  split; [exact Hp |].
  destruct Htotal as [v Hv]; [discriminate | reflexivity |].
  exists v. split; [exact Hv |].
  destruct (Hflags v Hv) as (H1 & H2 & _).
  split; [exact H1 | split; [exact H2 |]].
  vm_compute in Hv. injection Hv as <-. split; reflexivity.
Defined.

(** ** The merge of the fixed files *)

Lemma lookup_map {A B} (g : A -> B) (l : list A) (i : nat) :
  map g l !! i = g <$> (l !! i).
Proof.
  revert i. induction l as [| x l IH]; intros [| i]; cbn; auto.
Qed.

Lemma updatedFiles_lookup files fixedFiles (i : nat) (f : GeneratedFile) :
  files !! i = Some f ->
  updatedFiles files fixedFiles !! i = Some (updateFile fixedFiles f).
Proof.
  intros Hf. unfold updatedFiles.
  rewrite lookup_app_l.
  - rewrite lookup_map, Hf. reflexivity.
  - rewrite length_map. eapply lookup_lt_Some, Hf.
Qed.

Lemma updateFile_path fixedFiles f : path (updateFile fixedFiles f) = path f.
Proof. unfold updateFile. now destruct (truthy _). Qed.

Lemma updateFile_untouched fixedFiles f :
  truthy (getProp fixedFiles (path f)) = false ->
  truthy (getProp fixedFiles (js "/" ++ path f)) = false ->
  updateFile fixedFiles f = f.
Proof.
  intros H1 H2. unfold updateFile, or_. rewrite H1, H2. reflexivity.
Qed.

Lemma updateFile_own fixedFiles f :
  truthy (getProp fixedFiles (path f)) = true ->
  content (updateFile fixedFiles f) = getProp fixedFiles (path f).
Proof.
  intros H1. unfold updateFile, or_. rewrite H1, H1. reflexivity.
Qed.

Lemma updateFile_slash fixedFiles f :
  truthy (getProp fixedFiles (path f)) = false ->
  truthy (getProp fixedFiles (js "/" ++ path f)) = true ->
  content (updateFile fixedFiles f) = getProp fixedFiles (js "/" ++ path f).
Proof.
  intros H1 H2. unfold updateFile, or_. rewrite H1, H2. reflexivity.
Qed.

Lemma addedFiles_filter files fixedFiles :
  addedFiles files fixedFiles
  = map (fun entry => {| path := fst entry; content := J (snd entry) |})
        (List.filter (fun entry => negb (fileExists files (fst entry))) fixedFiles).
Proof.
  unfold addedFiles.
  induction fixedFiles as [| entry rest IH]; [reflexivity |].
  cbn [flat_map List.filter]. rewrite IH.
  now destruct (fileExists files (fst entry)).
Qed.

(** C9, as amended. The merge keeps every file at its index and under its
    path. A file takes the patch content stored under its own path when
    that content is truthy, else the one stored under its path with a
    leading slash when that is truthy, and is left identical when neither
    is. The patch entries whose path is no file's path, with or without the
    leading slash, are appended in the order of the patch, and nothing else
    is. *)
Theorem C9_merge_by_path_or_slash_path files (fixedFiles : list (jsstring * json)) :
  (forall (i : nat) f, files !! i = Some f ->
     exists f', updatedFiles files fixedFiles !! i = Some f'
       /\ path f' = path f
       /\ (truthy (getProp fixedFiles (path f)) = true ->
           content f' = getProp fixedFiles (path f))
       /\ (truthy (getProp fixedFiles (path f)) = false ->
           truthy (getProp fixedFiles (js "/" ++ path f)) = true ->
           content f' = getProp fixedFiles (js "/" ++ path f))
       /\ (truthy (getProp fixedFiles (path f)) = false ->
           truthy (getProp fixedFiles (js "/" ++ path f)) = false ->
           f' = f))
  /\ drop (length files) (updatedFiles files fixedFiles)
     = map (fun entry => {| path := fst entry; content := J (snd entry) |})
           (List.filter (fun entry => negb (fileExists files (fst entry))) fixedFiles).
Proof.
  split.
  - intros i f Hf. exists (updateFile fixedFiles f).
    split; [now apply updatedFiles_lookup |].
    split; [apply updateFile_path |].
    split; [apply updateFile_own |].
    split; [apply updateFile_slash | apply updateFile_untouched].
  - unfold updatedFiles.
    rewrite drop_app_length'; [apply addedFiles_filter | now rewrite length_map].
Qed.

(** C9 as stated fails on both counts. The patch has no entry for
    [src/App.tsx], yet that file is rewritten, from the entry for
    [/src/App.tsx], which is not inserted as a path of its own; and the
    patch has an entry for [b.css], whose empty content does not overwrite
    the file. *)
Lemma C9_counterexample :
  let files :=
    [{| path := js "src/App.tsx"; content := J (JStr (js "old")) |};
     {| path := js "b.css"; content := J (JStr (js "keep")) |}] in
  let fixedFiles :=
    [(js "/src/App.tsx", JStr (js "new")); (js "b.css", JStr [])] in
  (getOwn (js "src/App.tsx") fixedFiles = None
   /\ contentAt files (js "src/App.tsx") = Some (J (JStr (js "old")))
   /\ contentAt (updatedFiles files fixedFiles) (js "src/App.tsx")
      = Some (J (JStr (js "new"))))
  /\ contentAt (updatedFiles files fixedFiles) (js "/src/App.tsx") = None
  /\ (getOwn (js "b.css") fixedFiles = Some (JStr [])
      /\ contentAt (updatedFiles files fixedFiles) (js "b.css")
         = Some (J (JStr (js "keep")))).
Proof. vm_compute. repeat split. Qed.

(** ** The pipeline on an answer that cannot be parsed *)

Lemma includes_false_inv (sub s : jsstring) :
  includes s sub = false ->
  startsWith s sub = false
  /\ match s with [] => True | _ :: s' => includes s' sub = false end.
Proof.
  destruct s as [| c s']; cbn [includes]; intros H%orb_false_iff; tauto.
Qed.

Lemma stripLit_startsWith (l s : jsstring) :
  startsWith s l = false -> stripLit (fun c => c) l s = None.
Proof.
  revert s. induction l as [| a l IH]; intros [| b s]; cbn; try discriminate; auto.
  destruct (a =? b)%N; cbn; [| reflexivity].
  intros H. now rewrite IH.
Qed.

Lemma exec_at_Lit_None (l : jsstring) (r : list atom) (s : jsstring) :
  startsWith s l = false -> exec_at (Lit l :: r) s = None.
Proof. intros H. cbn [exec_at]. now rewrite stripLit_startsWith. Qed.

(** An expression that starts with a literal finds nothing in a text that
    does not contain the literal. *)
Lemma execAll_Lit_absent (l : jsstring) (r : list atom) (s : jsstring) :
  includes s l = false -> forall skip, execAll (Lit l :: r) skip s = [].
Proof.
  induction s as [| c s IH]; intros Hinc skip.
  - destruct skip; cbn [execAll]; [| reflexivity].
    rewrite exec_at_Lit_None; [reflexivity | now apply includes_false_inv].
  - destruct (includes_false_inv _ _ Hinc) as [Hs Hrest].
    destruct skip; cbn [execAll]; [| now apply IH].
    rewrite exec_at_Lit_None by exact Hs. now apply IH.
Qed.


Lemma analyzeFiles_strings errorFilePath files : forall analysis,
  Forall (fun f => isStringValue (content f) = true) files ->
  exists analysis', analyzeFiles errorFilePath files analysis = Return analysis'.
Proof.
  induction files as [| f rest IH]; intros analysis Hall; cbn [analyzeFiles].
  - eauto.
  - inversion Hall as [| ? ? Hf Hrest]; subst.
    unfold analyzeFile. destruct (content f) as [| [| | | text | |] |]; try discriminate.
    now apply IH.
Qed.

Lemma analyzeCodebase_strings files error :
  Forall (fun f => isStringValue (content f) = true) files ->
  exists codebaseContext, analyzeCodebase files error = Return codebaseContext.
Proof.
  intros Hall. unfold analyzeCodebase.
  destruct (analyzeFiles_strings (extractFileFromError error) files
              {| totalFiles := length files; affectedFiles := []; dependencies := [];
                 imports := []; relatedFiles := [] |} Hall) as [a Ha].
  rewrite Ha. eauto.
Qed.

Lemma processRecords_app r1 : forall r2 finalResult seen,
  processRecords (r1 ++ r2) finalResult seen
  = match processRecords r1 finalResult seen with
    | (seen', Return finalResult') => processRecords r2 finalResult' seen'
    | (seen', Throw e) => (seen', Throw e)
    end.
Proof.
  induction r1 as [| [u | s f e | err] r1 IH]; intros r2 finalResult seen; cbn; auto.
Qed.

(** Without a stop, the loop sees the records as if they came in one chunk. *)
Lemma readLoop_chunks files ts chunks : forall finalResult seen,
  readLoop files false (map Chunk chunks) finalResult ts seen
  = match processRecords (concat chunks) finalResult seen with
    | (seen', Return finalResult') => applyFinalResult files false finalResult' ts seen'
    | (seen', Throw e) => caught e ts seen' false
    end.
Proof.
  induction chunks as [| records chunks IH]; intros finalResult seen.
  - reflexivity.
  - cbn [map readLoop concat]. rewrite processRecords_app.
    destruct (processRecords records finalResult seen) as [seen' [finalResult' | e]];
      [apply IH | reflexivity].
Qed.

Lemma processRecords_progress us : forall finalResult seen,
  processRecords (map Progress us) finalResult seen = (seen ++ us, Return finalResult).
Proof.
  induction us as [| u us IH]; intros finalResult seen; cbn.
  - now rewrite app_nil_r.
  - rewrite IH, <- app_assoc. reflexivity.
Qed.







(** ** A failing analysis call *)

(** C2, as amended. [reasonAboutErrorFix] never throws: when its model call
    fails, or when the answer cannot be parsed, it returns the fallback
    analysis, which names the strategy manual_review and keeps the message
    of the error under [error]. The session therefore never fails in the
    analyzing stage: whatever the analysis call does, the service goes on to
    send reasoning_complete, with that analysis attached, and
    codebase_analysis, and the result it returns carries the analysis. The
    call is made once. *)
Theorem C2_analysis_failure_is_absorbed
    (error : jsstring) (files : list GeneratedFile) (analysisCall fixCall : OracleOutcome) :
  (forall e, ReasoningService.reasonAboutErrorFix error (Fails e)
             = ReasoningService.fallbackAnalysis error e)
  /\ (forall text,
        match ReasoningService.parseReasoningResponse text with
        | Throw e => ReasoningService.reasonAboutErrorFix error (Streams text)
                     = ReasoningService.fallbackAnalysis error e
        | Return analysis => ReasoningService.reasonAboutErrorFix error (Streams text)
                             = analysis
        end)
  /\ (forall e,
        getField (ReasoningService.fallbackAnalysis error e) (js "error")
        = Return (J (JStr (errMessage e))))
  /\ (exists u1 u2 u3 rest,
        fst (fixWithReasoning error files analysisCall fixCall) = u1 :: u2 :: u3 :: rest
        /\ stage u1 = Stage.analyzing
        /\ stage u2 = Stage.reasoning_complete
        /\ reasoning u2 = Some (ReasoningService.reasonAboutErrorFix error analysisCall)
        /\ stage u3 = Stage.codebase_analysis)
  /\ match snd (fixWithReasoning error files analysisCall fixCall) with
     | FixSuccess _ _ r _ _ _ => r = ReasoningService.reasonAboutErrorFix error analysisCall
     | FixFailure _ r => r = Some (ReasoningService.reasonAboutErrorFix error analysisCall)
     end.
Proof.
  split; [reflexivity |].
  split.
  { intros text. unfold ReasoningService.reasonAboutErrorFix.
    now destruct (ReasoningService.parseReasoningResponse text). }
  split; [reflexivity |].
  unfold fixWithReasoning.
  destruct (analyzeCodebase files error) as [ctx | e1];
    [| split; [do 4 eexists; split; [reflexivity | repeat split] | reflexivity]].
  destruct (generateSmartFixes fixCall) as [[fixesFiles fixesExplanation] | e2];
    [| split; [do 4 eexists; split; [reflexivity | repeat split] | reflexivity]].
  destruct (snd (verifyFixes fixesFiles)) as [v | e3];
    split; try reflexivity; do 4 eexists; (split; [reflexivity | repeat split]).
Qed.

(** C2 as stated fails: with an analysis call that dies of a network error,
    and with one whose answer holds no JSON, the session runs through all
    six stages and the fix is applied. *)
Lemma C2_counterexample :
  let files := [{| path := js "/src/App.tsx"; content := J (JStr (js "export default 0")) |}] in
  let error := js "Compilation Error: Unexpected token" in
  let fixCall :=
    Streams (js "{" ++ quoted "explanation" ++ js ": " ++ quoted "fixed" ++ js ", "
             ++ quoted "files" ++ js ": {" ++ quoted "/src/App.tsx" ++ js ": "
             ++ quoted "export default 1" ++ js "}}") in
  let fixed := [{| path := js "/src/App.tsx"; content := J (JStr (js "export default 1")) |}] in
  let allStages := [Stage.analyzing; Stage.reasoning_complete; Stage.codebase_analysis;
                    Stage.generating_fix; Stage.verifying; Stage.complete] in
  let networkError := fixError error files (Fails (Error (js "fetch failed"))) fixCall in
  let malformed := fixError error files (Streams (js "I cannot analyze this.")) fixCall in
  (stagesOf (recordsOf networkError) = allStages
   /\ exit (handleSandboxError files false true (delivered networkError)) = Applied fixed
   /\ terminal (handleSandboxError files false true (delivered networkError))
      <> Some Failed)
  /\ (stagesOf (recordsOf malformed) = allStages
      /\ exit (handleSandboxError files false true (delivered malformed)) = Applied fixed
      /\ terminal (handleSandboxError files false true (delivered malformed))
         <> Some Failed).
Proof.
  cbn zeta. split; (split; [vm_compute; reflexivity |]);
    (split; [vm_compute; reflexivity | vm_compute; discriminate]).
Qed.

(** ** The gate of the listener *)

Lemma listener_fault now m st :
  isFault m = true ->
  listener now m st = gate now (fst (observe m)) (snd (observe m)) st.
Proof. destruct m as [[|] | | | |]; try reflexivity; discriminate. Qed.

Lemma listener_no_fault now m st :
  isFault m = false -> m <> Done false -> listener now m st = (st, None).
Proof.
  intros Hf Hm.
  assert (He : isEmpty (snd (observe m)) = true).
  { destruct m as [[|] | | | |]; cbn [isFault] in Hf; try congruence;
      now apply negb_false_iff in Hf. }
  destruct m as [[|] | | | |]; try congruence; cbn [listener]; unfold gate; now rewrite He.
Qed.

Lemma errorHashOf_nonempty ty msg : errorHashOf ty msg <> [].
Proof. unfold errorHashOf. cbn. now destruct ty. Qed.

Lemma isFault_nonempty m : isFault m = true -> isEmpty (snd (observe m)) = false.
Proof.
  destruct m as [[|] | | | |]; cbn [isFault]; try discriminate;
    intros H; now apply negb_true_iff in H.
Qed.

Lemma gate_spec now ty msg st :
  isEmpty msg = false ->
  gate now ty msg st
  = if passes now (errorHashOf ty msg) st
    then (afterAccept now (errorHashOf ty msg) st,
          Some {| startedError := ty ++ js ": " ++ msg;
                  startedHash := errorHashOf ty msg;
                  startedMount := mount st |})
    else (st, None).
Proof.
  intros He. unfold gate, passes. rewrite He.
  destruct (heldCooldown st); [reflexivity |].
  destruct (bool_decide _); [reflexivity |].
  destruct (eqb _ _); [reflexivity |]. cbn [negb andb].
  destruct (Z.ltb_spec (now - heldSuccessTime st) 2000) as [Hlt | Hge];
    destruct (Z.leb_spec 2000 (now - heldSuccessTime st)); try lia; reflexivity.
Qed.

(** A timer that fires changes nothing of what the listener holds. *)
Lemma passes_fireTimers now t h st : passes now h (fireTimers t st) = passes now h st.
Proof. reflexivity. Qed.

Lemma accepts_spec now m st :
  isFault m = true ->
  accepts now m st = passes now (hashOf m) st.
Proof.
  intros Hf. unfold accepts, step. cbn [fst snd].
  rewrite listener_fault by exact Hf.
  rewrite gate_spec by now apply isFault_nonempty. fold (hashOf m).
  rewrite passes_fireTimers.
  now destruct (passes now (hashOf m) st).
Qed.

Lemma accepts_fault now m st : accepts now m st = true -> isFault m = true.
Proof.
  intros Ha. destruct (isFault m) eqn:Hf; [reflexivity |].
  unfold accepts, step in Ha. cbn [fst snd] in Ha.
  assert (Hm : m = Done false \/ m <> Done false)
    by (destruct m as [[|] | | | |]; auto; right; discriminate).
  destruct Hm as [-> | Hm]; [discriminate |].
  now rewrite listener_no_fault in Ha.
Qed.

(** The state after a fault has passed the gate, and the repair started. *)
Lemma step_accepted now m st :
  accepts now m st = true ->
  step st (now, Message m)
  = (afterAccept now (hashOf m) (fireTimers now st),
     Some {| startedError := fst (observe m) ++ js ": " ++ snd (observe m);
             startedHash := hashOf m; startedMount := mount st |}).
Proof.
  intros Ha. pose proof (accepts_fault _ _ _ Ha) as Hf.
  rewrite accepts_spec in Ha by exact Hf.
  unfold step. cbn [fst snd]. rewrite listener_fault by exact Hf.
  rewrite gate_spec by now apply isFault_nonempty. fold (hashOf m).
  rewrite passes_fireTimers, Ha. reflexivity.
Qed.

Lemma step_rejected now m st :
  m <> Done false -> accepts now m st = false ->
  step st (now, Message m) = (fireTimers now st, None).
Proof.
  intros Hm Ha. unfold step. cbn [fst snd].
  destruct (isFault m) eqn:Hf.
  - rewrite accepts_spec in Ha by exact Hf.
    rewrite listener_fault by exact Hf.
    rewrite gate_spec by now apply isFault_nonempty. fold (hashOf m).
    now rewrite passes_fireTimers, Ha.
  - now apply listener_no_fault.
Qed.

(** While the listener holds a cooldown, no message starts a repair. *)
Lemma held_cooldown_rejects now m st : heldCooldown st = true -> accepts now m st = false.
Proof.
  intros Hc. destruct (accepts now m st) eqn:Ha; [| reflexivity].
  pose proof (accepts_fault _ _ _ Ha) as Hf.
  rewrite accepts_spec in Ha by exact Hf. unfold passes in Ha. now rewrite Hc in Ha.
Qed.

(** ** After a successful build *)




(** ** The grace window *)

Lemma clearLastErrorHash_fields st :
  lastErrorHash (clearLastErrorHash st) = []
  /\ fixedErrors (clearLastErrorHash st) = fixedErrors st
  /\ errorCooldown (clearLastErrorHash st) = errorCooldown st
  /\ lastSuccessTime (clearLastErrorHash st) = lastSuccessTime st
  /\ timers (clearLastErrorHash st) = timers st
  /\ fileCount (clearLastErrorHash st) = fileCount st
  /\ mount (clearLastErrorHash st) = mount st.
Proof. unfold clearLastErrorHash. now destruct (isEmpty (lastErrorHash st)). Qed.

(** What the listener holds after [setLastErrorHash('')]: what it held, or
    the current state. *)
Lemma clearLastErrorHash_held st :
  (heldFixedErrors (clearLastErrorHash st) = heldFixedErrors st
   /\ heldCooldown (clearLastErrorHash st) = heldCooldown st
   /\ heldSuccessTime (clearLastErrorHash st) = heldSuccessTime st)
  \/ (lastErrorHash st <> []
      /\ heldFixedErrors (clearLastErrorHash st) = fixedErrors st
      /\ heldCooldown (clearLastErrorHash st) = errorCooldown st
      /\ heldSuccessTime (clearLastErrorHash st) = lastSuccessTime st).
Proof.
  unfold clearLastErrorHash. destruct (lastErrorHash st) eqn:Hh; cbn [isEmpty].
  - left. auto.
  - right. repeat split. discriminate.
Qed.

Lemma filesChange_same n st : n = fileCount st -> filesChange n st = st.
Proof. intros ->. unfold filesChange. now rewrite Nat.eqb_refl. Qed.

Lemma step_within_grace (T : Z) (st : Monitor) (ev : Z * Event) :
  (T <= lastSuccessTime st)%Z -> (T <= heldSuccessTime st)%Z ->
  (T <= fst ev < T + 2000)%Z -> keepsFiles (fileCount st) (snd ev) ->
  snd (step st ev) = None
  /\ (T <= lastSuccessTime (fst (step st ev)))%Z
  /\ (T <= heldSuccessTime (fst (step st ev)))%Z
  /\ fileCount (fst (step st ev)) = fileCount st.
Proof.
  destruct ev as [now [m | s x | | k]]; cbn [fst snd]; intros Hlst Hheld Hnow Hkeep.
  - assert (Hm : m = Done false \/ m <> Done false)
      by (destruct m as [[|] | | | |]; auto; right; discriminate).
    destruct Hm as [-> | Hm]; [cbn; repeat split; (reflexivity || lia || assumption) |].
    destruct (accepts now m st) eqn:Ha.
    + exfalso. pose proof (accepts_fault _ _ _ Ha) as Hf.
      rewrite accepts_spec in Ha by exact Hf. unfold passes in Ha.
      apply andb_prop in Ha as [_ Ha]. apply Z.leb_le in Ha. lia.
    + rewrite step_rejected by assumption. cbn. auto.
  - unfold step. cbn [fst snd]. split; [reflexivity |].
    set (st' := fireTimers now st).
    assert (Hl' : (T <= lastSuccessTime st')%Z) by exact Hlst.
    assert (Hh' : (T <= heldSuccessTime st')%Z) by exact Hheld.
    assert (Hc' : fileCount st' = fileCount st) by reflexivity.
    clearbody st'.
    assert (Happlied : (T <= lastSuccessTime (fixApplied now st'))%Z
                       /\ (T <= heldSuccessTime (fixApplied now st'))%Z
                       /\ fileCount (fixApplied now st') = fileCount st).
    { unfold fixApplied.
      match goal with |- context [clearLastErrorHash ?u] =>
        destruct (clearLastErrorHash_fields u) as (_ & _ & _ & -> & _ & -> & _);
        destruct (clearLastErrorHash_held u) as [(_ & _ & ->) | (_ & _ & _ & ->)]
      end; cbn; repeat split; (lia || assumption). }
    assert (Hfailed : (T <= lastSuccessTime (fixFailedState (startedHash s) st'))%Z
                      /\ (T <= heldSuccessTime (fixFailedState (startedHash s) st'))%Z
                      /\ fileCount (fixFailedState (startedHash s) st') = fileCount st).
    { unfold fixFailedState.
      match goal with |- context [clearLastErrorHash ?u] =>
        destruct (clearLastErrorHash_fields u) as (_ & _ & _ & -> & _ & -> & _);
        destruct (clearLastErrorHash_held u) as [(_ & _ & ->) | (_ & _ & _ & ->)]
      end; cbn; repeat split; (lia || assumption). }
    unfold sessionExit.
    destruct x as [| updated | handed | | | e]; cbn [keepsFiles] in Hkeep;
      try (repeat split; assumption);
      destruct (startedMount s =? mount st')%nat;
      try rewrite filesChange_same; try tauto; try (repeat split; assumption);
      try (destruct Happlied as (_ & _ & ->); now symmetry);
      try (rewrite Hc'; now symmetry).
  - cbn. auto.
  - cbn [keepsFiles] in Hkeep. subst k. unfold step. cbn [fst snd].
    rewrite filesChange_same by reflexivity. cbn. auto.
Qed.

(** While the component stays mounted, nothing that happens less than
    2000 ms after a successful build starts a repair. *)
Lemma run_within_grace (T : Z) (evs : list (Z * Event)) : forall st,
  (T <= lastSuccessTime st)%Z -> (T <= heldSuccessTime st)%Z ->
  Forall (fun ev => (T <= fst ev < T + 2000)%Z /\ keepsFiles (fileCount st) (snd ev)) evs ->
  snd (run st evs) = [].
Proof.
  induction evs as [| ev evs IH]; intros st Hlst Hheld Hall; [reflexivity |].
  inversion Hall as [| ? ? [Hev Hkeep] Hrest]; subst.
  destruct (step_within_grace T st ev Hlst Hheld Hev Hkeep) as (Hnone & Hlst' & Hheld' & Hc).
  cbn [run]. destruct (step st ev) as [st' started]. cbn [fst snd] in *. subst started.
  rewrite <- Hc in Hrest.
  specialize (IH st' Hlst' Hheld' Hrest).
  destruct (run st' evs) as [st'' more]. cbn [snd] in *. exact IH.
Qed.

(** C7 fails on this run. On a project of one file the fault [g] is accepted
    at 10000; the build succeeds at 12000; at 12500 the repair of [g] ends
    and hands over two files, its patch having added one. [ErrorMonitor] is
    rendered under a key that is the number of files, so it is mounted anew,
    with [lastSuccessTime] 0; the fault [f] at 13000, 1000 ms after the
    successful build, is accepted and starts a repair. With a patch that
    adds no file, [f] is suppressed; with a second file that comes from
    elsewhere at 12500, [f] is accepted. The window also rests on the
    provider: a listener that is not subscribed anew when the build
    succeeds holds the [lastSuccessTime] of its render, and accepts [f]. In
    general, when the provider hands out a new [listen] at the success and
    as long as the number of files stays the same, nothing that happens
    less than 2000 ms after the successful build starts a repair. *)
Theorem C7_grace_window_is_lost_on_remount :
  let g := ShowError (js "Unexpected token") [] 12 0 (js "/src/App.tsx") in
  let f := ShowError (js "x is not defined") [] 3 0 (js "/src/main.tsx") in
  let sg := {| startedError := js "Compilation Error: "
                               ++ snd (observe g);
               startedHash := hashOf g; startedMount := 0 |} in
  let before := buildSucceeded 12000 (accepted 10000 g initial) in
  snd (step initial (10000%Z, Message g)) = Some sg
  /\ length filesBeforeStop = fileCount initial
  /\ length withTestFile = 2%nat
  /\ lastSuccessTime before = 12000%Z
  /\ mount (fst (step before (12500%Z, SessionEnds sg (Applied withTestFile)))) = 1%nat
  /\ lastSuccessTime (fst (step before (12500%Z, SessionEnds sg (Applied withTestFile))))
     = 0%Z
  /\ map startedHash
       (snd (run before [(12500%Z, SessionEnds sg (Applied withTestFile));
                         (13000%Z, Message f)]))
     = [hashOf f]
  /\ snd (run before [(12500%Z, SessionEnds sg (Applied withoutTestFile));
                      (13000%Z, Message f)])
     = []
  /\ map startedHash (snd (run before [(12500%Z, Renders 2); (13000%Z, Message f)]))
     = [hashOf f]
  /\ map startedHash
       (snd (run initial [(12000%Z, Message (Done false)); (13000%Z, Message f)]))
     = [hashOf f]
  /\ forall st T evs,
       Forall (fun ev => (T <= fst ev < T + 2000)%Z /\ keepsFiles (fileCount st) (snd ev))
              evs ->
       snd (run (buildSucceeded T st) evs) = [].
Proof.
  cbn zeta. repeat (split; [vm_compute; reflexivity |]).
  intros st T evs Hall.
  apply (run_within_grace T); [cbn; lia | cbn; lia | exact Hall].
Qed.

(** ** A failed repair *)

Lemma in_added (h : jsstring) (s : gset jsstring) : h ∈ s ∪ {[h]}.
Proof. apply elem_of_union_r, elem_of_singleton. reflexivity. Qed.

Lemma not_in_removed (h : jsstring) (s : gset jsstring) : h ∉ s ∖ {[h]}.
Proof. rewrite elem_of_difference, elem_of_singleton. tauto. Qed.

(** No timer is due: the cooldown and the timers stay. *)
Lemma fireTimers_none now st :
  Forall (fun d => (now < d)%Z) (timers st) ->
  errorCooldown (fireTimers now st) = errorCooldown st
  /\ timers (fireTimers now st) = timers st.
Proof.
  intros Ht. unfold fireTimers. cbn [errorCooldown timers].
  assert (He : existsb (fun d => (d <=? now)%Z) (timers st) = false).
  { destruct (existsb _ _) eqn:He; [| reflexivity].
    apply existsb_exists in He as (d & Hin & Hle). apply Z.leb_le in Hle.
    pose proof (proj1 (List.Forall_forall _ _) Ht d Hin) as Hd. cbn beta in Hd. lia. }
  rewrite He. cbn [negb]. rewrite andb_true_r. split; [reflexivity |].
  induction (timers st) as [| d l IHl]; [reflexivity |].
  inversion Ht; subst. cbn [List.filter existsb] in *.
  destruct (Z.leb_spec d now); [lia |]. cbn [negb orb] in *. f_equal. now apply IHl.
Qed.

(** The timers left after those due at [now] have fired. *)
Lemma fireTimers_left now st :
  Forall (fun d => (now < d)%Z) (timers (fireTimers now st)).
Proof.
  apply List.Forall_forall. intros d Hin. cbn [fireTimers timers] in Hin.
  apply filter_In in Hin as [_ Hd]. apply negb_true_iff, Z.leb_gt in Hd. exact Hd.
Qed.

(** While the listener holds a cooldown, faults start no repair and leave
    what it holds as it is. *)
Lemma run_held_cooldown (faults : list (Z * SandpackMessage)) : forall st,
  heldCooldown st = true ->
  Forall (fun tm => snd tm <> Done false) faults ->
  snd (run st (map faultAt faults)) = []
  /\ heldCooldown (fst (run st (map faultAt faults))) = true.
Proof.
  induction faults as [| [now m] faults IH]; intros st Hc Hall; [cbn; auto |].
  inversion Hall as [| ? ? Hm Hrest]; subst. cbn [snd] in Hm.
  cbn [map run]. change (faultAt (now, m)) with (now, Message m).
  rewrite step_rejected by (try assumption; now apply held_cooldown_rejects).
  destruct (IH (fireTimers now st) Hc Hrest) as [Hnone Hc'].
  destruct (run (fireTimers now st) (map faultAt faults)) as [st'' more].
  cbn [fst snd] in *. auto.
Qed.

(** C6 fails in the code. A fault is accepted at [t1] and its repair ends in
    the catch block at [te], before the 5000 ms of the cooldown are over
    and with no other timer due in between. The catch block removes the
    fingerprint from [fixedErrors] and clears [lastErrorHash], and once the
    timer has fired [errorCooldown] is false: the state allows the retry.
    But clearing [lastErrorHash] subscribed a listener that holds the
    [errorCooldown] of that render, true, and the timer changes no
    dependency of the effect: no fault that arrives afterwards, at any
    time, identical or not, starts a repair, until something else
    subscribes the listener anew. A call that ends for missing API
    settings, or with nothing to apply, does not remove the fingerprint. *)
Theorem C6_failed_repair_is_not_retried
    (st : Monitor) (m : SandpackMessage) (e : JSError) (t1 te : Z)
    (faults : list (Z * SandpackMessage)) :
  accepts t1 m st = true ->
  (t1 <= te < t1 + 5000)%Z ->
  Forall (fun d => (d <= t1 \/ te < d)%Z) (timers st) ->
  Forall (fun tm => snd tm <> Done false) faults ->
  let st1 := accepted t1 m st in
  let s := {| startedError := fst (observe m) ++ js ": " ++ snd (observe m);
              startedHash := hashOf m; startedMount := mount st |} in
  let st2 := fst (step st1 (te, SessionEnds s (Caught e))) in
  snd (step st (t1, Message m)) = Some s
  /\ (hashOf m ∈ fixedErrors st1)
  /\ (hashOf m ∉ fixedErrors st2)
  /\ lastErrorHash st2 = []
  /\ (forall t2, (t1 + 5000 <= t2)%Z -> errorCooldown (fireTimers t2 st2) = false)
  /\ snd (run st2 (map faultAt faults)) = []
  /\ (hashOf m ∈ fixedErrors (fst (step st1 (te, SessionEnds s NoApiSettings))))
  /\ (hashOf m ∈ fixedErrors (fst (step st1 (te, SessionEnds s NotApplied)))).
Proof.
  intros Ha Hte Htimers Hfaults. cbn zeta. unfold accepted.
  rewrite (step_accepted _ _ _ Ha). cbn [fst snd].
  split; [reflexivity |]. split; [apply in_added |].
  set (st1 := afterAccept t1 (hashOf m) (fireTimers t1 st)).
  assert (Hleft : Forall (fun d => (te < d)%Z) (timers st1)).
  { unfold st1. cbn [afterAccept timers]. apply Forall_app. split.
    - apply List.Forall_forall. intros d Hin.
      pose proof (proj1 (List.Forall_forall _ _) (fireTimers_left t1 st) d Hin) as Hd.
      cbn beta in Hd. cbn [fireTimers timers] in Hin. apply filter_In in Hin as [Hin _].
      pose proof (proj1 (List.Forall_forall _ _) Htimers d Hin) as Hd'. cbn beta in Hd'. lia.
    - constructor; [lia | constructor]. }
  destruct (fireTimers_none te st1 Hleft) as [Hcool Htim].
  unfold step. cbn [fst snd]. unfold sessionExit. cbn [startedMount startedHash].
  replace (mount (fireTimers te st1)) with (mount st) by reflexivity.
  rewrite Nat.eqb_refl.
  unfold fixFailedState, clearLastErrorHash.
  replace (lastErrorHash (fireTimers te st1)) with (hashOf m) by reflexivity.
  cbn [lastErrorHash].
  assert (Hne : isEmpty (hashOf m) = false).
  { pose proof (errorHashOf_nonempty (fst (observe m)) (snd (observe m))) as Hh.
    fold (hashOf m) in Hh. now destruct (hashOf m). }
  rewrite Hne.
  cbn [resubscribe fixedErrors lastErrorHash errorCooldown timers lastSuccessTime
       heldCooldown heldFixedErrors heldSuccessTime fileCount mount].
  split; [apply not_in_removed |]. split; [reflexivity |].
  split.
  - intros t2 Ht2. remember (fireTimers te st1) as u.
    cbn [fireTimers resubscribe errorCooldown timers]. rewrite Htim.
    apply andb_false_iff. right. apply negb_false_iff, existsb_exists.
    exists (t1 + 5000)%Z. split; [| apply Z.leb_le; lia].
    unfold st1. cbn [afterAccept timers]. apply in_or_app. right. now left.
  - split.
    + apply run_held_cooldown; [| exact Hfaults]. cbn [heldCooldown]. exact Hcool.
    + split; apply in_added.
Qed.

(** On the component as first mounted: a fault at 10000, its repair failing
    800 ms later, and the same fault at 16000 and at 30000. *)
Lemma C6_failed_repair_is_not_retried_witness :
  let fault := ShowError (js "Unexpected token") [] 12 0 (js "/src/App.tsx") in
  let s := {| startedError := fst (observe fault) ++ js ": " ++ snd (observe fault);
              startedHash := hashOf fault; startedMount := mount initial |} in
  let failed := fst (step (accepted 10000 fault initial)
                          (10800%Z, SessionEnds s (Caught (Error (js "Failed to fix error"))))) in
  (hashOf fault ∉ fixedErrors failed)
  /\ lastErrorHash failed = []
  /\ errorCooldown (fireTimers 16000 failed) = false
  /\ snd (run failed (map faultAt [(16000%Z, fault); (30000%Z, fault)])) = [].
Proof.
  intros fault s failed.
  destruct (C6_failed_repair_is_not_retried initial fault
              (Error (js "Failed to fix error")) 10000 10800
              [(16000%Z, fault); (30000%Z, fault)])
    as (_ & _ & Hout & Hhash & Hcool & Hnone & _).
  - vm_compute; reflexivity.
  - lia.
  - constructor.
  - repeat constructor; discriminate.
  - split; [exact Hout |]. split; [exact Hhash |].
    split; [apply Hcool; lia | exact Hnone].
Defined.

(** ** The cooldown *)

(** C8 fails on this run. A fault [g] is accepted at 10000; the build
    succeeds at 11000, which ends the cooldown but leaves the timer of
    10000 pending; the repair of [g] fails at 11500. A fault [f] is accepted
    at 14000, which begins a cooldown. At 15000 the pending timer of [g]
    ends it; at 15200 the repair of [f] fails, which removes [f] from
    [fixedErrors], clears [lastErrorHash] and so subscribes a listener that
    holds no cooldown. At 15500, 1500 ms after [f] was accepted and with no
    successful build in between, [f] is accepted again. It is so whether or
    not the provider hands out a new [listen] when the build succeeds. *)
Theorem C8_stale_timer_ends_cooldown_early :
  let g := ShowError (js "Unexpected token") [] 12 0 (js "/src/App.tsx") in
  let f := ShowError (js "x is not defined") [] 3 0 (js "/src/main.tsx") in
  let e := Error (js "Failed to fix error") in
  let started m := {| startedError := fst (observe m) ++ js ": " ++ snd (observe m);
                      startedHash := hashOf m; startedMount := 0 |} in
  let before := fst (run initial [(10000%Z, Message g);
                                  (11000%Z, Message (Done false));
                                  (11500%Z, SessionEnds (started g) (Caught e))]) in
  let after := fst (run before [(14000%Z, Message f);
                                (15200%Z, SessionEnds (started f) (Caught e))]) in
  accepts 14000 f before = true
  /\ timers (accepted 14000 f before) = [15000%Z; 19000%Z]
  /\ errorCooldown (accepted 14000 f before) = true
  /\ timers after = [19000%Z]
  /\ errorCooldown after = false
  /\ accepts 15500 f after = true
  /\ snd (run initial [(10000%Z, Message g);
                       (11000%Z, Message (Done false));
                       (11500%Z, SessionEnds (started g) (Caught e));
                       (14000%Z, Message f);
                       (15200%Z, SessionEnds (started f) (Caught e));
                       (15500%Z, Message f)])
     = [started g; started f; started f]
  /\ snd (run initial [(10000%Z, Message g);
                       (11000%Z, Message (Done false));
                       (11000%Z, ListenChanges);
                       (11500%Z, SessionEnds (started g) (Caught e));
                       (14000%Z, Message f);
                       (15200%Z, SessionEnds (started f) (Caught e));
                       (15500%Z, Message f)])
     = [started g; started f; started f].
Proof. cbn zeta. repeat split; vm_compute; reflexivity. Qed.

(** ** Cancellation *)







Lemma chunks_of_progress (records : list SSERecord) (chunks : list (list SSERecord)) :
  forall sent,
  records ++ concat chunks = map Progress sent ->
  exists s1 s2, sent = s1 ++ s2 /\ records = map Progress s1
                /\ concat chunks = map Progress s2.
Proof.
  induction records as [| r records IHr]; intros sent Hsent.
  - exists [], sent. auto.
  - destruct sent as [| u sent]; [discriminate |].
    cbn in Hsent. injection Hsent as -> Hsent.
    destruct (IHr sent Hsent) as (s1 & s2 & -> & -> & Hc).
    exists (u :: s1), s2. auto.
Qed.

(** Stop pressed while a read is pending, after chunks of progress records
    only: the read rejects and the catch block ends the call. *)
Lemma readLoop_stop_clicked files ts chunks rest : forall finalResult seen sent,
  concat chunks = map Progress sent ->
  readLoop files false (map Chunk chunks ++ StopClicked :: rest) finalResult ts seen
  = caught AbortError (ts ++ [ToastInfo (js "Error fixing cancelled")]) (seen ++ sent) true.
Proof.
  induction chunks as [| records chunks IH]; intros finalResult seen sent Hsent.
  - destruct sent; [| discriminate]. cbn. now rewrite app_nil_r.
  - cbn [concat] in Hsent. cbn [map app readLoop].
    destruct (chunks_of_progress _ _ _ Hsent) as (s1 & s2 & -> & -> & Hc).
    rewrite processRecords_progress, (IH _ _ s2 Hc), app_assoc. reflexivity.
Qed.




(** C5: a cancellation is shown to the user as a failure. Whenever Stop is
    pressed while a read of the stream is pending, the call ends in the
    catch block, which shows the error toast of a failed repair; in the
    session where Stop is pressed during the implementation stage the toasts
    are the announcement, the notice of cancellation, and the failure. *)
Theorem C5_cancellation_is_surfaced_as_failure :
  (forall files sent chunks rest,
     concat chunks = map Progress sent ->
     let o := handleSandboxError files false true
                (Responded true (map Chunk chunks ++ StopClicked :: rest)) in
     terminal o = Some Aborted
     /\ exit o = Caught AbortError
     /\ surfacedAsFailure o = true)
  /\ let o := handleSandboxError filesBeforeStop false true stopDuringImplementingFix in
     toasts o
     = [ToastInfo (js "AI is analyzing and fixing the error...");
        ToastInfo (js "Error fixing cancelled");
        ToastError (js "Failed to auto-fix the error")]
     /\ surfacedAsFailure o = true.
Proof.
  split.
  - intros files sent chunks rest Hsent. cbn zeta. unfold handleSandboxError. cbn [negb].
    rewrite (readLoop_stop_clicked _ _ _ _ _ _ sent Hsent). repeat split.
  - cbn zeta. split; vm_compute; reflexivity.
Qed.

(** ** The cooldown without a pending timer *)

(** A fault that was just accepted is not accepted again, at any later
    time, as long as nothing but timers happens in between: it is the fault
    accepted last, and it is in the set of fixed errors. *)
Lemma repeat_is_suppressed (st : Monitor) (m : SandpackMessage) (t1 t2 : Z) :
  accepts t1 m st = true ->
  accepts t2 m (fst (step st (t1, Message m))) = false.
Proof.
  intros Ha. rewrite (step_accepted _ _ _ Ha). cbn [fst].
  now apply held_cooldown_rejects.
Qed.

(** What the listener holds is what the state holds, or less recent: where
    the state has a cooldown and the listener holds one too, nothing short
    of a successful build or a new mount starts a repair before the first
    timer is due. With C8's run this shows that the cooldown fails only
    through a timer left over from an earlier fault. *)
Lemma cooldown_holds (deadline : Z) (evs : list (Z * Event)) : forall st,
  errorCooldown st = true -> heldCooldown st = true ->
  Forall (fun d => (deadline <= d)%Z) (timers st) ->
  Forall (fun ev => (fst ev < deadline)%Z /\ snd ev <> Message (Done false)
                    /\ keepsFiles (fileCount st) (snd ev)) evs ->
  snd (run st evs) = [].
Proof.
  induction evs as [| ev evs IH]; intros st Hc Hh Ht Hall; [reflexivity |].
  inversion Hall as [| ? ? (Hnow & Hnot & Hkeep) Hrest]; subst.
  assert (Hlater : Forall (fun d => (fst ev < d)%Z) (timers st)).
  { apply List.Forall_forall. intros d Hin.
    pose proof (proj1 (List.Forall_forall _ _) Ht d Hin) as Hd. cbn beta in Hd. lia. }
  destruct (fireTimers_none (fst ev) st Hlater) as [Hfc Hft].
  assert (Hstep : snd (step st ev) = None
                  /\ errorCooldown (fst (step st ev)) = true
                  /\ heldCooldown (fst (step st ev)) = true
                  /\ timers (fst (step st ev)) = timers st
                  /\ fileCount (fst (step st ev)) = fileCount st).
  { destruct ev as [now [m | s x | | k]]; cbn [fst snd] in *.
    - assert (Hm : m <> Done false) by congruence.
      rewrite step_rejected by (try assumption; now apply held_cooldown_rejects).
      cbn [fst snd]. rewrite Hfc, Hft. auto.
    - unfold step. cbn [fst snd]. split; [reflexivity |].
      set (st' := fireTimers now st) in *.
      assert (Hh' : heldCooldown st' = true) by exact Hh.
      assert (Hc' : fileCount st' = fileCount st) by reflexivity.
      rewrite Hc in Hfc. clearbody st'.
      assert (Happlied : errorCooldown (fixApplied now st') = true
                         /\ heldCooldown (fixApplied now st') = true
                         /\ timers (fixApplied now st') = timers st
                         /\ fileCount (fixApplied now st') = fileCount st).
      { unfold fixApplied.
        match goal with |- context [clearLastErrorHash ?u] =>
          destruct (clearLastErrorHash_fields u) as (_ & _ & -> & _ & -> & -> & _);
          destruct (clearLastErrorHash_held u) as [(_ & -> & _) | (_ & _ & -> & _)]
        end; cbn; auto. }
      assert (Hfailed : errorCooldown (fixFailedState (startedHash s) st') = true
                        /\ heldCooldown (fixFailedState (startedHash s) st') = true
                        /\ timers (fixFailedState (startedHash s) st') = timers st
                        /\ fileCount (fixFailedState (startedHash s) st') = fileCount st).
      { unfold fixFailedState.
        match goal with |- context [clearLastErrorHash ?u] =>
          destruct (clearLastErrorHash_fields u) as (_ & _ & -> & _ & -> & -> & _);
          destruct (clearLastErrorHash_held u) as [(_ & -> & _) | (_ & _ & -> & _)]
        end; cbn; auto. }
      unfold sessionExit.
      destruct x as [| updated | handed | | | e]; cbn [keepsFiles] in Hkeep;
        try (repeat split; assumption);
        destruct (startedMount s =? mount st')%nat;
        try rewrite filesChange_same; try tauto; try (repeat split; assumption);
        try (destruct Happlied as (_ & _ & _ & ->); now symmetry);
        try (rewrite Hc'; now symmetry).
    - unfold step. cbn [fst snd resubscribe errorCooldown heldCooldown timers fileCount].
      rewrite Hfc, Hft. auto.
    - cbn [keepsFiles] in Hkeep. subst k. unfold step. cbn [fst snd].
      rewrite filesChange_same by reflexivity. rewrite Hfc, Hft. auto. }
  destruct Hstep as (Hnone & Hc' & Hh' & Ht' & Hn').
  cbn [run]. destruct (step st ev) as [st' started]. cbn [fst snd] in *. subst started.
  rewrite <- Hn' in Hrest.
  assert (IH' : snd (run st' evs) = [])
    by (apply IH; [exact Hc' | exact Hh' | now rewrite Ht' | exact Hrest]).
  destruct (run st' evs) as [st'' more]. exact IH'.
Qed.

(** The merge on a patch of two entries, one for a file under its path
    with a leading slash, one for a new file. *)
Lemma C9_merge_by_path_or_slash_path_witness :
  let files :=
    [{| path := js "src/App.tsx"; content := J (JStr (js "old")) |};
     {| path := js "b.css"; content := J (JStr (js "keep")) |}] in
  let fixedFiles :=
    [(js "/src/App.tsx", JStr (js "new")); (js "/src/new.ts", JStr (js "added"))] in
  updatedFiles files fixedFiles !! 0%nat
  = Some {| path := js "src/App.tsx"; content := J (JStr (js "new")) |}
  /\ updatedFiles files fixedFiles !! 1%nat
     = Some {| path := js "b.css"; content := J (JStr (js "keep")) |}
  /\ drop 2 (updatedFiles files fixedFiles)
     = [{| path := js "/src/new.ts"; content := J (JStr (js "added")) |}].
Proof.
  intros files fixedFiles.
  destruct (C9_merge_by_path_or_slash_path files fixedFiles) as [Hfiles Hnew].
  split; [| split].
  - destruct (Hfiles 0%nat _ eq_refl) as (f' & -> & Hp & _ & Hslash & _).
    destruct f' as [p c]. cbn [path content] in *. subst p.
    rewrite Hslash; reflexivity.
  - destruct (Hfiles 1%nat _ eq_refl) as (f' & -> & _ & _ & _ & Hsame).
    rewrite Hsame; reflexivity.
  - exact Hnew.
Defined.

(** ** The model on concrete inputs *)

Example trim_spaces : trim (js "  a b  " ++ [10%N]) = js "a b".
Proof. reflexivity. Qed.

Example parse_object :
  parse (js "  {" ++ quoted "b" ++ js ": [1, -2.50e3, true, null], " ++ quoted "1"
         ++ js ": {}, " ++ quoted "b" ++ js ": " ++ quoted "x\ny" ++ js "} ")
  = Return (JObj [(js "1", JObj []); (js "b", JStr (js "x" ++ [10%N] ++ js "y"))]).
Proof. reflexivity. Qed.

Example parse_rejects :
  forallb (fun text => match parse (js text) with Throw _ => true | Return _ => false end)
          ["[1,]"; "01"; "1."; "{}x"; "tru"; ""; "+1"; "[1 2]"]%string = true.
Proof. reflexivity. Qed.

Example tiny_numbers_are_falsy :
  map truthyJson [JNum false 0 3; JNum false 1 (-400); JNum false 5 (-324); JNum true 1 0]
  = [false; false; true; true].
Proof. reflexivity. Qed.

Example empty_function_found :
  test reEmptyFunction (js "export function App(props) {  }") = true
  /\ test reEmptyFunction (js "function App() { return null }") = false
  /\ test reEmptyFunction (js "const f = () => {}") = false.
Proof. repeat split. Qed.

Example file_blocks :
  parseFixedFiles (js "Here are the files" ++ [10%N] ++ js "=== /src/a.ts ===" ++ [10%N]
                   ++ js "let a = 1" ++ [10%N] ++ js "=== /src/b.ts ===" ++ [10%N]
                   ++ js "let b = 2" ++ [10%N])
  = JObj [(js "/src/a.ts", JStr (js "let a = 1")); (js "/src/b.ts", JStr (js "let b = 2"))].
Proof. reflexivity. Qed.

Example json_files_win_over_blocks :
  parseFixedFiles (js "{" ++ quoted "files" ++ js ": {" ++ quoted "/a.ts" ++ js ": "
                   ++ quoted "x" ++ js "}} === /b.ts ===" ++ [10%N] ++ js "y")
  = JObj [(js "/a.ts", JStr (js "x"))].
Proof. reflexivity. Qed.

Example error_file_of_message :
  extractFileFromError (js "SyntaxError: /src/App.tsx: Unexpected token (12:4)")
  = Some (js "/src/App.tsx")
  /\ extractFileFromError (js "Cannot read /package.json") = Some (js "/package.js")
  /\ extractFileFromError (js "x is not defined") = None.
Proof. repeat split. Qed.

Example observe_compilation_error :
  observe (ShowError (js "Unexpected token") [] 12 4 (js "/src/App.tsx"))
  = (js "Compilation Error",
     js "Unexpected token" ++ [10%N] ++ js "Line: 12, Column: 4" ++ [10%N]
     ++ js "File: /src/App.tsx").
Proof. reflexivity. Qed.

Example observe_console :
  observe (Console true (Some [LogObject (js "log") (Some [js "Error: ignored"]);
                               LogObject (js "error") (Some [js "Uncaught"; js "TypeError: x"]);
                               LogObject (js "warn") None]))
  = (js "Runtime Error", js "Uncaught TypeError: x" ++ [10%N])
  /\ snd (observe (Console true (Some [LogObject (js "warn") (Some [js "deprecated"])]))) = []
  /\ observe (Console false (Some [LogObject (js "error") (Some [js "Error"])])) = ([], []).
Proof. repeat split. Qed.

Example hash_keeps_100_code_units :
  length (hashOf (Notification (js "error") (concat (repeat (js "0123456789") 20))))
  = (length (js "Build Error:") + 100)%nat.
Proof. reflexivity. Qed.

(** The basic repair of a compilation error in [/src/App.tsx]: accepted by
    the gate, six stages, a patch for the file, no empty function, and the
    file replaced. *)
Example basic_repair :
  let fault := ShowError (js "Unexpected token in /src/App.tsx line 12") [] 12 0
                         (js "/src/App.tsx") in
  let files := [{| path := js "/src/App.tsx"; content := J (JStr (js "export default (")) |};
                {| path := js "/src/index.css"; content := J (JStr (js "body {}")) |}] in
  let answer := js "{" ++ quoted "explanation" ++ js ": " ++ quoted "closed the bracket"
                ++ js ", " ++ quoted "files" ++ js ": {" ++ quoted "/src/App.tsx" ++ js ": "
                ++ quoted "export default function App() { return null }" ++ js "}}" in
  match step (mounted 2 0) (10000%Z, Message fault) with
  | (_, Some started) =>
      let served := fixError (startedError started) files
                      (Streams (js "{" ++ quoted "errorAnalysis" ++ js ": {}}"))
                      (Streams answer) in
      let o := handleSandboxError files false true (delivered served) in
      stagesOf (recordsOf served)
      = [Stage.analyzing; Stage.reasoning_complete; Stage.codebase_analysis;
         Stage.generating_fix; Stage.verifying; Stage.complete]
      /\ terminal o = Some Complete
      /\ exit o
         = Applied [{| path := js "/src/App.tsx";
                       content := J (JStr (js "export default function App() { return null }")) |};
                    {| path := js "/src/index.css"; content := J (JStr (js "body {}")) |}]
      /\ toasts o = [ToastInfo (js "AI is analyzing and fixing the error...");
                     ToastSuccess (J (JStr (js "closed the bracket")))]
  | (_, None) => False
  end.
Proof. vm_compute. repeat split. Qed.

(** * Further properties of the repair loop *)

(** ** The records of a session, from the service to the frontend *)

Lemma structuredFiles_truthy response files :
  structuredFiles response = Some files -> truthyJson files = true.
Proof.
  unfold structuredFiles.
  destruct (matchText reObject response) as [jsonMatch |]; [| discriminate].
  destruct (parse jsonMatch) as [parsed | e]; [| discriminate].
  destruct (getField parsed (js "files")) as [[| files' |] | e]; try discriminate.
  destruct (truthyJson files') eqn:Ht; [| discriminate].
  now intros [= <-].
Qed.

Lemma parseFixedFiles_truthy response : truthyJson (parseFixedFiles response) = true.
Proof.
  unfold parseFixedFiles.
  destruct (structuredFiles response) as [files |] eqn:Hs; [| reflexivity].
  eapply structuredFiles_truthy, Hs.
Qed.

Lemma extractExplanation_truthy response :
  truthyJson (extractExplanation response) = true.
Proof.
  unfold extractExplanation.
  destruct (matchText reObject response) as [jsonMatch |]; [| reflexivity].
  destruct (parse jsonMatch) as [parsed | e]; [| reflexivity].
  destruct (getField parsed (js "explanation")) as [[| ex |] | e]; try reflexivity.
  destruct (truthyJson ex) eqn:Ht; [exact Ht | reflexivity].
Qed.

(** What a truthy value is after [JSON.stringify] and [JSON.parse]: the
    same truthy value, or null for a number that is [Infinity]. *)
Lemma truthy_wired (j : json) :
  truthyJson j = true -> truthyJson (wired j) = negb (isInfinity j).
Proof.
  destruct j as [| b | neg m e | s | items | props]; cbn [truthyJson wired isInfinity];
    try discriminate; try (intros ->; reflexivity); try reflexivity.
  intros Hz. apply negb_true_iff in Hz. destruct (numIsInfinite m e); [reflexivity |].
  rewrite Hz. cbn [truthyJson negb]. now rewrite Hz.
Qed.

(** X1. The event stream of the route, for every request with an error
    text: progress records followed by exactly one typed record, which is the
    last. Either that record has type complete, with [success] true, after
    the six stages with progress 10, 30, 40, 60, 80, 100; its patch and its
    explanation are those of the service, both truthy, as [JSON.stringify]
    writes them: truthy again unless the value is a number beyond the
    doubles, which is written as null. Or the record has type error, after
    the first three, four or five stages and one record of stage error whose
    message is [Fix failed: ] followed by the error text of the typed
    record. *)
Theorem fixError_stream_protocol
    (error : jsstring) (files : list GeneratedFile) (analysisCall fixCall : OracleOutcome) :
  error <> [] ->
  exists sent final,
    fixError error files analysisCall fixCall = EventStream (map Progress sent ++ [final])
    /\ match final with
       | TypeComplete ok fixedFiles explanation =>
           ok = true
           /\ (exists patch expl,
                 fixedFiles = J (wired patch) /\ explanation = J (wired expl)
                 /\ truthyJson patch = true /\ truthyJson expl = true
                 /\ truthy fixedFiles = negb (isInfinity patch)
                 /\ truthy explanation = negb (isInfinity expl))
           /\ map stage sent = allStages
           /\ map progress sent = [10; 30; 40; 60; 80; 100]%N
       | TypeError_ err =>
           exists n, (3 <= n <= 5)%nat
             /\ map stage sent = firstn n allStages ++ [Stage.error]
             /\ List.last (map message sent) [] = js "Fix failed: " ++ err
             /\ List.last (map progress sent) 0%N = 0%N
       | Progress _ => False
       end.
Proof.
  intros Herr. unfold fixError.
  destruct error as [| c error]; [congruence |]. cbn [isEmpty].
  unfold fixWithReasoning.
  destruct (analyzeCodebase files (c :: error)) as [ctx | e1].
  2: { eexists _, _. split; [reflexivity |]. exists 3%nat. repeat split; lia. }
  destruct fixCall as [response | e2]; cbn [generateSmartFixes].
  2: { eexists _, _. split; [reflexivity |]. exists 4%nat. repeat split; lia. }
  destruct (snd (verifyFixes (parseFixedFiles response))) as [v | e3].
  2: { eexists _, _. split; [reflexivity |]. exists 5%nat. repeat split; lia. }
  eexists _, _. split; [reflexivity |].
  split; [reflexivity |]. split; [| split; reflexivity].
  exists (parseFixedFiles response), (extractExplanation response).
  pose proof (parseFixedFiles_truthy response) as Hp.
  pose proof (extractExplanation_truthy response) as He.
  repeat split; try assumption; cbn [truthy]; now apply truthy_wired.
Qed.

(** A fix call that dies: three stages, generating_fix, then the error. *)
Lemma fixError_stream_protocol_witness :
  exists sent final,
    fixError (js "Build Error: x") [] (Streams []) (Fails (Error (js "overloaded")))
    = EventStream (map Progress sent ++ [final])
    /\ match final with
       | TypeComplete ok fixedFiles explanation =>
           ok = true
           /\ (exists patch expl,
                 fixedFiles = J (wired patch) /\ explanation = J (wired expl)
                 /\ truthyJson patch = true /\ truthyJson expl = true
                 /\ truthy fixedFiles = negb (isInfinity patch)
                 /\ truthy explanation = negb (isInfinity expl))
           /\ map stage sent = allStages
           /\ map progress sent = [10; 30; 40; 60; 80; 100]%N
       | TypeError_ err =>
           exists n, (3 <= n <= 5)%nat
             /\ map stage sent = firstn n allStages ++ [Stage.error]
             /\ List.last (map message sent) [] = js "Fix failed: " ++ err
             /\ List.last (map progress sent) 0%N = 0%N
       | Progress _ => False
       end.
Proof.
  apply (fixError_stream_protocol (js "Build Error: x") [] (Streams []) 
           (Fails (Error (js "overloaded")))).
  discriminate.
Defined.

(** An answer whose files is a number beyond the doubles: the service
    succeeds with [Infinity] as the patch, and the complete record carries
    null. *)
Example infinite_patch_is_sent_as_null :
  List.last (recordsOf (fixError (js "Build Error: x") [] (Streams [])
                          (Streams (js "{" ++ quoted "files" ++ js ": 1e999}"))))
            (TypeError_ [])
  = TypeComplete true (J JNull) (J (JStr (js "Applied fixes based on deep reasoning"))).
Proof. vm_compute. reflexivity. Qed.

(** X2. A whole session, from the service to the files of the component.
    When the records of the route arrive, cut into chunks in any way, and
    Stop is not pressed, the frontend shows exactly the progress records the
    service sent, as [JSON.stringify] wrote them, and the session ends in
    one of three ways. The service failed: the call ends in the catch block
    with the error toast. The service succeeded: the patch is handed over
    and the success toast shows the explanation of the service, or
    [Error fixed!] when the explanation is a number beyond the doubles. Or
    the service succeeded with a patch that is such a number: the record
    carries null and the call ends silently, with nothing handed over. *)
Theorem session_follows_service
    (error : jsstring) (files : list GeneratedFile) (analysisCall fixCall : OracleOutcome)
    (reads : list Read) :
  error <> [] ->
  delivers reads (recordsOf (fixError error files analysisCall fixCall)) ->
  let o := handleSandboxError files false true (Responded true reads) in
  shown o = map wiredUpdate (fst (fixWithReasoning error files analysisCall fixCall))
  /\ stopped o = false
  /\ match snd (fixWithReasoning error files analysisCall fixCall) with
     | FixSuccess fixedFiles explanation _ _ _ _ =>
         if isInfinity fixedFiles then
           terminal o = None
           /\ exit o = NotApplied
           /\ toasts o = [ToastInfo (js "AI is analyzing and fixing the error...")]
         else
           terminal o = Some Complete
           /\ toasts o = [ToastInfo (js "AI is analyzing and fixing the error...");
                          ToastSuccess (if isInfinity explanation
                                        then J (JStr (js "Error fixed!"))
                                        else J (wired explanation))]
           /\ (forall props, fixedFiles = JObj props ->
                 exit o = Applied (updatedFiles files
                                     (map (fun kv => (fst kv, wired (snd kv))) props)))
     | FixFailure err _ =>
         terminal o = Some Failed
         /\ exit o = Caught (Error (if isEmpty err then js "Error fixing failed" else err))
         /\ toasts o = [ToastInfo (js "AI is analyzing and fixing the error...");
                        ToastError (js "Failed to auto-fix the error")]
     end.
Proof.
  intros Herr (chunks & -> & Hconcat). cbn zeta.
  unfold handleSandboxError. cbn [negb].
  rewrite readLoop_chunks, Hconcat. clear Hconcat chunks.
  unfold fixError. destruct error as [| c error]; [congruence |]. cbn [isEmpty].
  unfold fixWithReasoning.
  destruct (analyzeCodebase files (c :: error)) as [ctx | e1];
    [| cbn [recordsOf fst snd fixFailed]; rewrite processRecords_app, processRecords_progress;
       repeat split].
  destruct fixCall as [response | e2]; cbn [generateSmartFixes];
    [| cbn [recordsOf fst snd fixFailed]; rewrite processRecords_app, processRecords_progress;
       repeat split].
  pose proof (truthy_wired _ (parseFixedFiles_truthy response)) as Hpatch.
  pose proof (truthy_wired _ (extractExplanation_truthy response)) as Hexpl.
  destruct (snd (verifyFixes (parseFixedFiles response))) as [v | e3];
    cbn [recordsOf fst snd fixFailed]; rewrite processRecords_app, processRecords_progress;
    [| repeat split].
  cbn [processRecords applyFinalResult success fixedFiles explanation negb andb truthy].
  rewrite Hpatch. unfold or_. cbn [truthy]. rewrite Hexpl.
  destruct (isInfinity (parseFixedFiles response)) eqn:Hinf; cbn [negb andb exit toasts
    shown stopped app].
  - repeat split.
  - split; [reflexivity |]. split; [reflexivity |].
    split; [unfold terminal; cbn [exit]; now destruct (wired (parseFixedFiles response)) |].
    split; [now destruct (isInfinity (extractExplanation response)) |].
    intros props Hprops. rewrite Hprops. reflexivity.
Qed.

(** The records of a repair that succeeds, delivered in two chunks. *)
Lemma session_follows_service_witness :
  let files := [{| path := js "/src/App.tsx"; content := J (JStr (js "export default (")) |}] in
  let answer := js "{" ++ quoted "explanation" ++ js ": " ++ quoted "closed the bracket"
                ++ js ", " ++ quoted "files" ++ js ": {" ++ quoted "/src/App.tsx" ++ js ": "
                ++ quoted "export default 1" ++ js "}}" in
  let records := recordsOf (fixError (js "Compilation Error: x") files
                              (Streams []) (Streams answer)) in
  let o := handleSandboxError files false true
             (Responded true [Chunk (firstn 2 records); Chunk (skipn 2 records)]) in
  terminal o = Some Complete
  /\ exit o = Applied [{| path := js "/src/App.tsx";
                          content := J (JStr (js "export default 1")) |}]
  /\ map stage (shown o) = allStages.
Proof.
  intros files answer records o.
  destruct (session_follows_service (js "Compilation Error: x") files (Streams [])
              (Streams answer) [Chunk (firstn 2 records); Chunk (skipn 2 records)])
    as (Hshown & _ & Hres); [discriminate | |].
  - exists [firstn 2 records; skipn 2 records]. split; [reflexivity |].
    cbn [concat]. rewrite app_nil_r. apply firstn_skipn.
  - fold o in Hshown, Hres.
    destruct (snd (fixWithReasoning (js "Compilation Error: x") files (Streams [])
                     (Streams answer))) as [ff ex r a v af | err r] eqn:Hfix;
      vm_compute in Hfix; [| discriminate].
    injection Hfix as <- _ _ _ _ _.
    cbn [isInfinity] in Hres.
    destruct Hres as (Hterminal & _ & Hexit).
    split; [exact Hterminal |].
    split; [rewrite (Hexit _ eq_refl); vm_compute; reflexivity |].
    rewrite Hshown. vm_compute. reflexivity.
Defined.

(** ** The fingerprints of the listener *)



(** ** The cooldown when no older timer is pending *)

Lemma filter_not_due (now deadline : Z) (ts : list Z) :
  Forall (fun d => (d <= now \/ deadline <= d)%Z) ts ->
  Forall (fun d => (deadline <= d)%Z)
         (List.filter (fun d => negb (d <=? now)%Z) ts).
Proof.
  induction 1 as [| d ts Hd _ IH]; cbn [List.filter]; [constructor |].
  destruct (Z.leb_spec d now); cbn [negb]; [exact IH |].
  constructor; [lia | exact IH].
Qed.

(** X4. The cooldown lasts its 5000 ms when no older timer falls into it.
    If, when a fault is accepted at [t1], every timer still pending is due
    by [t1] or not before [t1 + 5000], then nothing that happens before
    [t1 + 5000], short of a successful build or a change of the number of
    files, starts a repair: no fault, new or known, no repair that ends,
    and no new subscription of the listener. *)
Theorem cooldown_lasts_without_stale_timer
    (st : Monitor) (m : SandpackMessage) (t1 : Z) (evs : list (Z * Event)) :
  accepts t1 m st = true ->
  Forall (fun d => (d <= t1 \/ t1 + 5000 <= d)%Z) (timers st) ->
  Forall (fun ev => (fst ev < t1 + 5000)%Z /\ snd ev <> Message (Done false)
                    /\ keepsFiles (fileCount st) (snd ev)) evs ->
  snd (run (fst (step st (t1, Message m))) evs) = [].
Proof.
  intros Ha Hts Hevs. rewrite (step_accepted _ _ _ Ha). cbn [fst].
  apply (cooldown_holds (t1 + 5000)); cbn [afterAccept errorCooldown heldCooldown timers];
    [reflexivity | reflexivity | | exact Hevs].
  apply Forall_app. split; [now apply filter_not_due | repeat constructor; lia].
Qed.

(** The run of C8 without the fault [g] that left a timer behind: the fault
    [f] at 15500 is suppressed, as are a new fault and the end of the repair. *)
Lemma cooldown_lasts_without_stale_timer_witness :
  let f := ShowError (js "x is not defined") [] 3 0 (js "/src/main.tsx") in
  let other := Notification (js "error") (js "Module not found") in
  let sf := {| startedError := fst (observe f) ++ js ": " ++ snd (observe f);
               startedHash := hashOf f; startedMount := 0 |} in
  snd (run (fst (step initial (14000%Z, Message f)))
           [(14500%Z, SessionEnds sf (Caught (Error (js "Failed to fix error"))));
            (15000%Z, ListenChanges);
            (15500%Z, Message f); (18999%Z, Message other)]) = [].
Proof.
  intros f other sf.
  apply (cooldown_lasts_without_stale_timer initial f 14000).
  - vm_compute. reflexivity.
  - constructor.
  - repeat constructor; cbn; try lia; discriminate.
Defined.

(** ** A fingerprint stays in the set of fixed errors *)

(** The listener never holds fewer fingerprints than the state: the set
    grows only when a fault is accepted, which subscribes the listener
    anew. *)
Lemma fixed_are_held_step (st : Monitor) (ev : Z * Event) :
  fixedErrors st ⊆ heldFixedErrors st ->
  fixedErrors (fst (step st ev)) ⊆ heldFixedErrors (fst (step st ev)).
Proof.
  intros Hsub. destruct ev as [now [m | s x | | k]].
  - assert (Hm : m = Done false \/ m <> Done false)
      by (destruct m as [[|] | | | |]; auto; right; discriminate).
    destruct Hm as [-> | Hm]; [cbn; set_solver |].
    destruct (accepts now m st) eqn:Ha.
    + rewrite (step_accepted _ _ _ Ha). cbn. set_solver.
    + rewrite (step_rejected _ _ _ Hm Ha). exact Hsub.
  - unfold step. cbn [fst snd]. set (st' := fireTimers now st).
    assert (Hsub' : fixedErrors st' ⊆ heldFixedErrors st') by exact Hsub. clearbody st'.
    assert (Happlied : fixedErrors (fixApplied now st') ⊆ heldFixedErrors (fixApplied now st')).
    { unfold fixApplied, clearLastErrorHash. cbn [lastErrorHash].
      destruct (isEmpty (lastErrorHash st')); cbn; set_solver. }
    assert (Hfailed : fixedErrors (fixFailedState (startedHash s) st')
                      ⊆ heldFixedErrors (fixFailedState (startedHash s) st')).
    { unfold fixFailedState, clearLastErrorHash. cbn [lastErrorHash].
      destruct (isEmpty (lastErrorHash st')); cbn; [| reflexivity].
      intros y Hy. apply elem_of_difference in Hy as [Hy _]. now apply Hsub'. }
    unfold sessionExit, filesChange.
    destruct x as [| updated | handed | | | e]; try exact Hsub';
      destruct (startedMount s =? mount st')%nat; try assumption;
      match goal with |- context [(?n =? ?c)%nat] => destruct (n =? c)%nat end;
      try assumption; cbn; set_solver.
  - cbn. set_solver.
  - unfold step, filesChange. cbn [fst snd].
    match goal with |- context [(?n =? ?c)%nat] => destruct (n =? c)%nat end;
      [exact Hsub | cbn; set_solver].
Qed.

Lemma fixed_are_held (n k : nat) (evs : list (Z * Event)) :
  fixedErrors (fst (run (mounted n k) evs)) ⊆ heldFixedErrors (fst (run (mounted n k) evs)).
Proof.
  assert (H : forall st, fixedErrors st ⊆ heldFixedErrors st ->
                         fixedErrors (fst (run st evs)) ⊆ heldFixedErrors (fst (run st evs))).
  { induction evs as [| ev evs IH]; intros st Hsub; [exact Hsub |].
    cbn [run]. pose proof (fixed_are_held_step st ev Hsub) as Hstep.
    destruct (step st ev) as [st' started]. cbn [fst] in Hstep.
    specialize (IH st' Hstep). destruct (run st' evs) as [st'' more]. exact IH. }
  apply H. cbn. set_solver.
Qed.




(** ** analyzeCodebase *)

Lemma setAdd_NoDup x l : NoDup l -> NoDup (setAdd x l).
Proof.
  intros Hl. unfold setAdd. destruct (existsb (eqb x) l) eqn:He; [exact Hl |].
  apply NoDup_app. split; [exact Hl |]. split; [| apply NoDup_singleton].
  intros y Hy Hx. apply list_elem_of_singleton in Hx. subst y.
  assert (existsb (eqb x) l = true); [| congruence].
  apply existsb_exists. exists x. split; [now apply list_elem_of_In |].
  now apply bool_decide_eq_true_2.
Qed.

Lemma dependencies_fold (ms : list (list jsstring)) : forall deps,
  NoDup deps ->
  Forall (fun d => startsWith d (js ".") = false) deps ->
  let deps' := fold_left (fun d pieces =>
                            if startsWith (group 3 pieces) (js ".") then d
                            else setAdd (group 3 pieces) d) ms deps in
  NoDup deps' /\ Forall (fun d => startsWith d (js ".") = false) deps'.
Proof.
  induction ms as [| pieces ms IH]; intros deps Hnd Hall; cbn [fold_left]; [auto |].
  destruct (startsWith (group 3 pieces) (js ".")) eqn:Hs; [now apply IH |].
  apply IH; [now apply setAdd_NoDup |].
  unfold setAdd. destruct (existsb _ deps); [exact Hall |].
  apply Forall_app. split; [exact Hall | now repeat constructor].
Qed.

Lemma analyzeFiles_spec (p : option jsstring) (files : list GeneratedFile) :
  forall a ctx,
  analyzeFiles p files a = Return ctx ->
  totalFiles ctx = totalFiles a
  /\ affectedFiles ctx
     = affectedFiles a
       ++ match p with
          | Some q => map path (List.filter (fun f => includes (path f) q) files)
          | None => []
          end
  /\ relatedFiles ctx
     = relatedFiles a
       ++ match p with
          | Some q =>
              map path
                (List.filter
                   (fun f => match content f with
                             | J (JStr text) =>
                                 includes text
                                   (removeFirst reSourceExt (removePrefix [Lit (js "/")] q))
                             | _ => false
                             end) files)
          | None => []
          end
  /\ (NoDup (dependencies a) ->
      Forall (fun d => startsWith d (js ".") = false) (dependencies a) ->
      NoDup (dependencies ctx)
      /\ Forall (fun d => startsWith d (js ".") = false) (dependencies ctx)).
Proof.
  induction files as [| f files IH]; intros a ctx; cbn [analyzeFiles].
  - intros [= <-]. destruct p; rewrite !app_nil_r; auto.
  - destruct (analyzeFile p f a) as [a' | e] eqn:Hf; [| discriminate].
    intros Hrest. destruct (IH _ _ Hrest) as (Ht & Ha & Hr & Hd). clear IH Hrest.
    unfold analyzeFile in Hf.
    destruct (content f) as [| [| | | text | |] |] eqn:Hc; try discriminate.
    injection Hf as <-. cbn [totalFiles affectedFiles relatedFiles dependencies] in *.
    split; [exact Ht |].
    split; [| split].
    + rewrite Ha. destruct p as [q |]; [| reflexivity].
      cbn [List.filter]. destruct (includes (path f) q); cbn [map];
        now rewrite <- ?app_assoc.
    + rewrite Hr. destruct p as [q |]; [| reflexivity].
      cbn [List.filter]. rewrite Hc.
      destruct (includes text _); cbn [map]; now rewrite <- ?app_assoc.
    + intros Hnd Hall.
      destruct (dependencies_fold (execAll reFrom 0 text) (dependencies a) Hnd Hall)
        as [Hnd' Hall'].
      now apply Hd.
Qed.

(** X6. What [analyzeCodebase] returns, when it returns: the number of
    files; as affected files the paths, in order, of the files whose path
    contains the file named in the error text; as related files the paths of
    the files whose content contains that name without its leading slash and
    its source extension; both lists are empty when the error names no
    file. The dependencies hold no module twice and no relative import. *)
Theorem analyzeCodebase_context
    (files : list GeneratedFile) (error : jsstring) (ctx : CodebaseContext) :
  analyzeCodebase files error = Return ctx ->
  totalFiles ctx = length files
  /\ affectedFiles ctx
     = match extractFileFromError error with
       | Some q => map path (List.filter (fun f => includes (path f) q) files)
       | None => []
       end
  /\ relatedFiles ctx
     = match extractFileFromError error with
       | Some q =>
           map path
             (List.filter
                (fun f => match content f with
                          | J (JStr text) =>
                              includes text
                                (removeFirst reSourceExt (removePrefix [Lit (js "/")] q))
                          | _ => false
                          end) files)
       | None => []
       end
  /\ NoDup (dependencies ctx)
  /\ Forall (fun d => startsWith d (js ".") = false) (dependencies ctx).
Proof.
  unfold analyzeCodebase.
  destruct (analyzeFiles _ files _) as [a | e] eqn:Ha; [| discriminate].
  intros [= <-]. cbn [totalFiles affectedFiles relatedFiles dependencies].
  destruct (analyzeFiles_spec _ _ _ _ Ha) as (Ht & Haf & Hr & Hd).
  cbn [totalFiles affectedFiles relatedFiles dependencies app] in *.
  split; [exact Ht |]. split; [exact Haf |]. split; [exact Hr |].
  apply Hd; constructor.
Qed.

(** Two files that import react; the first also imports the second and
    re-exports a relative module; the error names the second. *)
Lemma analyzeCodebase_context_witness :
  let files :=
    [{| path := js "/src/App.tsx";
        content := J (JStr (js "import React from 'react'" ++ [10%N]
                            ++ js "import './index.css'" ++ [10%N]
                            ++ js "import Card from 'src/components/Card'"
                            ++ [10%N] ++ js "export * from './util'")) |};
     {| path := js "/src/components/Card.tsx";
        content := J (JStr (js "import React from 'react'")) |}] in
  exists ctx,
    analyzeCodebase files (js "SyntaxError: /src/components/Card.tsx: Unexpected token")
    = Return ctx
    /\ totalFiles ctx = 2%nat
    /\ affectedFiles ctx = [js "/src/components/Card.tsx"]
    /\ relatedFiles ctx = [js "/src/App.tsx"]
    /\ dependencies ctx = [js "react"; js "src/components/Card"]
    /\ NoDup (dependencies ctx).
Proof.
  intros files.
  destruct (analyzeCodebase files
              (js "SyntaxError: /src/components/Card.tsx: Unexpected token"))
    as [ctx | e] eqn:Hctx; [| vm_compute in Hctx; discriminate].
  exists ctx. split; [reflexivity |].
  destruct (analyzeCodebase_context _ _ _ Hctx) as (Ht & Ha & Hr & Hnd & _).
  split; [exact Ht |]. split; [rewrite Ha; reflexivity |].
  split; [rewrite Hr; reflexivity |].
  split; [vm_compute in Hctx; injection Hctx as <-; reflexivity | exact Hnd].
Defined.

(** ** Own properties *)

Lemma getOwn_Some_In {V} (k : jsstring) (props : list (jsstring * V)) (v : V) :
  getOwn k props = Some v -> In (k, v) props.
Proof.
  induction props as [| [k' v'] props IH]; cbn [getOwn]; [discriminate |].
  unfold eqb. destruct (bool_decide_reflect (k' = k)) as [-> | Hne].
  - intros [= ->]. now left.
  - intros H. right. now apply IH.
Qed.

Lemma getOwn_None_keys {V} (k : jsstring) (props : list (jsstring * V)) :
  getOwn k props = None -> ~ In k (map fst props).
Proof.
  induction props as [| [k' v'] props IH]; cbn [getOwn map fst In]; [tauto |].
  unfold eqb. destruct (bool_decide_reflect (k' = k)) as [-> | Hne]; [discriminate |].
  intros H [Heq | Hin]; [congruence | now apply IH].
Qed.

Lemma getOwn_NoDup {V} (k : jsstring) (v : V) (props : list (jsstring * V)) :
  NoDup (map fst props) -> In (k, v) props -> getOwn k props = Some v.
Proof.
  induction props as [| [k' v'] props IH]; cbn [getOwn map fst In]; [tauto |].
  intros Hnd Hin. apply NoDup_cons in Hnd as [Hk' Hnd].
  unfold eqb. destruct (bool_decide_reflect (k' = k)) as [-> | Hne].
  - destruct Hin as [[= ->] | Hin]; [reflexivity |].
    exfalso. apply Hk', list_elem_of_In, in_map_iff. now exists (k, v).
  - destruct Hin as [[= ? ?] | Hin]; [congruence | now apply IH].
Qed.

Lemma setOwn_keys {V} (k : jsstring) (v : V) (props : list (jsstring * V)) :
  map fst (setOwn k v props) = map fst props.
Proof.
  induction props as [| [k' v'] props IH]; cbn [setOwn map fst]; [reflexivity |].
  destruct (eqb k' k); cbn [map fst]; [reflexivity | now rewrite IH].
Qed.

Lemma setOwn_Forall {V} (P : jsstring * V -> Prop) (k : jsstring) (v : V)
    (props : list (jsstring * V)) :
  Forall P props -> (forall k', In k' (map fst props) -> P (k', v)) ->
  Forall P (setOwn k v props).
Proof.
  induction props as [| [k' v'] props IH]; cbn [setOwn]; [constructor |].
  intros Hall Hv. inversion Hall as [| ? ? Hhd Htl]; subst.
  destruct (eqb k' k).
  - constructor; [apply Hv; now left | exact Htl].
  - constructor; [exact Hhd |]. apply IH; [exact Htl |].
    intros k'' Hin. apply Hv. now right.
Qed.

Lemma insertIndex_split {V} (n : N) (k : jsstring) (v : V) (props : list (jsstring * V)) :
  exists l1 l2, props = l1 ++ l2 /\ insertIndex n k v props = l1 ++ (k, v) :: l2.
Proof.
  induction props as [| [k' v'] props IH]; cbn [insertIndex].
  - now exists [], [].
  - destruct (arrayIndex k') as [n' |]; [| now exists [], ((k', v') :: props)].
    destruct (n' <? n)%N; [| now exists [], ((k', v') :: props)].
    destruct IH as (l1 & l2 & -> & ->). now exists ((k', v') :: l1), l2.
Qed.

Lemma define_split {V} (k : jsstring) (v : V) (props : list (jsstring * V)) :
  getOwn k props = None ->
  exists l1 l2, props = l1 ++ l2 /\ define k v props = l1 ++ (k, v) :: l2.
Proof.
  intros Hk. unfold define. rewrite Hk.
  destruct (arrayIndex k) as [n |]; [apply insertIndex_split |].
  exists props, []. now rewrite app_nil_r.
Qed.

(** Defining a property keeps the keys distinct. *)
Lemma define_NoDup {V} (k : jsstring) (v : V) (props : list (jsstring * V)) :
  NoDup (map fst props) -> NoDup (map fst (define k v props)).
Proof.
  intros Hnd. destruct (getOwn k props) as [v0 |] eqn:Hk.
  - unfold define. rewrite Hk. now rewrite setOwn_keys.
  - destruct (define_split k v props Hk) as (l1 & l2 & -> & ->).
    apply getOwn_None_keys in Hk.
    rewrite map_app in *. cbn [map fst].
    apply NoDup_app in Hnd as (H1 & H12 & H2).
    apply NoDup_app. split; [exact H1 |]. split.
    + intros x Hx1 Hx2. apply list_elem_of_In in Hx2. cbn [In] in Hx2.
      destruct Hx2 as [<- | Hx2].
      * apply Hk, in_or_app. left. now apply list_elem_of_In.
      * apply (H12 x Hx1). now apply list_elem_of_In.
    + apply NoDup_cons. split; [| exact H2].
      intros Hin. apply Hk, in_or_app. right. now apply list_elem_of_In.
Qed.

Lemma define_Forall {V} (P : jsstring * V -> Prop) (k : jsstring) (v : V)
    (props : list (jsstring * V)) :
  Forall P props -> (forall k', P (k', v)) -> Forall P (define k v props).
Proof.
  intros Hall Hv. destruct (getOwn k props) as [v0 |] eqn:Hk.
  - unfold define. rewrite Hk. apply setOwn_Forall; auto.
  - destruct (define_split k v props Hk) as (l1 & l2 & -> & ->).
    apply Forall_app in Hall as [H1 H2].
    apply Forall_app. split; [exact H1 |]. constructor; [apply Hv | exact H2].
Qed.

Lemma define_keys_In {V} (k k' : jsstring) (v : V) (props : list (jsstring * V)) :
  In k' (map fst (define k v props)) -> k' = k \/ In k' (map fst props).
Proof.
  destruct (getOwn k props) as [v0 |] eqn:Hk.
  - unfold define. rewrite Hk, setOwn_keys. auto.
  - destruct (define_split k v props Hk) as (l1 & l2 & -> & ->).
    rewrite !map_app. cbn [map fst]. rewrite !in_app_iff. cbn [In].
    intros [H | [H | H]]; auto.
Qed.

(** ** [trim] *)

Lemma dropWhile_head (p : N -> bool) (s : jsstring) :
  match dropWhile p s with [] => True | c :: _ => p c = false end.
Proof.
  induction s as [| c s IH]; cbn [dropWhile]; [exact I |].
  destruct (p c) eqn:Hc; [exact IH | exact Hc].
Qed.

Lemma dropWhile_fixed (p : N -> bool) (s : jsstring) :
  match s with [] => True | c :: _ => p c = false end -> dropWhile p s = s.
Proof. destruct s as [| c s]; cbn [dropWhile]; [reflexivity |]. now intros ->. Qed.

Lemma dropWhile_snoc (p : N -> bool) (s : jsstring) (c : N) :
  p c = false -> dropWhile p (s ++ [c]) = dropWhile p s ++ [c].
Proof.
  intros Hc. induction s as [| x s IH]; cbn [dropWhile app]; [now rewrite Hc |].
  destruct (p x); [exact IH | reflexivity].
Qed.

(** A trimmed string starts and ends with a code unit that is no white
    space, so that trimming it again changes nothing. *)
Lemma trim_idempotent (s : jsstring) : trim (trim s) = trim s.
Proof.
  unfold trim at 2 3.
  pose proof (dropWhile_head isSpace s) as Hhd.
  destruct (dropWhile isSpace s) as [| c d]; [reflexivity |].
  cbn [rev]. rewrite dropWhile_snoc by exact Hhd.
  rewrite rev_app_distr. cbn [rev app].
  set (t := dropWhile isSpace (rev d)).
  pose proof (dropWhile_head isSpace (rev d)) as Ht. fold t in Ht.
  unfold trim. rewrite (dropWhile_fixed isSpace (c :: rev t)) by exact Hhd.
  cbn [rev]. rewrite rev_involutive.
  rewrite (dropWhile_fixed isSpace (t ++ [c])).
  - rewrite rev_app_distr. reflexivity.
  - destruct t; [exact Hhd | exact Ht].
Qed.

(** ** The patch read from [===] blocks, and when the service fails *)

Lemma assign_invariant (k : jsstring) (text : jsstring) (props : list (jsstring * json)) :
  NoDup (map fst props)
  /\ Forall (fun kv => fst kv <> js "__proto__"
                       /\ exists t, snd kv = JStr t /\ trim t = t) props ->
  trim text = text ->
  NoDup (map fst (assign k (JStr text) props))
  /\ Forall (fun kv => fst kv <> js "__proto__"
                       /\ exists t, snd kv = JStr t /\ trim t = t)
            (assign k (JStr text) props).
Proof.
  intros [Hnd Hall] Ht. unfold assign, eqb.
  destruct (bool_decide_reflect (k = js "__proto__")) as [Hk | Hk]; [auto |].
  split; [now apply define_NoDup |].
  assert (Hall' : Forall (fun kv : jsstring * json =>
                            fst kv = k \/ In (fst kv) (map fst props))
                         (define k (JStr text) props)).
  { apply List.Forall_forall. intros [k' v'] Hin. cbn [fst].
    apply define_keys_In with (v := JStr text). apply in_map_iff. now exists (k', v'). }
  assert (Hvals : Forall (fun kv : jsstring * json => exists t, snd kv = JStr t /\ trim t = t)
                         (define k (JStr text) props)).
  { apply define_Forall; [| intros; cbn; eauto].
    eapply List.Forall_impl; [| exact Hall]. cbn. intros kv H. tauto. }
  apply List.Forall_forall. intros kv Hin. split.
  - pose proof (proj1 (List.Forall_forall _ _) Hall' kv Hin) as [-> | Hold]; [exact Hk |].
    apply in_map_iff in Hold as (kv' & Hfst & Hin').
    rewrite <- Hfst. exact (proj1 (proj1 (List.Forall_forall _ _) Hall kv' Hin')).
  - exact (proj1 (List.Forall_forall _ _) Hvals kv Hin).
Qed.

Lemma fallbackFiles_invariant (response : jsstring) :
  NoDup (map fst (fallbackFiles response))
  /\ Forall (fun kv => fst kv <> js "__proto__"
                       /\ exists t, snd kv = JStr t /\ trim t = t)
            (fallbackFiles response).
Proof.
  unfold fallbackFiles.
  assert (H : forall ms props,
            NoDup (map fst props)
            /\ Forall (fun kv => fst kv <> js "__proto__"
                                 /\ exists t, snd kv = JStr t /\ trim t = t) props ->
            let props' :=
              fold_left (fun fixedFiles m =>
                           assign (trim (group 2 m)) (JStr (trim (group 5 m))) fixedFiles)
                        ms props in
            NoDup (map fst props')
            /\ Forall (fun kv => fst kv <> js "__proto__"
                                 /\ exists t, snd kv = JStr t /\ trim t = t) props').
  { induction ms as [| m ms IH]; intros props Hinv; cbn [fold_left]; [exact Hinv |].
    apply IH, assign_invariant; [exact Hinv | apply trim_idempotent]. }
  apply H. split; constructor.
Qed.

Lemma verifyLoop_throws entries : forall st,
  forallb (fun e => isString (snd e)) entries = false ->
  exists e, snd (verifyLoop entries st) = Some e.
Proof.
  induction entries as [| entry rest IH]; intros st; cbn [verifyLoop forallb];
    [discriminate |].
  unfold verifyEntry. destruct (snd entry); cbn [isString andb];
    try (intros _; eexists; reflexivity).
  apply IH.
Qed.

Lemma verifyLoop_filesModified entries : forall st,
  filesModified (report (fst (verifyLoop entries st))) = filesModified (report st).
Proof.
  induction entries as [| entry rest IH]; intros st; cbn [verifyLoop]; [reflexivity |].
  destruct (verifyEntry entry st) as [st' | e] eqn:He; [| reflexivity].
  rewrite IH. unfold verifyEntry in He.
  destruct (snd entry) as [| | | text | |]; try discriminate. injection He as <-.
  destruct (checkUndefined_frame (fst entry) text
              (checkTODOComments (fst entry) text
                 (checkEmptyFunctions (fst entry) text st))) as (_ & _ & -> & _).
  unfold checkTODOComments, checkEmptyFunctions.
  repeat match goal with |- context [if ?b then _ else _] => destruct b end; reflexivity.
Qed.

Lemma verifyFixes_filesModified (fixedFiles : json) (v : Verification) :
  snd (verifyFixes fixedFiles) = Return v ->
  filesModified v = length (Object_keys fixedFiles).
Proof.
  unfold verifyFixes.
  destruct fixedFiles; cbn [snd]; try discriminate;
    match goal with
    | |- context [verifyLoop ?es ?st] =>
        pose proof (verifyLoop_filesModified es st) as Hm;
        destruct (verifyLoop es st) as [st' [e |]]; cbn [fst snd] in *;
        [discriminate | intros [= <-]; exact Hm]
    end.
Qed.

Lemma verifyFixes_returns_iff (fixedFiles : json) :
  truthyJson fixedFiles = true ->
  (exists v, snd (verifyFixes fixedFiles) = Return v)
  <-> forallb (fun e => isString (snd e)) (Object_entries fixedFiles) = true.
Proof.
  intros Htruthy.
  assert (Hnull : fixedFiles <> JNull) by (intros ->; discriminate).
  split.
  - intros [v Hv].
    destruct (forallb _ (Object_entries fixedFiles)) eqn:Hall; [reflexivity |].
    exfalso. unfold verifyFixes in Hv.
    destruct fixedFiles; try congruence;
      match type of Hv with
      | context [verifyLoop ?es ?st] =>
          destruct (verifyLoop_throws es st Hall) as [e He];
          destruct (verifyLoop es st) as [st' [e' |]]; cbn [snd] in *; discriminate
      end.
  - intros Hall. unfold verifyFixes.
    destruct fixedFiles; try congruence;
      match goal with
      | |- context [verifyLoop ?es ?st] =>
          pose proof (verifyLoop_total es st Hall) as Ht;
          destruct (verifyLoop es st) as [st' [e |]]; cbn [snd] in *;
          [discriminate | eexists; reflexivity]
      end.
Qed.

Lemma block_patch_strings (response : jsstring) :
  forallb (fun e => isString (snd e)) (fallbackFiles response) = true.
Proof.
  destruct (fallbackFiles_invariant response) as [_ Hall].
  apply forallb_forall. intros kv Hin.
  destruct (proj1 (List.Forall_forall _ _) Hall kv Hin) as (_ & t & -> & _). reflexivity.
Qed.

Lemma block_patch_verifies (response : jsstring) :
  structuredFiles response = None ->
  exists v, snd (verifyFixes (parseFixedFiles response)) = Return v.
Proof.
  intros Hs. apply verifyFixes_returns_iff; [apply parseFixedFiles_truthy |].
  unfold parseFixedFiles. rewrite Hs. apply block_patch_strings.
Qed.

(** X7. The patch that [parseFixedFiles] reads from [===] blocks, when the
    answer holds no JSON text with a truthy [files]: a plain object whose
    keys are distinct and never [__proto__], and whose contents are all
    strings without white space at either end. [verifyFixes] therefore
    returns a report for it, counting its entries. *)
Theorem block_patch_is_well_formed (response : jsstring) :
  structuredFiles response = None ->
  parseFixedFiles response = JObj (fallbackFiles response)
  /\ NoDup (map fst (fallbackFiles response))
  /\ Forall (fun kv => fst kv <> js "__proto__"
                       /\ exists text, snd kv = JStr text /\ trim text = text)
            (fallbackFiles response)
  /\ exists v, snd (verifyFixes (parseFixedFiles response)) = Return v
               /\ filesModified v = length (fallbackFiles response).
Proof.
  intros Hs. destruct (fallbackFiles_invariant response) as [Hnd Hall].
  assert (Hp : parseFixedFiles response = JObj (fallbackFiles response))
    by (unfold parseFixedFiles; now rewrite Hs).
  split; [exact Hp |]. split; [exact Hnd |]. split; [exact Hall |].
  destruct (block_patch_verifies response Hs) as [v Hv].
  exists v. split; [exact Hv |].
  rewrite (verifyFixes_filesModified _ _ Hv), Hp.
  unfold Object_keys. cbn [Object_entries]. apply length_map.
Qed.

(** Two blocks for the same path, the second wins, and a block whose path
    is [__proto__] is dropped. *)
Lemma block_patch_is_well_formed_witness :
  let response := js "=== /a.ts ===" ++ [10%N] ++ js "  let a = 1  " ++ [10%N]
                  ++ js "=== __proto__ ===" ++ [10%N] ++ js "x" ++ [10%N]
                  ++ js "=== /a.ts ===" ++ [10%N] ++ js "let a = 2" ++ [10%N] in
  parseFixedFiles response = JObj [(js "/a.ts", JStr (js "let a = 2"))]
  /\ exists v, snd (verifyFixes (parseFixedFiles response)) = Return v
               /\ filesModified v = 1%nat.
Proof.
  intros response.
  destruct (block_patch_is_well_formed response) as (Hp & _ & _ & v & Hv & Hm);
    [reflexivity |].
  split; [rewrite Hp; reflexivity |].
  exists v. split; [exact Hv | rewrite Hm; reflexivity].
Defined.

(** X8. When every file of the project has a string as content, the
    service fails in exactly two cases: the model call of the
    implementation stage fails, or its answer holds a JSON text with a
    truthy [files] of which some entry is not a string. An answer without
    such a JSON text never makes it fail. *)
Theorem service_fails_iff
    (error : jsstring) (files : list GeneratedFile) (analysisCall fixCall : OracleOutcome) :
  Forall (fun f => isStringValue (content f) = true) files ->
  (exists err r, snd (fixWithReasoning error files analysisCall fixCall) = FixFailure err r)
  <-> match fixCall with
      | Fails _ => True
      | Streams response =>
          exists patch, structuredFiles response = Some patch
            /\ forallb (fun e => isString (snd e)) (Object_entries patch) = false
      end.
Proof.
  intros Hfiles. destruct (analyzeCodebase_strings files error Hfiles) as [ctx Hctx].
  unfold fixWithReasoning. rewrite Hctx.
  destruct fixCall as [response | e2]; cbn [generateSmartFixes];
    [| split; [exact (fun _ => I) | intros _; eexists _, _; reflexivity]].
  pose proof (verifyFixes_returns_iff _ (parseFixedFiles_truthy response)) as Hiff.
  destruct (snd (verifyFixes (parseFixedFiles response))) as [v | e3] eqn:Hv; cbn [snd].
  - assert (Hall : forallb (fun e => isString (snd e))
                           (Object_entries (parseFixedFiles response)) = true)
      by (apply Hiff; eauto).
    split; [intros (err & r & Habs); discriminate |].
    intros (patch & Hs & Hbad). exfalso.
    unfold parseFixedFiles in Hall. rewrite Hs in Hall. congruence.
  - split; [| intros _; eexists _, _; reflexivity]. intros _.
    destruct (structuredFiles response) as [patch |] eqn:Hs.
    + exists patch. split; [reflexivity |].
      destruct (forallb _ (Object_entries patch)) eqn:Hall; [| reflexivity].
      exfalso. assert (Hp : parseFixedFiles response = patch)
        by (unfold parseFixedFiles; now rewrite Hs).
      rewrite Hp in Hiff. destruct (proj2 Hiff Hall) as [v Hv']. discriminate.
    + exfalso. destruct (block_patch_verifies response Hs) as [v Hv']. congruence.
Qed.

(** A patch whose content for a file is a number, not a string. *)
Lemma service_fails_iff_witness :
  let files := [{| path := js "/src/App.tsx"; content := J (JStr (js "export default 0")) |}] in
  let answer := js "{" ++ quoted "files" ++ js ": {" ++ quoted "/src/App.tsx"
                ++ js ": 1}}" in
  exists err r,
    snd (fixWithReasoning (js "Build Error: x") files (Streams []) (Streams answer))
    = FixFailure err r.
Proof.
  intros files answer.
  apply (service_fails_iff (js "Build Error: x") files (Streams []) (Streams answer)).
  - repeat constructor.
  - exists (JObj [(js "/src/App.tsx", JNum false 1 0)]). split; reflexivity.
Defined.

(** ** Merging a patch twice *)

Lemma updateFile_idempotent fixedFiles f :
  updateFile fixedFiles (updateFile fixedFiles f) = updateFile fixedFiles f.
Proof.
  unfold updateFile at 2 3.
  destruct (truthy (or_ (getProp fixedFiles (path f))
                        (getProp fixedFiles (js "/" ++ path f)))) eqn:Ht.
  - unfold updateFile. cbn [path]. now rewrite Ht.
  - unfold updateFile. now rewrite Ht.
Qed.

Lemma updateFile_added (fixedFiles : list (jsstring * json)) (k : jsstring) (v : json) :
  NoDup (map fst fixedFiles) -> In (k, v) fixedFiles -> truthyJson v = true ->
  updateFile fixedFiles {| path := k; content := J v |} = {| path := k; content := J v |}.
Proof.
  intros Hnd Hin Hv. unfold updateFile, or_, getProp. cbn [path].
  rewrite (getOwn_NoDup k v fixedFiles Hnd Hin).
  cbn [truthy]. rewrite Hv. cbn [truthy]. now rewrite Hv.
Qed.

Lemma fileExists_app files more p :
  fileExists (files ++ more) p = fileExists files p || fileExists more p.
Proof. unfold fileExists. apply existsb_app. Qed.

Lemma fileExists_map_updateFile fixedFiles files p :
  fileExists (map (updateFile fixedFiles) files) p = fileExists files p.
Proof.
  unfold fileExists. induction files as [| f files IH]; cbn [map existsb]; [reflexivity |].
  now rewrite IH, updateFile_path.
Qed.

Lemma fileExists_added files (fixedFiles : list (jsstring * json)) (k : jsstring) (v : json) :
  In (k, v) fixedFiles ->
  fileExists files k || fileExists (addedFiles files fixedFiles) k = true.
Proof.
  intros Hin. destruct (fileExists files k) eqn:He; [reflexivity |]. cbn [orb].
  unfold fileExists at 1. apply existsb_exists.
  exists {| path := k; content := J v |}. split.
  - unfold addedFiles. apply in_flat_map. exists (k, v). split; [exact Hin |].
    cbn [fst snd]. rewrite He. now left.
  - cbn [path]. unfold eqb. now rewrite bool_decide_eq_true_2.
Qed.

(** X9. Merging the same patch a second time changes nothing, for a patch
    with distinct keys and truthy contents (non-empty strings, as file
    contents are): every file keeps the content the first merge gave it
    and no file is appended again. *)
Theorem merge_is_idempotent (files : list GeneratedFile) (fixedFiles : list (jsstring * json)) :
  NoDup (map fst fixedFiles) ->
  Forall (fun kv => truthyJson (snd kv) = true) fixedFiles ->
  updatedFiles (updatedFiles files fixedFiles) fixedFiles = updatedFiles files fixedFiles.
Proof.
  intros Hnd Htruthy. unfold updatedFiles at 1.
  assert (Hadd : addedFiles (updatedFiles files fixedFiles) fixedFiles = []).
  { unfold addedFiles at 1.
    assert (H : forall l, incl l fixedFiles ->
              flat_map (fun entry =>
                          if fileExists (updatedFiles files fixedFiles) (fst entry) then []
                          else [{| path := fst entry; content := J (snd entry) |}]) l = []).
    { induction l as [| [k v] l IH]; intros Hincl; cbn [flat_map]; [reflexivity |].
      rewrite IH by (intros x Hx; apply Hincl; now right).
      unfold updatedFiles. rewrite fileExists_app, fileExists_map_updateFile.
      cbn [fst]. rewrite (fileExists_added files fixedFiles k v); [reflexivity |].
      apply Hincl. now left. }
    apply H, incl_refl. }
  rewrite Hadd, app_nil_r. unfold updatedFiles. rewrite map_app. f_equal.
  - rewrite map_map. apply map_ext. intros f. apply updateFile_idempotent.
  - rewrite addedFiles_filter, map_map.
    apply map_ext_in. intros [k v] Hin. apply filter_In in Hin as [Hin _]. cbn [fst snd].
    apply updateFile_added; [exact Hnd | exact Hin |].
    exact (proj1 (List.Forall_forall _ _) Htruthy (k, v) Hin).
Qed.

Lemma merge_is_idempotent_witness :
  let files :=
    [{| path := js "src/App.tsx"; content := J (JStr (js "old")) |};
     {| path := js "b.css"; content := J (JStr (js "keep")) |}] in
  let fixedFiles :=
    [(js "/src/App.tsx", JStr (js "new")); (js "/src/new.ts", JStr (js "added"))] in
  updatedFiles (updatedFiles files fixedFiles) fixedFiles
  = [{| path := js "src/App.tsx"; content := J (JStr (js "new")) |};
     {| path := js "b.css"; content := J (JStr (js "keep")) |};
     {| path := js "/src/new.ts"; content := J (JStr (js "added")) |}].
Proof.
  intros files fixedFiles. rewrite (merge_is_idempotent files fixedFiles).
  - reflexivity.
  - subst fixedFiles. cbn [map fst].
    repeat (apply NoDup_cons; split; [rewrite list_elem_of_In; cbn; intuition discriminate |]).
    constructor.
  - repeat constructor.
Defined.

(** * vectorService.js: the content hash *)

Section HashContent.
Import VectorService.

Lemma toInt32_range (z : Z) : (- 2 ^ 31 <= toInt32 z < 2 ^ 31)%Z.
Proof.
  unfold toInt32. pose proof (Z.mod_pos_bound (z + 2 ^ 31) (2 ^ 32) ltac:(lia)). lia.
Qed.

Lemma toInt32_small (z : Z) : (- 2 ^ 31 <= z < 2 ^ 31)%Z -> toInt32 z = z.
Proof. intros H. unfold toInt32. rewrite Z.mod_small; lia. Qed.

Lemma toInt32_idempotent (z : Z) : toInt32 (toInt32 z) = toInt32 z.
Proof. apply toInt32_small, toInt32_range. Qed.

Lemma toInt32_congruent (a b : Z) :
  (a mod 2 ^ 32 = b mod 2 ^ 32)%Z -> toInt32 a = toInt32 b.
Proof.
  intros H. unfold toInt32. f_equal.
  rewrite <- (Z.add_mod_idemp_l a), <- (Z.add_mod_idemp_l b) by lia. now rewrite H.
Qed.

Lemma toInt32_mod (z : Z) : (toInt32 z mod 2 ^ 32 = z mod 2 ^ 32)%Z.
Proof.
  unfold toInt32.
  rewrite <- Zminus_mod_idemp_l, Z.mod_mod by lia.
  rewrite Zminus_mod_idemp_l. f_equal. lia.
Qed.

Lemma affine_congruent (m k a b c : Z) :
  (a mod m = b mod m)%Z -> ((k * a + c) mod m = (k * b + c) mod m)%Z.
Proof.
  intros H.
  rewrite (Zplus_mod (k * a)), (Zmult_mod k a), H, <- (Zmult_mod k b), <- Zplus_mod.
  reflexivity.
Qed.

(** One turn of the loop multiplies by 31 and adds the code unit, modulo
    2^32. *)
Lemma hashStep_31 (hash : Z) (char : N) :
  hashStep hash char = toInt32 (31 * hash + Z.of_N char).
Proof.
  unfold hashStep, and_, shl.
  rewrite Z.land_diag, toInt32_idempotent. apply toInt32_congruent.
  rewrite Z.shiftl_mul_pow2 by lia.
  replace (31 * hash + Z.of_N char)%Z with (1 * (32 * hash) + (Z.of_N char - hash))%Z by lia.
  replace (toInt32 (toInt32 hash * 2 ^ 5) - hash + Z.of_N char)%Z
    with (1 * toInt32 (toInt32 hash * 2 ^ 5) + (Z.of_N char - hash))%Z by lia.
  apply affine_congruent. rewrite toInt32_mod.
  replace (toInt32 hash * 2 ^ 5)%Z with (32 * toInt32 hash + 0)%Z by lia.
  replace (32 * hash)%Z with (32 * hash + 0)%Z by lia.
  apply affine_congruent, toInt32_mod.
Qed.

Lemma fold_left_wrap {A : Type} (w : Z -> Z) (f g : Z -> A -> Z) :
  (forall h c, f (w h) c = w (g h c)) ->
  forall (l : list A) (h : Z), fold_left f l (w h) = w (fold_left g l h).
Proof.
  intros Hstep. induction l as [| c l IH]; intros h; cbn [fold_left]; [reflexivity |].
  now rewrite Hstep, IH.
Qed.

Lemma hashValue_fold (content : jsstring) (h : Z) :
  fold_left hashStep content (toInt32 h)
  = toInt32 (fold_left (fun v c => 31 * v + Z.of_N c)%Z content h).
Proof.
  apply (fold_left_wrap toInt32 hashStep (fun v c => 31 * v + Z.of_N c)%Z).
  clear. intros h c. rewrite hashStep_31.
  apply toInt32_congruent, affine_congruent, toInt32_mod.
Qed.

Lemma hashValue_poly31 (content : jsstring) : hashValue content = toInt32 (poly31 content).
Proof.
  unfold hashValue, poly31.
  rewrite <- hashValue_fold, (toInt32_small 0) by lia. reflexivity.
Qed.

Lemma value36_digit36 (d : Z) : (0 <= d < 36)%Z -> value36 (digit36 d) = d.
Proof.
  intros Hd. unfold value36, digit36, isDigit.
  destruct (Z.ltb_spec d 10).
  - replace ((48 <=? 48 + Z.to_N d) && (48 + Z.to_N d <=? 57))%N with true; [lia |].
    symmetry. apply andb_true_intro. split; apply N.leb_le; lia.
  - replace ((48 <=? 87 + Z.to_N d) && (87 + Z.to_N d <=? 57))%N with false; [lia |].
    symmetry. apply andb_false_intro2. apply N.leb_gt. lia.
Qed.

Lemma digit36_not_minus (d : Z) : (0 <= d)%Z -> digit36 d <> 45%N.
Proof. intros Hd. unfold digit36. destruct (d <? 10)%Z; lia. Qed.

Lemma digits36_value (fuel : nat) : forall (n : Z) (acc : jsstring),
  (0 <= n < 36 ^ Z.of_nat fuel)%Z ->
  fold_left (fun v c => v * 36 + value36 c)%Z (digits36 fuel n acc) 0%Z
  = fold_left (fun v c => v * 36 + value36 c)%Z acc n.
Proof.
  induction fuel as [| fuel IH]; intros n acc Hn.
  - cbn [digits36]. f_equal. cbn in Hn. lia.
  - cbn [digits36].
    pose proof (Z.mod_pos_bound n 36 ltac:(lia)) as Hmod.
    pose proof (Z.div_mod n 36 ltac:(lia)) as Hdiv.
    destruct (Z.eqb_spec (n / 36) 0) as [Hz | Hnz].
    + cbn [fold_left]. rewrite value36_digit36 by exact Hmod. f_equal. lia.
    + rewrite IH.
      * cbn [fold_left]. rewrite value36_digit36 by exact Hmod. f_equal. lia.
      * split; [apply Z.div_pos; lia |].
        apply Z.div_lt_upper_bound; [lia |].
        replace (Z.of_nat (S fuel)) with (1 + Z.of_nat fuel)%Z in Hn by lia.
        rewrite Z.pow_add_r in Hn by lia. lia.
Qed.

Lemma digits36_head (fuel : nat) : forall (n : Z) (acc : jsstring),
  (0 <= n)%Z -> hd 0%N (digits36 (S fuel) n acc) <> 45%N.
Proof.
  induction fuel as [| fuel IH]; intros n acc Hn.
  - cbn [digits36]. destruct (n / 36 =? 0)%Z; cbn [hd];
      apply digit36_not_minus, Z.mod_pos_bound; lia.
  - change (digits36 (S (S fuel)) n acc)
      with (if (n / 36 =? 0)%Z then digit36 (n mod 36) :: acc
            else digits36 (S fuel) (n / 36) (digit36 (n mod 36) :: acc)).
    destruct (n / 36 =? 0)%Z.
    + cbn [hd]. apply digit36_not_minus, Z.mod_pos_bound. lia.
    + apply IH, Z.div_pos; lia.
Qed.

Lemma fuel_suffices (n : Z) :
  (0 <= n)%Z -> (n < 36 ^ Z.of_nat (S (Z.to_nat (Z.log2 n))))%Z.
Proof.
  intros Hn.
  pose proof (Z.log2_nonneg n) as Hlog.
  replace (Z.of_nat (S (Z.to_nat (Z.log2 n)))) with (Z.succ (Z.log2 n)) by lia.
  apply Z.lt_le_trans with (2 ^ Z.succ (Z.log2 n))%Z.
  - destruct (Z.eq_dec n 0%Z) as [-> | Hne]; [reflexivity |].
    apply Z.log2_spec. lia.
  - apply Z.pow_le_mono_l. lia.
Qed.

(** [toString(36)] loses nothing: [parseInt(s, 36)] reads the number
    back. *)
Lemma parseInt36_toString36 (n : Z) : parseInt36 (toString36 n) = n.
Proof.
  unfold toString36.
  pose proof (digits36_value _ (Z.abs n) [] (conj (Z.abs_nonneg n)
                (fuel_suffices (Z.abs n) (Z.abs_nonneg n)))) as Hval.
  pose proof (digits36_head (Z.to_nat (Z.log2 (Z.abs n))) (Z.abs n) []
                (Z.abs_nonneg n)) as Hhd.
  cbn [fold_left] in Hval.
  destruct (Z.ltb_spec n 0).
  - change (js "-" ++ ?d) with (45%N :: d). cbn [parseInt36]. rewrite Hval. lia.
  - unfold parseInt36.
    destruct (digits36 _ (Z.abs n) []) as [| c ds] eqn:Hds; [cbn in *; lia |].
    cbn [hd] in Hhd.
    assert (Hc : fold_left (fun v c => v * 36 + value36 c)%Z (c :: ds) 0%Z = n)
      by (rewrite Hval; lia).
    destruct c as [| p]; [exact Hc |].
    repeat (destruct p as [p | p |]; try exact Hc); congruence.
Qed.

(** X10. [hashContent] is the base-31 polynomial of the code units, wrapped
    to a signed 32-bit integer and written in base 36, from which
    [parseInt] reads the integer back. Two contents therefore get the same
    hash exactly when their polynomials agree modulo 2^32. *)
Theorem hashContent_is_wrapped_polynomial (a b : jsstring) :
  hashContent a = toString36 (toInt32 (poly31 a))
  /\ (- 2 ^ 31 <= parseInt36 (hashContent a) < 2 ^ 31)%Z
  /\ (hashContent a = hashContent b
      <-> (poly31 a mod 2 ^ 32 = poly31 b mod 2 ^ 32)%Z).
Proof.
  unfold hashContent. rewrite !hashValue_poly31, parseInt36_toString36.
  split; [reflexivity |]. split; [apply toInt32_range |].
  split.
  - intros H. apply (f_equal parseInt36) in H. rewrite !parseInt36_toString36 in H.
    rewrite <- (toInt32_mod (poly31 a)), <- (toInt32_mod (poly31 b)). now rewrite H.
  - intros H. f_equal. now apply toInt32_congruent.
Qed.

(** X11. The hash cannot tell [Aa] from [BB]: two contents that differ only
    in that one has [Aa] where the other has [BB] have the same hash,
    whatever comes before and after. A snapshot whose file changed this way
    carries the hash of the old content. *)
Theorem hashContent_collides (before after : jsstring) :
  hashContent (before ++ js "Aa" ++ after) = hashContent (before ++ js "BB" ++ after).
Proof.
  unfold hashContent. rewrite !hashValue_poly31. do 2 f_equal.
  unfold poly31. rewrite !fold_left_app. f_equal.
  change (js "Aa") with [65%N; 97%N]. change (js "BB") with [66%N; 66%N].
  cbn [fold_left]. lia.
Qed.

End HashContent.

(** * productionValidatorService.js: lines and import paths *)

Section Validator.
Import ProductionValidatorService.

Lemma split_nonempty (sep : N) (s : jsstring) : split sep s <> [].
Proof.
  destruct s as [| c s]; cbn [split]; [discriminate |].
  destruct (c =? sep)%N; [discriminate |]. now destruct (split sep s).
Qed.

Lemma split_cons (sep c : N) (s : jsstring) :
  c <> sep ->
  exists piece rest, split sep s = piece :: rest /\ split sep (c :: s) = (c :: piece) :: rest.
Proof.
  intros Hc. cbn [split]. destruct (N.eqb_spec c sep); [congruence |].
  destruct (split sep s) as [| piece rest] eqn:Hs; [now apply split_nonempty in Hs |].
  now exists piece, rest.
Qed.

(** No piece holds the separator. *)
Lemma split_pieces (sep : N) (s : jsstring) : Forall (fun piece => ~ In sep piece) (split sep s).
Proof.
  induction s as [| c s IH]; [repeat constructor; tauto |].
  destruct (N.eq_dec c sep) as [-> | Hc].
  - cbn [split]. rewrite N.eqb_refl. constructor; [tauto | exact IH].
  - destruct (split_cons sep c s Hc) as (piece & rest & Hs & ->).
    rewrite Hs in IH. inversion IH as [| ? ? Hp Hr]; subst.
    constructor; [| exact Hr]. cbn [In]. intros [-> | Hin]; [congruence | tauto].
Qed.

(** Splitting what [join] put together gives the pieces back. *)
Lemma split_join (sep : N) (pieces : list jsstring) :
  pieces <> [] -> Forall (fun piece => ~ In sep piece) pieces ->
  split sep (join [sep] pieces) = pieces.
Proof.
  induction pieces as [| piece pieces IH]; [congruence |]. intros _ Hall.
  inversion Hall as [| ? ? Hpiece Hrest]; subst.
  assert (Hone : forall tail, ~ In sep piece ->
            split sep (piece ++ sep :: tail) = piece :: split sep tail).
  { clear. induction piece as [| c piece IHp]; intros tail Hno.
    - cbn [app split]. now rewrite N.eqb_refl.
    - cbn [app]. cbn [In] in Hno.
      destruct (split_cons sep c (piece ++ sep :: tail)) as (p & r & Hs & ->); [tauto |].
      rewrite IHp in Hs by tauto. now injection Hs as <- <-. }
  destruct pieces as [| piece' pieces].
  - cbn [join]. clear IH Hall Hrest Hone.
    induction piece as [| c piece IHp]; [reflexivity |]. cbn [In] in Hpiece.
    destruct (split_cons sep c piece) as (p & r & Hs & ->); [tauto |].
    rewrite IHp in Hs by tauto. now injection Hs as <- <-.
  - change (join [sep] (piece :: piece' :: pieces))
      with (piece ++ [sep] ++ join [sep] (piece' :: pieces)).
    cbn [app]. rewrite Hone by exact Hpiece. f_equal. now apply IH.
Qed.

Lemma startsWith_first_line (sep : N) (sub : jsstring) : forall s piece rest,
  ~ In sep sub -> split sep s = piece :: rest ->
  startsWith s sub = startsWith piece sub.
Proof.
  induction sub as [| a sub IH]; intros s piece rest Hno Hs.
  - now destruct s, piece.
  - cbn [In] in Hno. destruct s as [| c s].
    + cbn [split] in Hs. now injection Hs as <- <-.
    + destruct (N.eq_dec c sep) as [-> | Hc].
      * cbn [split] in Hs. rewrite N.eqb_refl in Hs. injection Hs as <- <-.
        cbn [startsWith]. destruct (N.eqb_spec a sep); [tauto | reflexivity].
      * destruct (split_cons sep c s Hc) as (p & r & Hs' & Hcs).
        rewrite Hcs in Hs. injection Hs as <- <-.
        cbn [startsWith]. f_equal. apply (IH s p r); tauto.
Qed.

(** A text without line feed occurs in a content exactly when it occurs in
    one of its lines. *)
Lemma includes_split (sep : N) (sub : jsstring) : forall s,
  ~ In sep sub ->
  includes s sub = existsb (fun line => includes line sub) (split sep s).
Proof.
  intros s Hno. induction s as [| c s IH]; [cbn [split existsb]; now rewrite orb_false_r |].
  destruct (N.eq_dec c sep) as [-> | Hc].
  - cbn [split]. rewrite N.eqb_refl. cbn [existsb includes]. rewrite <- IH.
    destruct sub as [| a sub]; [reflexivity |].
    cbn [startsWith In] in *. destruct (N.eqb_spec a sep); [tauto |].
    reflexivity.
  - destruct (split_cons sep c s Hc) as (piece & rest & Hs & Hcs).
    rewrite Hcs. cbn [existsb includes].
    rewrite (startsWith_first_line sep sub (c :: s) (c :: piece) rest Hno Hcs).
    rewrite IH, Hs. cbn [existsb]. now rewrite orb_assoc.
Qed.

Lemma findIndex_spec {A} (p : A -> bool) (l : list A) :
  match findIndex p l with
  | Some i => (exists x, nth_error l i = Some x /\ p x = true)
              /\ forall j x, (j < i)%nat -> nth_error l j = Some x -> p x = false
  | None => existsb p l = false
  end.
Proof.
  induction l as [| x l IH]; cbn [findIndex existsb]; [reflexivity |].
  destruct (p x) eqn:Hx.
  - split; [exists x; auto | intros j y Hj; lia].
  - destruct (findIndex p l) as [i |]; [| exact IH].
    destruct IH as [(y & Hy & Hpy) Hbefore]. split; [exists y; auto |].
    intros [| j] z Hj; cbn [nth_error]; [now intros [= <-] |].
    apply Hbefore. lia.
Qed.

(** X12. [findLine] returns the number, counted from 1, of the first line
    that contains the search text, and 0 when no line does. For a search
    text without line feed it returns 0 exactly when the content does not
    contain the text (a text that spans lines is never found). *)
Theorem findLine_first_line (content searchText : jsstring) :
  ~ In 10%N searchText ->
  (findLine content searchText = 0%nat <-> includes content searchText = false)
  /\ forall n, findLine content searchText = S n ->
       (exists line, nth_error (split 10 content) n = Some line
                     /\ includes line searchText = true)
       /\ forall j line, (j < n)%nat -> nth_error (split 10 content) j = Some line ->
            includes line searchText = false.
Proof.
  intros Hno. unfold findLine. rewrite (includes_split 10 searchText content Hno).
  pose proof (findIndex_spec (fun line => includes line searchText) (split 10 content)) as H.
  destruct (findIndex _ (split 10 content)) as [i |].
  - destruct H as [(line & Hline & Hinc) Hbefore]. split.
    + split; [lia |]. intros Hnone. exfalso.
      assert (existsb (fun l => includes l searchText) (split 10 content) = true);
        [| congruence].
      apply existsb_exists. exists line. split; [| exact Hinc].
      eapply nth_error_In, Hline.
    + intros n Hn. replace n with i by lia. split; [now exists line | exact Hbefore].
  - split; [tauto | discriminate].
Qed.

Lemma findLine_first_line_witness :
  let content := js "import a from 'a'" ++ [10%N] ++ js "module.exports = a" ++ [10%N]
                 ++ js "module.exports.b = 1" in
  findLine content (js "module.exports") = 2%nat
  /\ (findLine content (js "require(") = 0%nat
      <-> includes content (js "require(") = false).
Proof.
  intros content. split; [reflexivity |].
  apply (findLine_first_line content (js "require(")).
  cbn. intuition discriminate.
Defined.

Lemma removelast_Forall {A} (P : A -> Prop) (l : list A) :
  Forall P l -> Forall P (removelast l).
Proof.
  induction 1 as [| x l Hx Hl IH]; [constructor |].
  destruct l as [| z l]; [constructor |].
  change (removelast (x :: z :: l)) with (x :: removelast (z :: l)).
  constructor; [exact Hx | exact IH].
Qed.

Lemma filter_Forall {A} (P : A -> Prop) (p : A -> bool) (l : list A) :
  Forall P l -> Forall (fun x => P x /\ p x = true) (List.filter p l).
Proof.
  induction 1 as [| x l Hx Hl IH]; cbn [List.filter]; [constructor |].
  destruct (p x) eqn:Hp; [constructor; auto | exact IH].
Qed.

Lemma In_removelast {A} (x : A) (l : list A) : In x (removelast l) -> In x l.
Proof.
  induction l as [| y l IH]; [cbn; tauto |].
  destruct l as [| z l]; [cbn; tauto |].
  change (removelast (y :: z :: l)) with (y :: removelast (z :: l)).
  intros [-> | H]; [now left | right; now apply IH].
Qed.

(** The directory parts the loop starts from: the non-empty pieces of the
    path of the importing file, its last piece left out. *)
Lemma directory_parts (fromPath : jsstring) :
  Forall (fun part => ~ In 47%N part /\ part <> []
                      /\ In part (removelast (split 47 fromPath)))
    (List.filter (fun p => negb (isEmpty p))
       (split 47 (join (js "/") (removelast (split 47 fromPath))))).
Proof.
  change (js "/") with [47%N].
  destruct (removelast (split 47 fromPath)) as [| d ds] eqn:Hdir; [constructor |].
  rewrite split_join; [| discriminate |].
  - assert (Hall : Forall (fun part => ~ In 47%N part /\ In part (d :: ds)) (d :: ds)).
    { apply List.Forall_forall. intros part Hin. split; [| exact Hin].
      rewrite <- Hdir in Hin. apply In_removelast in Hin.
      exact (proj1 (List.Forall_forall _ _) (split_pieces 47 fromPath) part Hin). }
    eapply List.Forall_impl; [| apply filter_Forall, Hall]. cbn beta.
    intros part [[Hno Hin] Hne]. split; [exact Hno |]. split; [| exact Hin].
    intros ->. discriminate.
  - rewrite <- Hdir. apply removelast_Forall, split_pieces.
Qed.

Lemma resolve_parts (dirs imports : list jsstring) : forall parts dirParts,
  Forall (fun part => ~ In 47%N part) parts ->
  incl parts imports ->
  Forall (fun part =>
            ~ In 47%N part
            /\ ((part <> [] /\ In part dirs)
                \/ (part <> js "." /\ part <> js ".." /\ In part imports)))
         dirParts ->
  Forall (fun part =>
            ~ In 47%N part
            /\ ((part <> [] /\ In part dirs)
                \/ (part <> js "." /\ part <> js ".." /\ In part imports)))
         (fold_left resolvePart parts dirParts).
Proof.
  induction parts as [| part parts IH]; intros dirParts Hparts Hincl Hdir;
    cbn [fold_left]; [exact Hdir |].
  inversion Hparts as [| ? ? Hpart Hrest]; subst.
  apply IH; [exact Hrest | intros p Hp; apply Hincl; now right |].
  unfold resolvePart, eqb.
  destruct (bool_decide_reflect (part = js ".")) as [Hdot | Hdot]; [exact Hdir |].
  destruct (bool_decide_reflect (part = js "..")) as [Hup | Hup].
  - now apply removelast_Forall.
  - apply Forall_app. split; [exact Hdir |]. constructor; [| constructor].
    split; [exact Hpart |]. right. split; [exact Hdot |]. split; [exact Hup |].
    apply Hincl. now left.
Qed.

(** X13. Every part of a resolved import path is a non-empty directory
    part of the importing file's path, or a part of the import path other
    than [.] and [..]; no part holds a slash. The result is those parts
    after a slash, joined by slashes: a [..] never climbs above the root,
    and the resolved path has a [.] or [..] part only if the importing
    file's path had one. *)
Theorem resolveImportPath_parts (fromPath importPath : jsstring) :
  exists parts,
    resolveImportPath fromPath importPath = js "/" ++ join (js "/") parts
    /\ Forall (fun part =>
                 ~ In 47%N part
                 /\ ((part <> [] /\ In part (removelast (split 47 fromPath)))
                     \/ (part <> js "." /\ part <> js ".."
                         /\ In part (split 47 importPath))))
              parts.
Proof.
  unfold resolveImportPath. eexists. split; [reflexivity |].
  apply resolve_parts; [apply split_pieces | apply incl_refl |].
  eapply List.Forall_impl; [| apply directory_parts]. cbn beta. tauto.
Qed.

Lemma fold_dots (k : nat) (dirParts : list jsstring) :
  fold_left resolvePart (repeat (js ".") k) dirParts = dirParts.
Proof. induction k as [| k IH]; [reflexivity | exact IH]. Qed.

Lemma removelast_firstn_sub {A} (l : list A) (n : nat) :
  removelast (firstn (length l - n) l) = firstn (length l - S n) l.
Proof.
  destruct (Nat.le_gt_cases (length l) n) as [Hle | Hgt].
  - replace (length l - n)%nat with 0%nat by lia.
    replace (length l - S n)%nat with 0%nat by lia. reflexivity.
  - replace (length l - n)%nat with (S (length l - S n)) by lia.
    apply removelast_firstn. lia.
Qed.

Lemma fold_ups (k : nat) (dirParts : list jsstring) :
  fold_left resolvePart (repeat (js "..") k) dirParts
  = firstn (length dirParts - k) dirParts.
Proof.
  induction k as [| k IH].
  - cbn [repeat fold_left]. now rewrite Nat.sub_0_r, firstn_all.
  - replace (repeat (js "..") (S k)) with (repeat (js "..") k ++ [js ".."])
      by (symmetry; apply repeat_cons).
    rewrite fold_left_app, IH. cbn [fold_left].
    change (resolvePart ?l (js "..")) with (removelast l).
    apply removelast_firstn_sub.
Qed.

Lemma fold_names (names : list jsstring) : forall dirParts : list jsstring,
  Forall (fun name => name <> js "." /\ name <> js "..") names ->
  fold_left resolvePart names dirParts = dirParts ++ names.
Proof.
  induction names as [| name names IH]; intros dirParts Hall; cbn [fold_left].
  - now rewrite app_nil_r.
  - inversion Hall as [| ? ? [Hdot Hup] Hrest]; subst.
    rewrite IH by exact Hrest. unfold resolvePart, eqb.
    rewrite (bool_decide_eq_false_2 _ Hdot), (bool_decide_eq_false_2 _ Hup).
    now rewrite <- app_assoc.
Qed.

Lemma filter_nonempty (dirs : list jsstring) :
  Forall (fun d => d <> []) dirs ->
  List.filter (fun p => negb (isEmpty p)) dirs = dirs.
Proof.
  induction 1 as [| d dirs Hd _ IH]; [reflexivity |].
  cbn [List.filter]. rewrite IH. destruct d; [congruence | reflexivity].
Qed.

Lemma removelast_snoc {A} (l : list A) (x : A) : removelast (l ++ [x]) = l.
Proof. apply removelast_last. Qed.

(** X14. Relative imports resolve as paths do. For a file [file] in the
    directory [/d1/.../dn], an import path made of [.] parts, then [k] parts
    [..], then names resolves to the directory with its last [k] parts
    dropped (all of them when [k] is larger than [n]), followed by the
    names. *)
Theorem resolveImportPath_relative
    (dirs : list jsstring) (file : jsstring) (dots ups : nat) (names : list jsstring) :
  Forall (fun d => ~ In 47%N d /\ d <> []) dirs ->
  ~ In 47%N file ->
  Forall (fun name => ~ In 47%N name /\ name <> js "." /\ name <> js "..") names ->
  (0 < dots + ups + length names)%nat ->
  resolveImportPath (js "/" ++ join (js "/") (dirs ++ [file]))
                    (join (js "/") (repeat (js ".") dots ++ repeat (js "..") ups ++ names))
  = js "/" ++ join (js "/") (firstn (length dirs - ups) dirs ++ names).
Proof.
  intros Hdirs Hfile Hnames Hsome. unfold resolveImportPath.
  change (js "/") with [47%N].
  assert (Hplain : Forall (fun d => ~ In 47%N d) dirs)
    by (eapply List.Forall_impl; [| exact Hdirs]; cbn beta; tauto).
  assert (Hne : Forall (fun d : jsstring => d <> []) dirs)
    by (eapply List.Forall_impl; [| exact Hdirs]; cbn beta; tauto).
  (* the pieces of the path of the file *)
  assert (Hfrom : split 47 ([47%N] ++ join [47%N] (dirs ++ [file])) = [] :: dirs ++ [file]).
  { replace ([47%N] ++ join [47%N] (dirs ++ [file]))
      with (join [47%N] ([] :: dirs ++ [file])) by (now destruct dirs).
    rewrite split_join; [reflexivity | discriminate |].
    constructor; [tauto |]. apply Forall_app. split; [exact Hplain | now constructor]. }
  rewrite Hfrom. clear Hfrom.
  change ([] :: dirs ++ [file]) with (([] :: dirs) ++ [file]). rewrite removelast_snoc.
  (* the directory, split again *)
  assert (Hdir : List.filter (fun p => negb (isEmpty p))
                   (split 47 (join [47%N] ([] :: dirs))) = dirs).
  { rewrite split_join; [| discriminate | constructor; [tauto | exact Hplain]].
    cbn [List.filter isEmpty negb]. now apply filter_nonempty. }
  rewrite Hdir. clear Hdir.
  (* the parts of the import path *)
  rewrite split_join.
  - rewrite !fold_left_app, fold_dots, fold_ups, fold_names; [reflexivity |].
    eapply List.Forall_impl; [| exact Hnames]. cbn beta. tauto.
  - intros Hnil. apply (f_equal (@length _)) in Hnil.
    rewrite !length_app, !repeat_length in Hnil. cbn [length] in Hnil. lia.
  - apply Forall_app. split; [| apply Forall_app; split].
    + apply List.Forall_forall. intros p Hp. apply repeat_spec in Hp. subst p.
      cbn. intuition discriminate.
    + apply List.Forall_forall. intros p Hp. apply repeat_spec in Hp. subst p.
      cbn. intuition discriminate.
    + eapply List.Forall_impl; [| exact Hnames]. cbn beta. tauto.
Qed.

(** The import of [../hooks/useCart] from [/src/components/Cart.tsx]. *)
Lemma resolveImportPath_relative_witness :
  resolveImportPath (js "/src/components/Cart.tsx") (js "../hooks/useCart")
  = js "/src/hooks/useCart".
Proof.
  apply (resolveImportPath_relative [js "src"; js "components"] (js "Cart.tsx") 0 1
           [js "hooks"; js "useCart"]).
  - repeat constructor; cbn; intuition discriminate.
  - cbn. intuition discriminate.
  - repeat constructor; cbn; intuition discriminate.
  - cbn. lia.
Defined.

End Validator.

(** * CodePreview.tsx: the files handed to the sandbox *)

Section SandpackFiles.
Import Multiline Sandpack.

Lemma startsWith_refl (s : jsstring) : startsWith s s = true.
Proof. induction s as [| c s IH]; cbn [startsWith]; [reflexivity |]. now rewrite N.eqb_refl. Qed.

Lemma startsWith_app (s p more : jsstring) :
  startsWith s p = true -> startsWith (s ++ more) p = true.
Proof.
  revert s. induction p as [| a p IH]; intros s; [now destruct s, more |].
  destruct s as [| b s]; cbn [startsWith app]; [discriminate |].
  intros [Hab Hrest]%andb_prop. rewrite Hab. now apply IH.
Qed.

Lemma startsWith_prefix (p more : jsstring) : startsWith (p ++ more) p = true.
Proof. apply startsWith_app, startsWith_refl. Qed.

Lemma normalizedPath_slash (p : jsstring) : startsWith (normalizedPath p) (js "/") = true.
Proof.
  unfold normalizedPath.
  destruct (startsWith p (js "/")) eqn:Hs; [exact Hs | apply startsWith_prefix].
Qed.

Lemma endsWith_normalizedPath (p pattern : jsstring) :
  endsWith p pattern = true -> endsWith (normalizedPath p) pattern = true.
Proof.
  unfold normalizedPath, endsWith. destruct (startsWith p (js "/")); [auto |].
  intros H. rewrite rev_app_distr. now apply startsWith_app.
Qed.

(** The two equalities of the predicate are cases of [endsWith]. *)
Lemma matchesPattern_endsWith (pattern : jsstring) (f : GeneratedFile) :
  matchesPattern pattern f = endsWith (path f) pattern.
Proof.
  unfold matchesPattern, eqb.
  destruct (bool_decide_reflect (path f = pattern)) as [-> | _].
  - cbn [orb]. unfold endsWith. now rewrite startsWith_refl.
  - destruct (bool_decide_reflect (path f = js "/" ++ pattern)) as [-> | _]; [| reflexivity].
    cbn [orb]. unfold endsWith. rewrite rev_app_distr. now rewrite startsWith_prefix.
Qed.

Lemma findEntry_spec (patterns : list jsstring) (files : list GeneratedFile) :
  match findEntry patterns files with
  | Some found =>
      In found files
      /\ exists i pattern,
           nth_error patterns i = Some pattern
           /\ endsWith (path found) pattern = true
           /\ forall j earlier f, (j < i)%nat -> nth_error patterns j = Some earlier ->
                In f files -> endsWith (path f) earlier = false
  | None =>
      forall pattern f, In pattern patterns -> In f files ->
        endsWith (path f) pattern = false
  end.
Proof.
  induction patterns as [| pattern patterns IH]; cbn [findEntry]; [intros ? ? [] |].
  destruct (List.find (matchesPattern pattern) files) as [found |] eqn:Hfind.
  - apply find_some in Hfind as [Hin Hm]. rewrite matchesPattern_endsWith in Hm.
    split; [exact Hin |]. exists 0%nat, pattern. split; [reflexivity |].
    split; [exact Hm |]. intros j earlier f Hj. lia.
  - assert (Hnone : forall f, In f files -> endsWith (path f) pattern = false).
    { intros f Hf. rewrite <- matchesPattern_endsWith.
      exact (find_none _ _ Hfind f Hf). }
    destruct (findEntry patterns files) as [found |].
    + destruct IH as (Hin & i & p & Hi & Hp & Hearlier). split; [exact Hin |].
      exists (S i), p. split; [exact Hi |]. split; [exact Hp |].
      intros [| j] earlier f Hj; cbn [nth_error].
      * intros [= <-]. apply Hnone.
      * apply Hearlier. lia.
    + intros p f [<- | Hp] Hf; [now apply Hnone | now apply IH].
Qed.

Lemma getEntryFile_entry (files : list GeneratedFile) :
  files <> [] -> exists f, In f files /\ getEntryFile files = normalizedPath (path f).
Proof.
  intros Hne. unfold getEntryFile.
  pose proof (findEntry_spec entryPatterns files) as H.
  destruct (findEntry entryPatterns files) as [found |].
  - exists found. split; [exact (proj1 H) | reflexivity].
  - destruct files as [| first rest]; [congruence |]. exists first. split; [now left | reflexivity].
Qed.

(** X15. The entry file always starts with a slash. With no files it is
    [/src/App.tsx]; otherwise it is the path of one of the files, with a
    leading slash. The patterns are tried in order, each against every file:
    when a file's path ends with one of the patterns, the entry file is a
    file whose path ends with the first such pattern, wherever it stands in
    the list of files; when no path ends with a pattern it is the first
    file. *)
Theorem getEntryFile_spec (files : list GeneratedFile) :
  startsWith (getEntryFile files) (js "/") = true
  /\ match files with
     | [] => getEntryFile files = js "/src/App.tsx"
     | first :: _ =>
         exists f, In f files /\ getEntryFile files = normalizedPath (path f)
           /\ ((exists i pattern,
                  nth_error entryPatterns i = Some pattern
                  /\ endsWith (path f) pattern = true
                  /\ forall j earlier g, (j < i)%nat ->
                       nth_error entryPatterns j = Some earlier ->
                       In g files -> endsWith (path g) earlier = false)
               \/ (f = first
                   /\ forall pattern g, In pattern entryPatterns -> In g files ->
                        endsWith (path g) pattern = false))
     end.
Proof.
  unfold getEntryFile.
  pose proof (findEntry_spec entryPatterns files) as H.
  destruct (findEntry entryPatterns files) as [found |].
  - destruct H as (Hin & Hpat). split; [apply normalizedPath_slash |].
    destruct files as [| first rest]; [destruct Hin |].
    exists found. split; [exact Hin |]. split; [reflexivity |]. now left.
  - destruct files as [| first rest]; [split; reflexivity |].
    split; [apply normalizedPath_slash |].
    exists first. split; [now left |]. split; [reflexivity |]. right. now split.
Qed.

Lemma getOwn_app {V} (k : jsstring) (l1 l2 : list (jsstring * V)) :
  getOwn k (l1 ++ l2)
  = match getOwn k l1 with Some v => Some v | None => getOwn k l2 end.
Proof.
  induction l1 as [| [k' v'] l1 IH]; cbn [app getOwn]; [reflexivity |].
  now destruct (eqb k' k).
Qed.

Lemma getOwn_setOwn {V} (k k' : jsstring) (v : V) (props : list (jsstring * V)) :
  getOwn k' (setOwn k v props)
  = if eqb k k' then match getOwn k props with Some _ => Some v | None => None end
    else getOwn k' props.
Proof.
  induction props as [| [k0 v0] props IH]; cbn [setOwn getOwn]; [now destruct (eqb k k') |].
  unfold eqb in *.
  destruct (bool_decide_reflect (k0 = k)) as [-> | Hk0]; cbn [getOwn]; unfold eqb.
  - destruct (bool_decide_reflect (k = k')) as [-> | Hk]; [reflexivity |].
    reflexivity.
  - destruct (bool_decide_reflect (k0 = k')) as [-> | Hk0'].
    + rewrite bool_decide_eq_false_2 by congruence. reflexivity.
    + exact IH.
Qed.

(** Reading back a property that was defined, and any other property. *)
Lemma getOwn_define {V} (k k' : jsstring) (v : V) (props : list (jsstring * V)) :
  getOwn k' (define k v props) = if eqb k k' then Some v else getOwn k' props.
Proof.
  destruct (getOwn k props) as [v0 |] eqn:Hk.
  - unfold define. rewrite Hk, getOwn_setOwn, Hk. reflexivity.
  - destruct (define_split k v props Hk) as (l1 & l2 & -> & ->).
    rewrite getOwn_app in Hk. rewrite !getOwn_app. cbn [getOwn]. unfold eqb.
    destruct (bool_decide_reflect (k = k')) as [<- | Hne].
    + destruct (getOwn k l1); [discriminate | reflexivity].
    + reflexivity.
Qed.

Lemma define_keys {V} (k k' : jsstring) (v : V) (props : list (jsstring * V)) :
  In k' (map fst (define k v props)) <-> k' = k \/ In k' (map fst props).
Proof.
  split; [apply define_keys_In |].
  destruct (getOwn k props) as [v0 |] eqn:Hk.
  - unfold define. rewrite Hk, setOwn_keys. intros [-> | Hin]; [| exact Hin].
    apply getOwn_Some_In in Hk. apply in_map_iff. now exists (k, v0).
  - destruct (define_split k v props Hk) as (l1 & l2 & -> & ->).
    rewrite !map_app. cbn [map fst]. rewrite !in_app_iff. cbn [In].
    intros [-> | [H | H]]; auto.
Qed.

Lemma convertFiles_spec (files : list GeneratedFile) :
  forall sandpackFiles converted,
  convertFiles files sandpackFiles = Return converted ->
  (NoDup (map fst sandpackFiles) -> NoDup (map fst converted))
  /\ (forall k, In k (map fst converted)
                <-> In k (map fst sandpackFiles)
                    \/ exists f, In f files /\ k = normalizedPath (path f))
  /\ (forall k, (forall f, In f files -> normalizedPath (path f) <> k) ->
                getOwn k converted = getOwn k sandpackFiles)
  /\ (forall before f after text,
        files = before ++ f :: after -> content f = J (JStr text) ->
        Forall (fun g => normalizedPath (path g) <> normalizedPath (path f)) after ->
        getOwn (normalizedPath (path f)) converted = Some (cleanedContent text)).
Proof.
  induction files as [| file files IH]; intros sandpackFiles converted; cbn [convertFiles].
  - intros [= <-]. split; [auto |]. split; [| split; [auto |]].
    + intros k. split; [auto |]. intros [H | (f & [] & _)]. exact H.
    + intros [| ? ?] ? ? ?; discriminate.
  - destruct (content file) as [| [| | | text | |] |] eqn:Hc; try discriminate.
    intros Hrest. destruct (IH _ _ Hrest) as (Hnd & Hkeys & Hother & Hlast). clear IH.
    split; [| split; [| split]].
    + intros H. now apply Hnd, define_NoDup.
    + intros k. rewrite Hkeys, define_keys. split.
      * intros [[-> | H] | (f & Hf & ->)]; eauto.
        -- right. exists file. split; [now left | reflexivity].
        -- right. exists f. split; [now right | reflexivity].
      * intros [H | (f & [<- | Hf] & ->)]; eauto.
    + intros k Hk. rewrite Hother by (intros f Hf; apply Hk; now right).
      rewrite getOwn_define. unfold eqb.
      rewrite bool_decide_eq_false_2; [reflexivity |]. apply Hk. now left.
    + intros before f after text' Hsplit Hf Hafter.
      destruct before as [| b before]; cbn [app] in Hsplit; injection Hsplit as <- ->.
      * rewrite Hother.
        -- rewrite getOwn_define. unfold eqb. rewrite bool_decide_eq_true_2 by reflexivity.
           congruence.
        -- intros g Hg. exact (proj1 (List.Forall_forall _ _) Hafter g Hg).
      * now apply (Hlast before f after text').
Qed.

Lemma convertFiles_returns (files : list GeneratedFile) : forall sandpackFiles,
  (exists converted, convertFiles files sandpackFiles = Return converted)
  <-> Forall (fun f => isStringValue (content f) = true) files.
Proof.
  induction files as [| file files IH]; intros sandpackFiles; cbn [convertFiles].
  - split; [constructor | eauto].
  - destruct (content file) as [| [| | | text | |] |] eqn:Hc;
      try (split; [intros [? ?]; discriminate
                  | intros H; inversion H as [| ? ? Hs _]; subst; rewrite Hc in Hs;
                    discriminate]).
    rewrite IH. split; [intros H; constructor; [now rewrite Hc | exact H] |].
    intros H. now inversion H.
Qed.

(** X16. [convertToSandpackFiles] returns exactly when every content is a
    string. Its keys are the paths of the files with a leading slash, each
    once; a path given with and without the slash is one key, and the last
    file under a key gives the content, cleaned. With files, the entry file
    is one of the keys. *)
Theorem convertToSandpackFiles_keys (files : list GeneratedFile) :
  ((exists sandpackFiles, convertToSandpackFiles files = Return sandpackFiles)
   <-> Forall (fun f => isStringValue (content f) = true) files)
  /\ forall sandpackFiles, convertToSandpackFiles files = Return sandpackFiles ->
       NoDup (map fst sandpackFiles)
       /\ (forall k, In k (map fst sandpackFiles)
                     <-> exists f, In f files /\ k = normalizedPath (path f))
       /\ (forall before f after text,
             files = before ++ f :: after -> content f = J (JStr text) ->
             Forall (fun g => normalizedPath (path g) <> normalizedPath (path f)) after ->
             getOwn (normalizedPath (path f)) sandpackFiles = Some (cleanedContent text))
       /\ (files <> [] -> In (getEntryFile files) (map fst sandpackFiles)).
Proof.
  split; [apply convertFiles_returns |].
  intros sandpackFiles Hconv.
  destruct (convertFiles_spec files [] sandpackFiles Hconv) as (Hnd & Hkeys & _ & Hlast).
  assert (Hk : forall k, In k (map fst sandpackFiles)
                         <-> exists f, In f files /\ k = normalizedPath (path f)).
  { intros k. rewrite Hkeys. cbn [map In]. tauto. }
  split; [apply Hnd; constructor |]. split; [exact Hk |]. split; [exact Hlast |].
  intros Hne. apply Hk.
  destruct (getEntryFile_entry files Hne) as (f & Hf & ->). eauto.
Qed.

(** The same file under [src/App.tsx] and [/src/App.tsx]: one key, the
    content of the second. *)
Lemma convertToSandpackFiles_keys_witness :
  convertToSandpackFiles
    [{| path := js "src/App.tsx"; content := J (JStr (js "old")) |};
     {| path := js "/src/App.tsx"; content := J (JStr (js " new ")) |}]
  = Return [(js "/src/App.tsx", js "new")]
  /\ In (js "/src/App.tsx") (map fst [(js "/src/App.tsx", js "new")]).
Proof.
  split; [reflexivity |].
  destruct (convertToSandpackFiles_keys
              [{| path := js "src/App.tsx"; content := J (JStr (js "old")) |};
               {| path := js "/src/App.tsx"; content := J (JStr (js " new ")) |}])
    as [_ Hkeys].
  destruct (Hkeys [(js "/src/App.tsx", js "new")] eq_refl) as (_ & _ & _ & Hentry).
  apply Hentry. discriminate.
Defined.

(** ** The cleaning of the contents *)

Lemma includes_cons_false (a : N) (l : jsstring) : forall s,
  includes s l = false -> includes s (a :: l) = false.
Proof.
  induction s as [| c s IH]; intros H.
  - reflexivity.
  - destruct (includes_false_inv _ _ H) as [_ Htail].
    cbn [includes startsWith]. rewrite (IH Htail), orb_false_r.
    destruct (includes_false_inv _ _ Htail) as [Hs _]. rewrite Hs. apply andb_false_r.
Qed.

Lemma mexec_MLit_None (l : jsstring) (r : list matom) (prev : option N) (s : jsstring) :
  startsWith s l = false -> mexec (MLit l :: r) prev s = None.
Proof. intros H. cbn [mexec]. now rewrite stripLit_startsWith. Qed.

Lemma mexec_LineStart_MLit_None (l : jsstring) (r : list matom) (prev : option N)
    (s : jsstring) :
  startsWith s l = false -> mexec (MLineStart :: MLit l :: r) prev s = None.
Proof.
  intros H. cbn [mexec]. rewrite stripLit_startsWith by exact H.
  now destruct (atLineStart prev).
Qed.

(** An expression that cannot match where its literal does not start cuts
    nothing out of a text that does not contain the literal. *)
Lemma removeAll_absent (r : list matom) (l : jsstring) :
  (forall prev s, startsWith s l = false -> mexec r prev s = None) ->
  forall s prev, includes s l = false -> removeAll r prev 0 s = s.
Proof.
  intros Hr. induction s as [| c s IH]; intros prev Hinc; [reflexivity |].
  destruct (includes_false_inv _ _ Hinc) as [Hs Hrest].
  cbn [removeAll]. rewrite (Hr prev (c :: s) Hs). f_equal. now apply IH.
Qed.

Lemma removeFences_absent (content : jsstring) :
  includes content (js "```") = false -> removeFences content = content.
Proof.
  intros H. unfold removeFences.
  rewrite (removeAll_absent reFenceOpenLine (js "```"))
    by (exact H || (intros; now apply mexec_LineStart_MLit_None)).
  rewrite (removeAll_absent reFenceCloseLine (10%N :: js "```"))
    by (now apply includes_cons_false || (intros; now apply mexec_MLit_None)).
  rewrite (removeAll_absent reFenceTail (js "```"))
    by (exact H || (intros; now apply mexec_MLit_None)).
  apply (removeAll_absent reFenceHead (js "```"));
    [intros; now apply mexec_LineStart_MLit_None | exact H].
Qed.

Lemma removeArtifacts_absent (content : jsstring) :
  includes content (js "<ctrl") = false ->
  includes content (js "<end>") = false ->
  includes content (js "<start>") = false ->
  removeArtifacts content = content.
Proof.
  intros H1 H2 H3. unfold removeArtifacts.
  rewrite (removeAll_absent reCtrl (js "<ctrl"))
    by (exact H1 || (intros; now apply mexec_MLit_None)).
  rewrite (removeAll_absent [MLit (js "<end>")] (js "<end>"))
    by (exact H2 || (intros; now apply mexec_MLit_None)).
  apply (removeAll_absent [MLit (js "<start>")] (js "<start>"));
    [intros; now apply mexec_MLit_None | exact H3].
Qed.

(** X17. A content without three backticks in a row and without the
    artifacts [<ctrl], [<end>] and [<start>] reaches the sandbox as it is,
    but for the white space at its ends. *)
Theorem clean_content_is_kept (content : jsstring) :
  includes content (js "```") = false ->
  includes content (js "<ctrl") = false ->
  includes content (js "<end>") = false ->
  includes content (js "<start>") = false ->
  cleanedContent content = trim content.
Proof.
  intros Hf H1 H2 H3. unfold cleanedContent.
  rewrite removeFences_absent by exact Hf.
  now rewrite removeArtifacts_absent.
Qed.

Lemma clean_content_is_kept_witness :
  cleanedContent (js "export default function App() { return <div>`a``b`</div> }"
                  ++ [10%N])
  = js "export default function App() { return <div>`a``b`</div> }".
Proof.
  rewrite clean_content_is_kept; reflexivity.
Defined.

Lemma last_cons_default {A} (x d : A) (l : list A) :
  List.last (x :: l) d = List.last l x.
Proof.
  revert x d. induction l as [| y l IH]; intros x d; [reflexivity |].
  change (List.last (x :: y :: l) d) with (List.last (y :: l) d).
  now rewrite !IH.
Qed.

Lemma repeatGreedy_run (cls : N -> bool) (k : option N -> jsstring -> option jsstring)
    (plus : bool) (rest : jsstring) (x : jsstring) :
  match rest with [] => True | c :: _ => cls c = false end ->
  forall taken_run taken prev,
  forallb cls taken_run = true ->
  plus && negb (taken || negb (isEmpty taken_run)) = false ->
  k (List.last (map Some taken_run) prev) rest = Some x ->
  repeatGreedy cls k plus taken prev (taken_run ++ rest) = Some x.
Proof.
  intros Hrest units.
  induction units as [| c units IH]; intros taken prev Hrun Hplus Hk.
  - cbn [app map List.last isEmpty negb] in *. rewrite orb_false_r in Hplus.
    destruct rest as [| c rest]; cbn [repeatGreedy]; [now rewrite Hplus |].
    now rewrite Hrest, Hplus.
  - cbn [forallb] in Hrun. apply andb_prop in Hrun as [Hc Hrun].
    cbn [app repeatGreedy]. rewrite Hc.
    rewrite (IH true (Some c)); [reflexivity | exact Hrun | | ].
    + cbn [orb negb]. apply andb_false_r.
    + cbn [map] in Hk. now rewrite last_cons_default in Hk.
Qed.

Lemma removeAll_match (r : list matom) (prev : option N) (c : N) (s rest : jsstring) :
  mexec r prev (c :: s) = Some rest ->
  removeAll r prev 0 (c :: s)
  = removeAll r (Some c) (length (c :: s) - length rest - 1) s.
Proof. intros H. cbn [removeAll]. now rewrite H. Qed.

Lemma removeAll_miss (r : list matom) (prev : option N) (c : N) (s : jsstring) :
  mexec r prev (c :: s) = None ->
  removeAll r prev 0 (c :: s) = c :: removeAll r (Some c) 0 s.
Proof. intros H. cbn [removeAll]. now rewrite H. Qed.

Lemma removeAll_skip (r : list matom) (s : jsstring) : forall (u : jsstring) (prev : option N),
  removeAll r prev (length u) (u ++ s) = removeAll r (List.last (map Some u) prev) 0 s.
Proof.
  induction u as [| c u IH]; intros prev.
  - cbn [length app map List.last]. now destruct s.
  - cbn [length app removeAll map]. rewrite IH. now rewrite last_cons_default.
Qed.

(** Where no match starts, the text is kept. *)
Lemma removeAll_through (r : list matom) (s2 : jsstring) : forall (s1 : jsstring),
  (forall prev v w, s1 = v ++ w -> w <> [] -> mexec r prev (w ++ s2) = None) ->
  forall prev,
  removeAll r prev 0 (s1 ++ s2) = s1 ++ removeAll r (List.last (map Some s1) prev) 0 s2.
Proof.
  induction s1 as [| c s1 IH]; intros Hno prev; [reflexivity |].
  pose proof (Hno prev [] (c :: s1) eq_refl ltac:(discriminate)) as Hhere.
  cbn [app] in Hhere. cbn [app removeAll]. rewrite Hhere.
  f_equal. cbn [map]. rewrite last_cons_default. apply IH.
  intros prev' v w -> Hw. now apply (Hno prev' (c :: v) w).
Qed.

Lemma startsWith_head_differs (c a : N) (s l : jsstring) :
  c <> a -> startsWith (c :: s) (a :: l) = false.
Proof. intros H. cbn [startsWith]. destruct (N.eqb_spec a c); [congruence | reflexivity]. Qed.

Lemma suffix_head (code v w more : jsstring) (P : N -> Prop) :
  Forall P code -> code = v ++ w -> w <> [] ->
  exists c w', w ++ more = c :: w' ++ more /\ w = c :: w' /\ P c /\ Forall P w'.
Proof.
  intros Hall -> Hw. apply Forall_app in Hall as [_ Hall].
  destruct w as [| c w']; [congruence |]. inversion Hall; subst. now exists c, w'.
Qed.

(** X18. An answer handed over as one fenced block is unwrapped: the
    opening fence with its language tag and the closing fence are cut out,
    the code between them is kept, trimmed. The code holds no backtick and
    none of the artifacts. *)
Theorem fenced_block_is_unwrapped (lang code : jsstring) :
  forallb isWord lang = true ->
  Forall (fun c => c <> 96%N) code ->
  includes code (js "<ctrl") = false ->
  includes code (js "<end>") = false ->
  includes code (js "<start>") = false ->
  cleanedContent (js "```" ++ lang ++ [10%N] ++ code ++ [10%N] ++ js "```") = trim code.
Proof.
  intros Hlang Hcode H1 H2 H3.
  assert (Hticks : includes code (js "```") = false).
  { clear -Hcode. induction Hcode as [| c code Hc _ IH]; [reflexivity |].
    cbn [includes]. rewrite IH, orb_false_r. now apply startsWith_head_differs. }
  assert (Hfence : removeFences (js "```" ++ lang ++ [10%N] ++ code ++ [10%N] ++ js "```")
                   = code).
  { unfold removeFences.
    (* the opening fence *)
    set (tail := code ++ [10%N] ++ js "```").
    assert (Hopen : removeAll reFenceOpenLine None 0 (js "```" ++ lang ++ [10%N] ++ tail)
                    = tail).
    { assert (Hm : mexec reFenceOpenLine None
                     (96%N :: [96%N; 96%N] ++ lang ++ [10%N] ++ tail) = Some tail).
      { change (mexec reFenceOpenLine None (96%N :: [96%N; 96%N] ++ lang ++ [10%N] ++ tail))
          with (repeatGreedy isWord (mexec [MLit [10%N]]) false false (Some 96%N)
                  (lang ++ [10%N] ++ tail)).
        apply repeatGreedy_run; [reflexivity | exact Hlang | reflexivity | reflexivity]. }
      change (js "```" ++ lang ++ [10%N] ++ tail)
        with (96%N :: [96%N; 96%N] ++ lang ++ [10%N] ++ tail).
      rewrite (removeAll_match _ _ _ _ _ Hm).
      replace (length (96%N :: [96%N; 96%N] ++ lang ++ [10%N] ++ tail) - length tail - 1)%nat
        with (length ([96%N; 96%N] ++ lang ++ [10%N]))
        by (cbn [length app]; rewrite !length_app; cbn [length]; lia).
      replace ([96%N; 96%N] ++ lang ++ [10%N] ++ tail)
        with (([96%N; 96%N] ++ lang ++ [10%N]) ++ tail)
        by (now rewrite <- !app_assoc).
      rewrite removeAll_skip. unfold tail. rewrite removeAll_through.
      - f_equal.
        generalize (List.last (map Some code)
                      (List.last (map Some ([96%N; 96%N] ++ lang ++ [10%N])) (Some 96%N))).
        intros p. change ([10%N] ++ js "```") with (10%N :: js "```").
        rewrite removeAll_miss by (now apply mexec_LineStart_MLit_None).
        reflexivity.
      - intros prev v w Hv Hw.
        destruct (suffix_head code v w ([10%N] ++ js "```") _ Hcode Hv Hw)
          as (c & w' & -> & _ & Hc & _).
        apply mexec_LineStart_MLit_None. now apply startsWith_head_differs. }
    rewrite Hopen. clear Hopen.
    (* the closing fence *)
    assert (Hclose : removeAll reFenceCloseLine None 0 tail = code).
    { unfold tail. rewrite removeAll_through.
      - transitivity (code ++ []); [| apply app_nil_r]. f_equal.
      - intros prev v w Hv Hw.
        destruct (suffix_head code v w ([10%N] ++ js "```") _ Hcode Hv Hw)
          as (c & w' & -> & _ & Hc & Hw').
        apply mexec_MLit_None. cbn [startsWith].
        destruct (10 =? c)%N; [| reflexivity]. cbn [andb].
        destruct Hw' as [| c' w'' Hc' _]; [reflexivity |].
        now apply startsWith_head_differs. }
    rewrite Hclose. clear Hclose.
    rewrite (removeAll_absent reFenceTail (js "```"))
      by (exact Hticks || (intros; now apply mexec_MLit_None)).
    apply (removeAll_absent reFenceHead (js "```"));
      [intros; now apply mexec_LineStart_MLit_None | exact Hticks]. }
  unfold cleanedContent. rewrite Hfence. now rewrite removeArtifacts_absent.
Qed.

Lemma fenced_block_is_unwrapped_witness :
  cleanedContent (js "```tsx" ++ [10%N] ++ js "export default () => <p>Hi</p>" ++ [10%N]
                  ++ [10%N] ++ js "```")
  = js "export default () => <p>Hi</p>".
Proof.
  refine (eq_trans (fenced_block_is_unwrapped (js "tsx")
                      (js "export default () => <p>Hi</p>" ++ [10%N]) _ _ _ _ _) _).
  - reflexivity.
  - repeat constructor; discriminate.
  - reflexivity.
  - reflexivity.
  - reflexivity.
  - reflexivity.
Defined.

End SandpackFiles.

(** * sandboxErrorFixerService.js *)

Lemma includes_suffix (pre l : jsstring) (s : jsstring) :
  includes s (pre ++ l) = true -> includes s l = true.
Proof.
  induction pre as [| a pre IH]; [auto |].
  intros H. apply IH. destruct (includes s (pre ++ l)) eqn:Hp; [reflexivity |].
  cbn [app] in H. now rewrite includes_cons_false in H.
Qed.

(** X19. [categorizeError] on an error text. The type is unknown exactly
    when the text contains none of [SyntaxError], [Module not found] and
    [Cannot find module]; a text with [CssSyntaxError] is a CSS syntax
    error, and any other text with [SyntaxError] a JavaScript one. The
    severity is high for the syntax errors and [Module not found], medium
    otherwise. The file is the one [extractFileFromError] finds, except for
    an unknown error, which never names a file. *)
Theorem categorizeError_spec (errorStr : jsstring) :
  let c := SandboxErrorFixerService.categorizeError errorStr in
  (SandboxErrorFixerService.type c = SandboxErrorFixerService.UNKNOWN_ERROR
   <-> includes errorStr (js "SyntaxError") = false
       /\ includes errorStr (js "Module not found") = false
       /\ includes errorStr (js "Cannot find module") = false)
  /\ (SandboxErrorFixerService.type c = SandboxErrorFixerService.CSS_SYNTAX_ERROR
      <-> includes errorStr (js "CssSyntaxError") = true)
  /\ (SandboxErrorFixerService.type c = SandboxErrorFixerService.JS_SYNTAX_ERROR
      <-> includes errorStr (js "SyntaxError") = true
          /\ includes errorStr (js "CssSyntaxError") = false)
  /\ (SandboxErrorFixerService.severity c = SandboxErrorFixerService.high
      <-> includes errorStr (js "SyntaxError") = true
          \/ includes errorStr (js "Module not found") = true)
  /\ SandboxErrorFixerService.file c
     = match SandboxErrorFixerService.type c with
       | SandboxErrorFixerService.UNKNOWN_ERROR => None
       | _ => extractFileFromError errorStr
       end.
Proof.
  cbn zeta. unfold SandboxErrorFixerService.categorizeError.
  pose proof (includes_suffix (js "Css") (js "SyntaxError") errorStr) as Hcss.
  change (js "Css" ++ js "SyntaxError") with (js "CssSyntaxError") in Hcss.
  destruct (includes errorStr (js "CssSyntaxError")) eqn:H1.
  - rewrite (Hcss eq_refl). cbn. intuition (discriminate || auto).
  - clear Hcss. destruct (includes errorStr (js "SyntaxError")) eqn:H2;
      [cbn; intuition (discriminate || auto) |].
    destruct (includes errorStr (js "Module not found")) eqn:H3;
      [cbn; intuition (discriminate || auto) |].
    destruct (includes errorStr (js "Cannot find module")) eqn:H4;
      cbn; intuition (discriminate || auto).
Qed.

Lemma plain_extractExplanation_truthy (response : jsstring) :
  truthyJson (SandboxErrorFixerService.extractExplanation response) = true.
Proof.
  unfold SandboxErrorFixerService.extractExplanation.
  destruct (matchText reObject response) as [jsonMatch |]; [| reflexivity].
  destruct (parse jsonMatch) as [parsed | e]; [| reflexivity].
  destruct (getField parsed (js "explanation")) as [[| ex |] | e]; try reflexivity.
  destruct (truthyJson ex) eqn:Ht; [exact Ht | reflexivity].
Qed.

Lemma plain_fallbackFiles_invariant (response : jsstring) :
  NoDup (map fst (SandboxErrorFixerService.fallbackFiles response))
  /\ Forall (fun kv => fst kv <> js "__proto__"
                       /\ exists t, snd kv = JStr t /\ trim t = t)
            (SandboxErrorFixerService.fallbackFiles response).
Proof.
  unfold SandboxErrorFixerService.fallbackFiles.
  assert (H : forall ms props,
            NoDup (map fst props)
            /\ Forall (fun kv => fst kv <> js "__proto__"
                                 /\ exists t, snd kv = JStr t /\ trim t = t) props ->
            let props' :=
              fold_left (fun fixedFiles m =>
                           assign (trim (group 2 m))
                             (JStr (SandboxErrorFixerService.cleanContent (trim (group 5 m))))
                             fixedFiles)
                        ms props in
            NoDup (map fst props')
            /\ Forall (fun kv => fst kv <> js "__proto__"
                                 /\ exists t, snd kv = JStr t /\ trim t = t) props').
  { induction ms as [| m ms IH]; intros props Hinv; cbn [fold_left]; [exact Hinv |].
    apply IH, assign_invariant; [exact Hinv | apply trim_idempotent]. }
  apply H. split; constructor.
Qed.

(** X20. [fixSandboxErrors] reports success whenever the model call
    completes, whatever the answer, with a truthy patch and a truthy
    explanation; it reports a failure only when the model call fails, with
    the message of its error. Without a JSON text with a truthy [files], the
    patch is read from the [FILE:] blocks: a plain object with distinct
    keys, never [__proto__], whose contents are strings without white space
    at either end; it is empty when the answer has no [FILE:] marker. *)
Theorem plain_fixer_reports_success (oracle : OracleOutcome) :
  match SandboxErrorFixerService.fixSandboxErrors oracle with
  | SandboxErrorFixerService.Fixed fixedFiles explanation =>
      exists response,
        oracle = Streams response
        /\ truthyJson fixedFiles = true /\ truthyJson explanation = true
        /\ (structuredFiles response = None ->
            exists props,
              fixedFiles = JObj props
              /\ NoDup (map fst props)
              /\ Forall (fun kv => fst kv <> js "__proto__"
                                   /\ exists text, snd kv = JStr text /\ trim text = text)
                        props
              /\ (includes response (js "FILE:") = false -> props = []))
  | SandboxErrorFixerService.NotFixed error =>
      exists err, oracle = Fails err /\ error = errMessage err
  end.
Proof.
  destruct oracle as [response | err]; cbn [SandboxErrorFixerService.fixSandboxErrors];
    [| eauto].
  exists response. split; [reflexivity |].
  split; [| split; [apply plain_extractExplanation_truthy |]].
  - unfold SandboxErrorFixerService.parseFixedFiles.
    destruct (structuredFiles response) as [files |] eqn:Hs; [| reflexivity].
    eapply structuredFiles_truthy, Hs.
  - intros Hs. unfold SandboxErrorFixerService.parseFixedFiles. rewrite Hs.
    destruct (plain_fallbackFiles_invariant response) as [Hnd Hall].
    eexists. split; [reflexivity |]. split; [exact Hnd |]. split; [exact Hall |].
    intros Hmark.
    unfold SandboxErrorFixerService.fallbackFiles, SandboxErrorFixerService.reFileBlock.
    now rewrite execAll_Lit_absent.
Qed.

(** * The stop flag after a cancellation *)

(** X23. No call of [handleSandboxError] clears the stop flag. A call made
    while the flag is set shows no progress and hands no files over; when
    the request is answered the loop ends before its first read, whatever
    the stream would bring, and the call ends as cancelled, without an
    error toast. *)
Theorem stop_is_permanent (files : list GeneratedFile) (apiSettings : bool) (fetch : Fetch) :
  let o := handleSandboxError files true apiSettings fetch in
  stopped o = true
  /\ merged (exit o) = false
  /\ shown o = []
  /\ forall reads, apiSettings = true -> fetch = Responded true reads ->
       exit o = Cancelled
       /\ terminal o = Some Aborted
       /\ toasts o = [ToastInfo (js "AI is analyzing and fixing the error...")].
Proof.
  cbn zeta. unfold handleSandboxError.
  destruct apiSettings; cbn [negb].
  - destruct fetch as [e | | [|] reads | [|] reads]; cbn [caught stopped exit shown merged];
      try (repeat split; intros; discriminate);
      destruct reads; cbn [readLoop applyFinalResult stopped exit shown merged];
      (split; [reflexivity |]); (split; [reflexivity |]); (split; [reflexivity |]);
      intros reads' _ Hf; try discriminate; repeat split.
  - cbn. repeat split; intros; discriminate.
Qed.

(** * The blocks of the fallback parser *)

Section Blocks.
Import SmartSandboxErrorFixerService.

Lemma exec_at_Rep (greedy plus : bool) (cls : N -> bool) (r : list atom) (s : jsstring) :
  exec_at (Rep greedy plus cls :: r) s = repLoop greedy plus cls (continueWith r) [] s.
Proof.
  cbn [exec_at]. generalize (@nil N) as taken.
  induction s as [| c s IH]; intros taken; [reflexivity |].
  cbn [repLoop]. rewrite <- IH. reflexivity.
Qed.

(** A greedy repetition prefers the longest run: what the expression finds
    after a longer run is the result. *)
Lemma repLoop_greedy_descend (plus : bool) (cls : N -> bool)
    (k : jsstring -> jsstring -> option (list jsstring * jsstring)) :
  forall u taken s x,
    forallb cls u = true ->
    repLoop true plus cls k (rev u ++ taken) s = Some x ->
    repLoop true plus cls k taken (u ++ s) = Some x.
Proof.
  induction u as [| c u IH]; intros taken s x Hu H; [exact H |].
  cbn [forallb] in Hu. apply andb_prop in Hu as [Hc Hu].
  cbn [app repLoop]. rewrite Hc. rewrite (IH (c :: taken) s x Hu); [reflexivity |].
  cbn [rev] in H. rewrite <- app_assoc in H. exact H.
Qed.

(** A greedy repetition fails when the rest of the expression fails after
    every run. *)
Lemma repLoop_greedy_None (plus : bool) (cls : N -> bool)
    (k : jsstring -> jsstring -> option (list jsstring * jsstring)) :
  forall s taken,
    (forall u s', s = u ++ s' -> forallb cls u = true -> k (rev taken ++ u) s' = None) ->
    repLoop true plus cls k taken s = None.
Proof.
  induction s as [| c s IH]; intros taken Hk.
  - cbn [repLoop]. destruct (plus && isEmpty taken); [reflexivity |].
    rewrite <- (app_nil_r (rev taken)). now apply Hk.
  - cbn [repLoop]. destruct (cls c) eqn:Hc.
    + rewrite IH.
      * destruct (plus && isEmpty taken); [reflexivity |].
        rewrite <- (app_nil_r (rev taken)). now apply Hk.
      * intros u s' -> Hu. cbn [rev]. rewrite <- app_assoc. cbn [app].
        apply Hk; [reflexivity |]. cbn [forallb]. now rewrite Hc.
    + destruct (plus && isEmpty taken); [reflexivity |].
      rewrite <- (app_nil_r (rev taken)). now apply Hk.
Qed.

(** A lazy repetition stops at the first place where the rest of the
    expression matches. *)
Lemma repLoop_lazy_until
    (k : jsstring -> jsstring -> option (list jsstring * jsstring)) (tail : jsstring) :
  forall c taken x,
    (forall v w, c = v ++ w -> w <> [] -> k (rev taken ++ v) (w ++ tail) = None) ->
    k (rev taken ++ c) tail = Some x ->
    repLoop false false anyChar k taken (c ++ tail) = Some x.
Proof.
  induction c as [| a c IH]; intros taken x Hno Hk.
  - rewrite app_nil_r in Hk. cbn [app].
    destruct tail; cbn [repLoop andb]; now rewrite Hk.
  - cbn [app repLoop andb].
    pose proof (Hno [] (a :: c) eq_refl ltac:(discriminate)) as Hhere.
    rewrite app_nil_r in Hhere. cbn [app] in Hhere. rewrite Hhere.
    unfold anyChar at 1. apply IH.
    + intros v w -> Hw. cbn [rev]. rewrite <- app_assoc. cbn [app].
      now apply (Hno (a :: v) w).
    + cbn [rev]. rewrite <- app_assoc. exact Hk.
Qed.

Lemma stripLit_prefix (l s : jsstring) : stripLit (fun c => c) l (l ++ s) = Some (l, s).
Proof.
  induction l as [| a l IH]; cbn [stripLit app]; [reflexivity |].
  now rewrite N.eqb_refl, IH.
Qed.

Lemma startsWith_longer (l more : jsstring) : forall s,
  startsWith s l = false -> startsWith s (l ++ more) = false.
Proof.
  induction l as [| a l IH]; intros s H; [now destruct s |].
  destruct s as [| b s]; cbn [startsWith app] in *; [reflexivity |].
  destruct (a =? b)%N; [now apply IH | reflexivity].
Qed.

Lemma includes_app_r (l : jsstring) : forall v s,
  includes (v ++ s) l = false -> includes s l = false.
Proof.
  induction v as [| a v IH]; intros s H; [exact H |].
  apply IH. now destruct (includes_false_inv _ _ H).
Qed.

(** Where a text without [===] meets what follows it, no [===] starts
    inside the text. *)
Lemma marker_not_here (w tail : jsstring) :
  w <> [] ->
  startsWith (w ++ js "==") (js "===") = false ->
  tail = [] \/ startsWith tail (js "===") = true ->
  startsWith (w ++ tail) (js "===") = false.
Proof.
  intros Hw Hno [-> | Ht].
  - rewrite app_nil_r. destruct (startsWith w (js "===")) eqn:H; [| reflexivity].
    now rewrite (startsWith_app _ _ (js "==") H) in Hno.
  - change (js "===") with [61; 61; 61]%N in *. change (js "==") with [61; 61]%N in *.
    destruct tail as [| a [| b [| c t]]]; cbn [startsWith] in Ht; try discriminate;
      try (destruct (61 =? a)%N; discriminate);
      try (destruct (61 =? a)%N, (61 =? b)%N; discriminate).
    apply andb_prop in Ht as [Ha Ht]. apply andb_prop in Ht as [Hb Ht].
    apply andb_prop in Ht as [Hc _].
    apply N.eqb_eq in Ha, Hb, Hc. subst a b c.
    destruct w as [| x [| y [| z w]]]; [congruence | | |];
      cbn [app startsWith] in *; [exact Hno | exact Hno |].
    now destruct (w ++ [61; 61]%N), (w ++ 61 :: 61 :: 61 :: t)%N.
Qed.

Lemma suffix_no_marker (c v w tail : jsstring) :
  includes (c ++ js "==") (js "===") = false ->
  tail = [] \/ startsWith tail (js "===") = true ->
  c = v ++ w -> w <> [] ->
  startsWith (w ++ tail) (js "===") = false.
Proof.
  intros Hc Ht -> Hw. apply marker_not_here; [exact Hw | | exact Ht].
  rewrite <- app_assoc in Hc. apply includes_app_r in Hc.
  now destruct (includes_false_inv _ _ Hc).
Qed.

Lemma exec_ahead (l piece s : jsstring) :
  continueWith [AheadLitOrEnd l] piece s
  = if startsWith s l || isEmpty s then Some ([piece; []], s) else None.
Proof.
  unfold continueWith. cbn [exec_at]. now destruct (startsWith s l || isEmpty s).
Qed.

(** [([\s\S]*?)(?====|$)] reads a text without [===] up to the next [===] or
    the end. *)
Lemma exec_content (c tail : jsstring) :
  includes (c ++ js "==") (js "===") = false ->
  tail = [] \/ startsWith tail (js "===") = true ->
  exec_at [Rep false false anyChar; AheadLitOrEnd (js "===")] (c ++ tail)
  = Some ([c; []], tail).
Proof.
  intros Hc Ht. rewrite exec_at_Rep. apply repLoop_lazy_until.
  - intros v w Hsplit Hw. rewrite exec_ahead.
    rewrite (suffix_no_marker c v w tail Hc Ht Hsplit Hw).
    destruct w; [congruence | reflexivity].
  - rewrite exec_ahead. cbn [rev app].
    destruct Ht as [-> | ->]; [reflexivity | reflexivity].
Qed.

Lemma exec_from_marker (c tail : jsstring) :
  includes (c ++ js "==") (js "===") = false ->
  tail = [] \/ startsWith tail (js "===") = true ->
  exec_at [Rep true false isSpace; Lit (js "===" ++ [10%N]);
           Rep false false anyChar; AheadLitOrEnd (js "===")]
          ((js "===" ++ [10%N]) ++ c ++ tail)
  = Some ([[]; js "===" ++ [10%N]; c; []], tail).
Proof.
  intros Hc Ht. rewrite exec_at_Rep.
  change ((js "===" ++ [10%N]) ++ c ++ tail) with (61%N :: ([61; 61; 10]%N ++ c ++ tail)).
  cbn [repLoop]. change (isSpace 61) with false. cbn [andb rev].
  unfold continueWith at 1.
  change (61%N :: ([61; 61; 10]%N ++ c ++ tail)) with ((js "===" ++ [10%N]) ++ c ++ tail).
  cbn [exec_at]. rewrite stripLit_prefix.
  change (exec_at [Rep false false anyChar; AheadLitOrEnd (js "===")] (c ++ tail))
    with (exec_at [Rep false false anyChar; AheadLitOrEnd (js "===")] (c ++ tail)).
  pose proof (exec_content c tail Hc Ht) as H. cbn [exec_at] in H. rewrite H.
  reflexivity.
Qed.

Lemma trim_head (s : jsstring) :
  match trim s with [] => True | c :: _ => isSpace c = false end.
Proof.
  unfold trim.
  pose proof (dropWhile_head isSpace s) as Hhd.
  destruct (dropWhile isSpace s) as [| c d]; [exact I |].
  cbn [rev]. rewrite dropWhile_snoc by exact Hhd.
  rewrite rev_app_distr. exact Hhd.
Qed.

Lemma headerPath_inv (p : jsstring) :
  headerPath p = true ->
  forallb (notChar 10) p = true
  /\ trim p = p
  /\ exists p0 p', p = p0 :: p' /\ isSpace p0 = false.
Proof.
  unfold headerPath, eqb. intros [[Hline Hne]%andb_prop Htrim]%andb_prop.
  apply bool_decide_eq_true in Htrim.
  split; [exact Hline |]. split; [exact Htrim |].
  pose proof (trim_head p) as Hhd. rewrite Htrim in Hhd.
  destruct p as [| p0 p']; [discriminate |]. now exists p0, p'.
Qed.

Lemma trim_header_path (p : jsstring) :
  headerPath p = true -> trim (p ++ js " ") = p.
Proof.
  intros (_ & Htrim & p0 & p' & -> & Hp0)%headerPath_inv.
  rewrite <- Htrim at 2. unfold trim.
  rewrite (dropWhile_fixed isSpace ((p0 :: p') ++ js " ")) by exact Hp0.
  rewrite (dropWhile_fixed isSpace (p0 :: p')) by exact Hp0.
  rewrite rev_app_distr. reflexivity.
Qed.

Lemma takeWhile_dropWhile (p : N -> bool) (s : jsstring) :
  s = takeWhile p s ++ dropWhile p s /\ forallb p (takeWhile p s) = true.
Proof.
  induction s as [| c s [IH1 IH2]]; cbn [takeWhile dropWhile]; [now split |].
  destruct (p c) eqn:Hc; cbn [app forallb]; [| now split].
  rewrite Hc, IH2. split; [now rewrite <- IH1 | reflexivity].
Qed.

Lemma markerFree_inv (c : jsstring) :
  markerFree c = true ->
  includes (c ++ js "==") (js "===") = false
  /\ exists a x b, c = a ++ x :: b /\ forallb isSpace a = true /\ isSpace x = false.
Proof.
  unfold markerFree. intros [Hno Hne]%andb_prop.
  split; [now destruct (includes (c ++ js "==") (js "===")) |].
  destruct (takeWhile_dropWhile isSpace c) as [Hsplit Hall].
  pose proof (dropWhile_head isSpace c) as Hhd.
  unfold trim in Hne.
  destruct (dropWhile isSpace c) as [| x b]; [discriminate |].
  now exists (takeWhile isSpace c), x, b.
Qed.

(** A run of a class that stops before a code unit outside the class. *)
Lemma run_before (cls : N -> bool) (x : N) (q : jsstring) : forall u s' a,
  u ++ s' = a ++ x :: q -> forallb cls u = true -> cls x = false ->
  exists v, a = u ++ v /\ s' = v ++ x :: q.
Proof.
  induction u as [| c u IH]; intros s' a Heq Hu Hx.
  - exists a. now split.
  - cbn [forallb] in Hu. apply andb_prop in Hu as [Hc Hu].
    destruct a as [| a0 a]; cbn [app] in Heq.
    + injection Heq as -> _. congruence.
    + injection Heq as -> Heq. destruct (IH s' a Heq Hu Hx) as (v & -> & ->).
      now exists v.
Qed.

(** After the whole header line the expression cannot go on: the content
    is not reached by white space alone. *)
Lemma exec_after_line (c tail : jsstring) (r : list atom) :
  markerFree c = true ->
  tail = [] \/ startsWith tail (js "===") = true ->
  exec_at (Rep true false isSpace :: Lit (js "===" ++ [10%N]) :: r)
          (10%N :: c ++ tail) = None.
Proof.
  intros (Hc & a & x & b & Hsplit & Ha & Hx)%markerFree_inv Ht.
  rewrite exec_at_Rep. apply repLoop_greedy_None.
  intros u s' Heq Hu. unfold continueWith.
  rewrite exec_at_Lit_None; [reflexivity |].
  apply startsWith_longer.
  assert (Heq' : u ++ s' = (10%N :: a) ++ x :: (b ++ tail)).
  { rewrite <- Heq, Hsplit. cbn [app]. now rewrite <- app_assoc. }
  destruct (run_before isSpace x (b ++ tail) u s' (10%N :: a) Heq' Hu Hx) as (v & Hv & ->).
  change (v ++ x :: b ++ tail) with (v ++ (x :: b) ++ tail). rewrite app_assoc.
  apply (suffix_no_marker (10%N :: c) u (v ++ x :: b) tail).
  - cbn [app includes]. rewrite Hc. reflexivity.
  - exact Ht.
  - rewrite Hsplit, app_comm_cons, Hv, <- app_assoc. reflexivity.
  - now destruct v.
Qed.

(** Nor can it go on from inside the closing [===]. *)
Lemma exec_inside_marker (s : jsstring) (r : list atom) :
  match s with [] => True | c :: _ => isSpace c = false end ->
  startsWith s (js "===" ++ [10%N]) = false ->
  exec_at (Rep true false isSpace :: Lit (js "===" ++ [10%N]) :: r) s = None.
Proof.
  intros Hhd Hs. rewrite exec_at_Rep. apply repLoop_greedy_None.
  intros u s' -> Hu. unfold continueWith.
  destruct u as [| c u].
  - now rewrite exec_at_Lit_None.
  - cbn [forallb app] in *. now rewrite Hhd in Hu.
Qed.

Lemma exec_at_Lit_prefix (l s : jsstring) (r : list atom) :
  exec_at (Lit l :: r) (l ++ s) = continueWith r l s.
Proof. cbn [exec_at]. now rewrite stripLit_prefix. Qed.

(** The header and the content of one block: [([^\n]+)] keeps the path and
    the space after it, [([\s\S]*?)] the content up to the next [===]. *)
Lemma exec_block (p c tail : jsstring) :
  headerPath p = true -> markerFree c = true ->
  tail = [] \/ startsWith tail (js "===") = true ->
  exec_at reFileBlock (blockHeader p ++ c ++ tail)
  = Some ([js "==="; js " "; p ++ js " "; []; js "===" ++ [10%N]; c; []], tail).
Proof.
  intros Hp Hc Ht.
  pose proof (proj1 (markerFree_inv c Hc)) as Hno.
  destruct (headerPath_inv p Hp) as (Hline & _ & p0 & p' & -> & Hp0).
  set (path := p0 :: p') in *.
  set (rest := [Rep true false isSpace; Lit (js "===" ++ [10%N]);
                Rep false false anyChar; AheadLitOrEnd (js "===")]).
  assert (Hline' : exec_at (Rep true true (notChar 10) :: rest)
                     ((path ++ js " ") ++ (js "===" ++ [10%N]) ++ c ++ tail)
                   = Some ([path ++ js " "; []; js "===" ++ [10%N]; c; []], tail)).
  { rewrite exec_at_Rep. apply repLoop_greedy_descend.
    - rewrite forallb_app, Hline. reflexivity.
    - rewrite app_nil_r.
      change ((js "===" ++ [10%N]) ++ c ++ tail)
        with (61%N :: 61%N :: 61%N :: 10%N :: c ++ tail).
      cbn [repLoop]. change (notChar 10 61) with true. change (notChar 10 10) with false.
      cbn iota.
      cbn [isEmpty andb].
      unfold continueWith at 1. unfold rest at 1.
      rewrite (exec_after_line c tail _ Hc Ht).
      unfold continueWith at 1. unfold rest at 1.
      rewrite (exec_inside_marker (61%N :: 10%N :: c ++ tail)); [| reflexivity | reflexivity].
      unfold continueWith at 1. unfold rest at 1.
      rewrite (exec_inside_marker (61%N :: 61%N :: 10%N :: c ++ tail));
        [| reflexivity | reflexivity].
      destruct (rev (path ++ js " ")) as [| r0 rv] eqn:Hrev.
      { apply (f_equal (@length N)) in Hrev. rewrite length_rev, length_app in Hrev.
        cbn in Hrev. lia. }
      cbn [isEmpty andb]. unfold continueWith. unfold rest.
      change (61%N :: 61%N :: 61%N :: 10%N :: c ++ tail)
        with ((js "===" ++ [10%N]) ++ c ++ tail).
      rewrite (exec_from_marker c tail Hno Ht).
      rewrite <- Hrev, rev_involutive. reflexivity. }
  unfold reFileBlock, blockHeader. fold rest.
  change (js "=== " ++ path ++ js " ===" ++ [10%N])
    with (js "===" ++ 32%N :: p0 :: p' ++ js " ===" ++ [10%N]).
  rewrite <- !app_assoc. rewrite exec_at_Lit_prefix. unfold continueWith.
  rewrite exec_at_Rep. cbn [app repLoop]. rewrite Hp0.
  change (isSpace 32) with true. cbn iota. cbn [andb rev app].
  unfold continueWith at 1.
  replace (p0 :: (p' ++ js " ===" ++ [10%N]) ++ c ++ tail)
    with ((path ++ js " ") ++ (js "===" ++ [10%N]) ++ c ++ tail)
    by (unfold path; change (js " ===") with (js " " ++ js "===");
        cbn [app]; now rewrite <- !app_assoc).
  rewrite Hline'. reflexivity.
Qed.

(** ** Every match in turn *)

Lemma execAll_skip (r : list atom) : forall u s,
  execAll r (length u) (u ++ s) = execAll r 0 s.
Proof. induction u as [| a u IH]; intros s; [reflexivity | exact (IH s)]. Qed.

Lemma execAll_match (r : list atom) (m rest : jsstring) (ps : list jsstring) :
  m <> [] -> exec_at r (m ++ rest) = Some (ps, rest) ->
  execAll r 0 (m ++ rest) = ps :: execAll r 0 rest.
Proof.
  destruct m as [| a m]; [congruence |]. intros _ H.
  cbn [app] in *. cbn [execAll]. rewrite H. f_equal.
  replace (length (a :: m ++ rest) - length rest - 1)%nat with (length m)
    by (cbn [length]; rewrite length_app; lia).
  apply execAll_skip.
Qed.

Lemma execAll_before_marker (r : list atom) (s : jsstring) : forall pre,
  includes (pre ++ js "==") (js "===") = false ->
  s = [] \/ startsWith s (js "===") = true ->
  execAll (Lit (js "===") :: r) 0 (pre ++ s) = execAll (Lit (js "===") :: r) 0 s.
Proof.
  induction pre as [| a pre IH]; intros Hno Hs; [reflexivity |].
  cbn [app execAll]. rewrite exec_at_Lit_None.
  - apply IH; [| exact Hs]. now destruct (includes_false_inv _ _ Hno).
  - apply (suffix_no_marker (a :: pre) [] (a :: pre) s Hno Hs eq_refl). discriminate.
Qed.

Lemma blocks_start (files : list (jsstring * jsstring)) :
  blocks files = [] \/ startsWith (blocks files) (js "===") = true.
Proof.
  destruct files as [| f files]; [now left | right].
  unfold blocks. cbn [map concat]. unfold block, blockHeader.
  change (js "=== ") with (js "===" ++ js " "). rewrite <- !app_assoc.
  apply startsWith_prefix.
Qed.

Lemma execAll_blocks (files : list (jsstring * jsstring)) :
  Forall (fun f => headerPath (fst f) = true /\ markerFree (snd f) = true) files ->
  execAll reFileBlock 0 (blocks files) = map blockPieces files.
Proof.
  induction 1 as [| [p c] files [Hp Hc] _ IH].
  - reflexivity.
  - unfold blocks. cbn [map concat]. fold (blocks files). unfold block. cbn [fst snd].
    rewrite (execAll_match reFileBlock (blockHeader p ++ c) (blocks files) (blockPieces (p, c))).
    + now rewrite IH.
    + unfold blockHeader. change (js "=== ") with (61%N :: js "== "). discriminate.
    + rewrite <- app_assoc. apply exec_block; [exact Hp | exact Hc | apply blocks_start].
Qed.

Lemma fold_blockPieces (files : list (jsstring * jsstring)) :
  Forall (fun f => headerPath (fst f) = true /\ markerFree (snd f) = true) files ->
  forall acc,
    fold_left
      (fun fixedFiles m => assign (trim (group 2 m)) (JStr (trim (group 5 m))) fixedFiles)
      (map blockPieces files) acc
    = fold_left putBlock files acc.
Proof.
  induction 1 as [| [p c] files [Hp Hc] _ IH]; intros acc; [reflexivity |].
  cbn [map fold_left]. rewrite IH. f_equal.
  unfold putBlock, blockPieces, group. cbn [nth fst snd].
  now rewrite trim_header_path.
Qed.

Lemma fallbackFiles_blocks (pre : jsstring) (files : list (jsstring * jsstring)) :
  includes (pre ++ js "==") (js "===") = false ->
  Forall (fun f => headerPath (fst f) = true /\ markerFree (snd f) = true) files ->
  fallbackFiles (pre ++ blocks files) = fold_left putBlock files [].
Proof.
  intros Hpre Hfiles. unfold fallbackFiles, reFileBlock.
  rewrite execAll_before_marker by (exact Hpre || apply blocks_start).
  fold reFileBlock. rewrite execAll_blocks by exact Hfiles.
  now apply fold_blockPieces.
Qed.

(** A path that is not [__proto__] holds the content of the last block
    stored for it. *)
Lemma getOwn_putBlock (p : jsstring) : forall files acc,
  p <> js "__proto__" ->
  getOwn p (fold_left putBlock files acc)
  = match getOwn p (rev files) with
    | Some c => Some (JStr (trim c))
    | None => getOwn p acc
    end.
Proof.
  induction files as [| [k c] files IH]; intros acc Hp; [reflexivity |].
  cbn [fold_left rev]. rewrite IH by exact Hp. rewrite getOwn_app.
  destruct (getOwn p (rev files)); [reflexivity |].
  cbn [getOwn]. unfold putBlock, assign. cbn [fst snd]. unfold eqb.
  destruct (bool_decide_reflect (k = js "__proto__")) as [-> | Hk].
  - rewrite bool_decide_eq_false_2 by congruence. reflexivity.
  - rewrite getOwn_define. unfold eqb. now destruct (bool_decide (k = p)).
Qed.

Lemma getOwn_In_keys {V} (p : jsstring) (props : list (jsstring * V)) :
  In p (map fst props) <-> getOwn p props <> None.
Proof.
  split.
  - intros Hin Hnone. now apply getOwn_None_keys in Hnone.
  - destruct (getOwn p props) as [v |] eqn:Hget; [| congruence].
    intros _. apply getOwn_Some_In in Hget. apply in_map_iff. now exists (p, v).
Qed.

(** X24. An answer without JSON text for [parseFixedFiles], made of [===]
    blocks after a preface: when the preface holds no [===], every path is
    one line without white space at its ends, and every content holds no
    [===] and is not blank, the patch has exactly the paths of the blocks
    other than [__proto__], and each path holds the trimmed content of the
    last block with that path. *)
Theorem answer_blocks_are_read (pre : jsstring) (files : list (jsstring * jsstring)) :
  structuredFiles (pre ++ blocks files) = None ->
  includes (pre ++ js "==") (js "===") = false ->
  Forall (fun f => headerPath (fst f) = true /\ markerFree (snd f) = true) files ->
  exists patch,
    parseFixedFiles (pre ++ blocks files) = JObj patch
    /\ (forall p, In p (map fst patch) <-> In p (map fst files) /\ p <> js "__proto__")
    /\ (forall p, p <> js "__proto__" ->
          getOwn p patch = option_map (fun c => JStr (trim c)) (getOwn p (rev files))).
Proof.
  intros Hjson Hpre Hfiles. exists (fallbackFiles (pre ++ blocks files)).
  split; [unfold parseFixedFiles; now rewrite Hjson |].
  assert (Hget : forall p, p <> js "__proto__" ->
            getOwn p (fallbackFiles (pre ++ blocks files))
            = option_map (fun c => JStr (trim c)) (getOwn p (rev files))).
  { intros p Hp. rewrite fallbackFiles_blocks, getOwn_putBlock by assumption.
    now destruct (getOwn p (rev files)). }
  split; [| exact Hget].
  intros p. split.
  - intros Hin.
    assert (Hp : p <> js "__proto__").
    { destruct (fallbackFiles_invariant (pre ++ blocks files)) as [_ Hall].
      apply in_map_iff in Hin as (kv & <- & Hkv).
      exact (proj1 (proj1 (List.Forall_forall _ _) Hall kv Hkv)). }
    split; [| exact Hp].
    apply getOwn_In_keys in Hin. rewrite (Hget p Hp) in Hin.
    destruct (getOwn p (rev files)) as [c |] eqn:Hc; [| now cbn in Hin].
    apply getOwn_Some_In, in_rev in Hc. apply in_map_iff. now exists (p, c).
  - intros [Hin Hp]. apply getOwn_In_keys. rewrite (Hget p Hp).
    assert (Hrev : In p (map fst (rev files))) by (rewrite map_rev, <- in_rev; exact Hin).
    apply getOwn_In_keys in Hrev. now destruct (getOwn p (rev files)).
Qed.

Lemma answer_blocks_are_read_witness :
  exists patch,
    parseFixedFiles
      (js "Here are the files:" ++ [10%N]
       ++ blocks [(js "/src/a.ts", js "  let a = 1;" ++ [10; 10]%N);
                  (js "/src/b.ts", js "let b = {};" ++ [10%N]);
                  (js "/src/a.ts", js "let a = 2;" ++ [10%N])])
    = JObj patch
    /\ getOwn (js "/src/a.ts") patch = Some (JStr (js "let a = 2;"))
    /\ getOwn (js "/src/b.ts") patch = Some (JStr (js "let b = {};"))
    /\ ~ In (js "/src/c.ts") (map fst patch).
Proof.
  destruct (answer_blocks_are_read
              (js "Here are the files:" ++ [10%N])
              [(js "/src/a.ts", js "  let a = 1;" ++ [10; 10]%N);
               (js "/src/b.ts", js "let b = {};" ++ [10%N]);
               (js "/src/a.ts", js "let a = 2;" ++ [10%N])])
    as (patch & Hparse & Hkeys & Hget).
  - reflexivity.
  - reflexivity.
  - repeat constructor.
  - exists patch. split; [exact Hparse |].
    split; [rewrite Hget by discriminate; reflexivity |].
    split; [rewrite Hget by discriminate; reflexivity |].
    intros Hin. apply Hkeys in Hin as [Hin _]. cbn in Hin.
    repeat (destruct Hin as [Hin | Hin]; [discriminate Hin |]). exact Hin.
Defined.

(** A header that no line ending in [===] closes starts no block. *)
Lemma exec_unclosed_header (s : jsstring) :
  includes s (js "===") = false -> exec_at reFileBlock (js "===" ++ s) = None.
Proof.
  intros Hno. unfold reFileBlock. rewrite exec_at_Lit_prefix. unfold continueWith.
  rewrite exec_at_Rep, repLoop_greedy_None; [reflexivity |].
  intros u1 s1 -> _. unfold continueWith.
  rewrite exec_at_Rep, repLoop_greedy_None; [reflexivity |].
  intros u2 s2 -> _. unfold continueWith.
  rewrite exec_at_Rep, repLoop_greedy_None; [reflexivity |].
  intros u3 s3 -> _. unfold continueWith.
  rewrite exec_at_Lit_None; [reflexivity |].
  apply startsWith_longer.
  do 3 apply includes_app_r in Hno. now destruct (includes_false_inv _ _ Hno).
Qed.

(** X25. A block whose content holds [===], the strict equality of
    JavaScript: when the answer holds no JSON text for [parseFixedFiles]
    and is one block whose content has a single [===], the patch holds the
    path with the content cut before the [===]; what follows is lost. *)
Theorem content_is_cut_at_strict_equality (p before after : jsstring) :
  structuredFiles (blockHeader p ++ before ++ js "===" ++ after) = None ->
  headerPath p = true -> p <> js "__proto__" ->
  markerFree before = true ->
  includes (js "==" ++ after) (js "===") = false ->
  parseFixedFiles (blockHeader p ++ before ++ js "===" ++ after)
  = JObj [(p, JStr (trim before))].
Proof.
  intros Hjson Hp Hproto Hbefore Hafter.
  unfold parseFixedFiles. rewrite Hjson. f_equal. unfold fallbackFiles.
  rewrite app_assoc.
  rewrite (execAll_match reFileBlock (blockHeader p ++ before) (js "===" ++ after)
             (blockPieces (p, before))).
  - change (js "===" ++ after) with (61%N :: js "==" ++ after) at 1.
    cbn [execAll].
    change (61%N :: js "==" ++ after) with (js "===" ++ after).
    rewrite exec_unclosed_header.
    + unfold reFileBlock. rewrite execAll_Lit_absent by exact Hafter.
      cbn [fold_left]. unfold blockPieces, group. cbn [nth fst snd].
      rewrite trim_header_path by exact Hp.
      unfold assign, eqb. rewrite bool_decide_eq_false_2 by exact Hproto.
      unfold define. cbn [getOwn]. now destruct (arrayIndex p).
    + now apply (includes_app_r (js "===") (js "==") after).
  - unfold blockHeader. change (js "=== ") with (61%N :: js "== "). discriminate.
  - rewrite <- app_assoc. apply exec_block; [exact Hp | exact Hbefore |].
    right. apply startsWith_prefix.
Qed.

Lemma content_is_cut_at_strict_equality_witness :
  parseFixedFiles
    (blockHeader (js "/src/App.tsx")
     ++ (js "if (a " ++ js "===" ++ js " b) { run(); }" ++ [10%N]))
  = JObj [(js "/src/App.tsx", JStr (js "if (a"))].
Proof.
  exact (content_is_cut_at_strict_equality
           (js "/src/App.tsx") (js "if (a ") (js " b) { run(); }" ++ [10%N])
           eq_refl eq_refl ltac:(discriminate) eq_refl eq_refl).
Defined.

(** ** The listing of the prompt *)

Lemma dropWhile_run (p : N -> bool) (a : jsstring) (s : jsstring) :
  forallb p a = true -> dropWhile p (a ++ s) = dropWhile p s.
Proof.
  induction a as [| c a IH]; cbn [forallb app dropWhile]; [reflexivity |].
  intros [Hc Ha]%andb_prop. rewrite Hc. now apply IH.
Qed.

(** White space after a text that is not blank is trimmed away. *)
Lemma trim_padded (c ws : jsstring) :
  isEmpty (trim c) = false -> forallb isSpace ws = true -> trim (c ++ ws) = trim c.
Proof.
  intros Hc Hws. unfold trim in *.
  destruct (takeWhile_dropWhile isSpace c) as [Hsplit Hall].
  pose proof (dropWhile_head isSpace c) as Hhd.
  destruct (dropWhile isSpace c) as [| x b] eqn:Hd; [discriminate |].
  rewrite Hsplit at 1. rewrite <- app_assoc, dropWhile_run by exact Hall.
  rewrite (dropWhile_fixed isSpace ((x :: b) ++ ws)) by exact Hhd.
  rewrite rev_app_distr, dropWhile_run; [reflexivity |].
  rewrite forallb_forall in *. intros y Hy. apply Hws. now apply in_rev.
Qed.

Lemma startsWith_before_line_feed (a : N) (c y : jsstring) :
  startsWith (a :: c) (js "===") = false ->
  startsWith (a :: c ++ 10%N :: y) (js "===") = false.
Proof.
  change (js "===") with [61; 61; 61]%N.
  destruct c as [| b [| d c]]; cbn [app startsWith]; intros H.
  - change (61 =? 10)%N with false. now rewrite andb_false_r.
  - change (61 =? 10)%N with false. now rewrite andb_false_l, !andb_false_r.
  - rewrite <- H. now destruct (c ++ 10%N :: y), c.
Qed.

Lemma includes_before_line_feed (y : jsstring) : forall c,
  includes c (js "===") = false ->
  includes (10%N :: y) (js "===") = false ->
  includes (c ++ 10%N :: y) (js "===") = false.
Proof.
  induction c as [| a c IH]; intros Hc Hy; [exact Hy |].
  destruct (includes_false_inv _ _ Hc) as [Hhere Hrest].
  cbn [app]. cbn [includes]. rewrite (IH Hrest Hy), orb_false_r.
  now apply startsWith_before_line_feed.
Qed.

Lemma markerFree_padded (c ws : jsstring) :
  includes c (js "===") = false -> isEmpty (trim c) = false ->
  forallb isSpace (10%N :: ws) = true ->
  includes (10%N :: ws ++ js "==") (js "===") = false ->
  markerFree (c ++ 10%N :: ws) = true.
Proof.
  intros Hc Hne Hws Hpad. unfold markerFree.
  rewrite trim_padded, Hne by assumption.
  rewrite <- app_assoc. cbn [app].
  now rewrite includes_before_line_feed.
Qed.

Lemma fileListing_listed (files : list (jsstring * jsstring)) :
  files <> [] -> fileListing files = 10%N :: blocks (listed files).
Proof.
  unfold fileListing.
  induction files as [| [p c] [| g files] IH]; intros Hne; [congruence | |].
  - cbn [map join listed fst snd]. unfold fileEntry, blocks, block, blockHeader.
    cbn [map concat fst snd app]. now rewrite app_nil_r, <- !app_assoc.
  - change (join [10%N] (map fileEntry ((p, c) :: g :: files)))
      with (fileEntry (p, c) ++ [10%N] ++ join [10%N] (map fileEntry (g :: files))).
    rewrite IH by discriminate.
    change (listed ((p, c) :: g :: files))
      with ((p, c ++ [10; 10; 10]%N) :: listed (g :: files)).
    unfold fileEntry, blocks, block, blockHeader.
    cbn [map concat fst snd app]. rewrite <- !app_assoc. cbn [app].
    now rewrite <- !app_assoc.
Qed.

Lemma listed_blocks (files : list (jsstring * jsstring)) :
  Forall (fun f => headerPath (fst f) = true
                   /\ includes (snd f) (js "===") = false
                   /\ isEmpty (trim (snd f)) = false) files ->
  Forall (fun f => headerPath (fst f) = true /\ markerFree (snd f) = true) (listed files)
  /\ forall acc, fold_left putBlock (listed files) acc = fold_left putBlock files acc.
Proof.
  induction files as [| [p c] [| g files] IH]; intros Hall.
  - split; [constructor | reflexivity].
  - inversion_clear Hall as [| ? ? (Hp & Hc & Hne) _]. cbn [fst snd] in *.
    cbn [listed fst snd]. split.
    + constructor; [| constructor]. split; [exact Hp |].
      now apply (markerFree_padded c []).
    + intros acc. cbn [fold_left]. unfold putBlock. cbn [fst snd].
      now rewrite trim_padded.
  - inversion_clear Hall as [| ? ? (Hp & Hc & Hne) Hrest]. cbn [fst snd] in *.
    destruct (IH Hrest) as [IHok IHfold].
    change (listed ((p, c) :: g :: files))
      with ((p, c ++ [10; 10; 10]%N) :: listed (g :: files)).
    split.
    + constructor; [| exact IHok]. split; [exact Hp |].
      now apply (markerFree_padded c [10; 10]%N).
    + intros acc. cbn [fold_left]. rewrite IHfold. cbn [fold_left].
      unfold putBlock. cbn [fst snd]. now rewrite trim_padded.
Qed.

(** X26. The listing that [createSmartFixPrompt] writes of the files, read
    by [parseFixedFiles] as an answer without JSON text: when every path is
    one line without white space at its ends and every content holds no
    [===] and is not blank, each path other than [__proto__] holds the
    trimmed content of the last file listed with that path, and no other
    path holds anything. *)
Theorem listing_is_read_back (files : list (jsstring * jsstring)) :
  structuredFiles (fileListing files) = None ->
  Forall (fun f => headerPath (fst f) = true
                   /\ includes (snd f) (js "===") = false
                   /\ isEmpty (trim (snd f)) = false) files ->
  exists patch,
    parseFixedFiles (fileListing files) = JObj patch
    /\ forall p, p <> js "__proto__" ->
         getOwn p patch = option_map (fun c => JStr (trim c)) (getOwn p (rev files)).
Proof.
  intros Hjson Hall. exists (fallbackFiles (fileListing files)).
  split; [unfold parseFixedFiles; now rewrite Hjson |].
  intros p Hp.
  assert (Hfold : fallbackFiles (fileListing files) = fold_left putBlock files []).
  { destruct files as [| f files]; [reflexivity |].
    destruct (listed_blocks (f :: files) Hall) as [Hok Hfold].
    rewrite fileListing_listed by discriminate.
    change (10%N :: blocks (listed (f :: files)))
      with ([10%N] ++ blocks (listed (f :: files))).
    rewrite fallbackFiles_blocks; [apply Hfold | reflexivity | exact Hok]. }
  rewrite Hfold, getOwn_putBlock by exact Hp.
  now destruct (getOwn p (rev files)).
Qed.

Lemma listing_is_read_back_witness :
  exists patch,
    parseFixedFiles
      (fileListing [(js "/src/App.tsx", js "export default App;" ++ [10%N]);
                    (js "/src/index.css", js "  body { margin: 0 }")])
    = JObj patch
    /\ getOwn (js "/src/App.tsx") patch = Some (JStr (js "export default App;"))
    /\ getOwn (js "/src/index.css") patch = Some (JStr (js "body { margin: 0 }"))
    /\ getOwn (js "/src/main.tsx") patch = None.
Proof.
  destruct (listing_is_read_back
              [(js "/src/App.tsx", js "export default App;" ++ [10%N]);
               (js "/src/index.css", js "  body { margin: 0 }")])
    as (patch & Hparse & Hget).
  - reflexivity.
  - repeat constructor.
  - exists patch. split; [exact Hparse |].
    repeat split; rewrite Hget by discriminate; reflexivity.
Defined.

End Blocks.

(** * CodePreview.tsx: the files handed to Sandpack *)

Section FinalFiles.
Import Sandpack Preview.

Variable toLowerCase : jsstring -> jsstring.

(** The one fact about [toLowerCase] that is used: a path in lower case
    stays as it is. *)
Hypothesis toLowerCase_index : toLowerCase (js "/index.html") = js "/index.html".

Lemma getOwn_defineIf (b : bool) (k v k' : jsstring) (required : list (jsstring * jsstring)) :
  getOwn k' (defineIf b k v required)
  = if b && eqb k k' then Some v else getOwn k' required.
Proof. destruct b; cbn [defineIf andb]; [apply getOwn_define | reflexivity]. Qed.

Lemma defineIf_keys (b : bool) (k v k' : jsstring) (required : list (jsstring * jsstring)) :
  In k' (map fst (defineIf b k v required))
  <-> (b = true /\ k' = k) \/ In k' (map fst required).
Proof.
  destruct b; cbn [defineIf]; [rewrite define_keys |]; intuition congruence.
Qed.

Lemma defineIf_NoDup (b : bool) (k v : jsstring) (required : list (jsstring * jsstring)) :
  NoDup (map fst required) -> NoDup (map fst (defineIf b k v required)).
Proof. destruct b; cbn [defineIf]; [apply define_NoDup | auto]. Qed.

Lemma someKey_In (test : jsstring -> bool) (required : list (jsstring * jsstring)) :
  someKey test required = true <-> exists k, In k (map fst required) /\ test k = true.
Proof. unfold someKey. apply existsb_exists. Qed.

(** A file is required only when no key passes the test, and is then a key
    that passes it. *)
Lemma someKey_defineIf (test : jsstring -> bool) (k v : jsstring)
    (required : list (jsstring * jsstring)) :
  test k = true ->
  someKey test (defineIf (negb (someKey test required)) k v required) = true.
Proof.
  intros Hk. destruct (someKey test required) eqn:Hsome; [exact Hsome |].
  cbn [negb defineIf]. apply someKey_In. exists k. split; [| exact Hk].
  apply define_keys. now left.
Qed.

Lemma someKey_mono (test : jsstring -> bool) (b : bool) (k v : jsstring)
    (required : list (jsstring * jsstring)) :
  someKey test required = true -> someKey test (defineIf b k v required) = true.
Proof.
  rewrite !someKey_In. intros (k' & Hin & Hk'). exists k'. split; [| exact Hk'].
  apply defineIf_keys. now right.
Qed.

(** One step of [ensureRequiredFiles]: the file is added only when no key
    passes the test, so that nothing is overwritten. *)
Lemma require_step (test : jsstring -> bool) (k v : jsstring)
    (required : list (jsstring * jsstring)) :
  test k = true -> NoDup (map fst required) ->
  let required' := defineIf (negb (someKey test required)) k v required in
  NoDup (map fst required')
  /\ someKey test required' = true
  /\ (forall k0 v0, getOwn k0 required = Some v0 -> getOwn k0 required' = Some v0)
  /\ (forall k0, In k0 (map fst required) -> In k0 (map fst required'))
  /\ (forall k0, In k0 (map fst required') -> In k0 (map fst required) \/ k0 = k).
Proof.
  intros Hk Hnd required'. unfold required'.
  split; [now apply defineIf_NoDup |]. split; [now apply someKey_defineIf |].
  split; [| split].
  - intros k0 v0 Hget. rewrite getOwn_defineIf.
    destruct (someKey test required) eqn:Hsome; cbn [negb andb]; [exact Hget |].
    unfold eqb. destruct (bool_decide_reflect (k = k0)) as [<- | Hne]; [| exact Hget].
    exfalso. assert (Hex : someKey test required = true); [| congruence].
    apply someKey_In. exists k. split; [| exact Hk].
    apply getOwn_Some_In in Hget. apply in_map_iff. now exists (k, v0).
  - intros k0 Hin. apply defineIf_keys. now right.
  - intros k0 Hin. apply defineIf_keys in Hin. tauto.
Qed.

(** X27. The files that [ensureRequiredFiles] hands to Sandpack, for the
    files [convertToSandpackFiles] converted and the template of
    [getTemplate]. A project type whose lower case names a member of
    [Object.prototype] makes the call throw. Otherwise the result keeps
    every converted file but [/package.json], which always holds the
    generated description, also when the project has its own; it adds at
    most [/index.html], [/src/main.tsx] and [/src/App.tsx]; it has a key
    with [index.html] in its lower case; for a template with [react] in its
    name it has a main entry, an [App] and the entry file of [getEntryFile];
    with files it always has the entry file; without files and without
    [react] it has not. *)
Theorem final_files_are_complete (packageJson description projectType : jsstring)
    (files : list GeneratedFile) (sandpackFiles : list (jsstring * jsstring)) :
  convertToSandpackFiles files = Return sandpackFiles ->
  match getTemplate toLowerCase projectType with
  | InheritedMember key =>
      key = toLowerCase projectType
      /\ In key Object_prototype_names
      /\ exists e,
           ensureRequiredFiles toLowerCase packageJson description
             (InheritedMember key) sandpackFiles = Throw e
  | TemplateName name =>
      exists final,
        ensureRequiredFiles toLowerCase packageJson description
          (TemplateName name) sandpackFiles = Return final
        /\ NoDup (map fst final)
        /\ getOwn (js "/package.json") final = Some packageJson
        /\ (forall k v, k <> js "/package.json" ->
              getOwn k sandpackFiles = Some v -> getOwn k final = Some v)
        /\ (forall k, In k (map fst final) ->
              In k (map fst sandpackFiles)
              \/ In k [js "/package.json"; js "/index.html"; js "/src/main.tsx";
                       js "/src/App.tsx"])
        /\ someKey (isIndexHtml toLowerCase) final = true
        /\ (includes name (js "react") = true ->
              someKey isMainEntry final = true /\ someKey isApp final = true
              /\ In (getEntryFile files) (map fst final))
        /\ (files <> [] -> In (getEntryFile files) (map fst final))
        /\ (files = [] -> includes name (js "react") = false ->
              ~ In (getEntryFile files) (map fst final))
  end.
Proof.
  intros Hconv.
  destruct (convertFiles_spec files [] sandpackFiles Hconv) as (Hnd & Hkeys & _ & _).
  specialize (Hnd ltac:(constructor)).
  assert (Hentry : files <> [] -> In (getEntryFile files) (map fst sandpackFiles)).
  { intros Hne. apply Hkeys. right.
    destruct (getEntryFile_entry files Hne) as (f & Hf & ->). eauto. }
  assert (Hempty : files = [] -> sandpackFiles = []).
  { intros ->. cbn in Hconv. congruence. }
  destruct (getTemplate toLowerCase projectType) as [name | key] eqn:Htemplate.
  2:{ unfold getTemplate in Htemplate.
      destruct (getOwn (toLowerCase projectType) typeMap) as [t |];
        [destruct (isEmpty t); discriminate |].
      destruct (existsb (eqb (toLowerCase projectType)) Object_prototype_names) eqn:Hin;
        [| discriminate].
      injection Htemplate as <-. split; [reflexivity |]. split.
      - apply existsb_exists in Hin as (k & Hk & Heq).
        unfold eqb in Heq. apply bool_decide_eq_true in Heq. now subst k.
      - eexists. reflexivity. }
  clear Htemplate. unfold ensureRequiredFiles.
  set (r1 := define (js "/package.json") packageJson sandpackFiles).
  assert (Hnd1 : NoDup (map fst r1)) by now apply define_NoDup.
  assert (Hpkg1 : getOwn (js "/package.json") r1 = Some packageJson).
  { unfold r1. rewrite getOwn_define. reflexivity. }
  assert (Hkeep1 : forall k v, k <> js "/package.json" ->
            getOwn k sandpackFiles = Some v -> getOwn k r1 = Some v).
  { intros k v Hk Hv. unfold r1. rewrite getOwn_define. unfold eqb.
    rewrite bool_decide_eq_false_2 by congruence. exact Hv. }
  assert (Hup1 : forall k, In k (map fst sandpackFiles) -> In k (map fst r1)).
  { intros k Hin. apply define_keys. now right. }
  assert (Hkeys1 : forall k, In k (map fst r1) ->
            In k (map fst sandpackFiles) \/ k = js "/package.json").
  { intros k Hin. apply define_keys in Hin. tauto. }
  assert (Hindex : isIndexHtml toLowerCase (js "/index.html") = true).
  { unfold isIndexHtml. rewrite toLowerCase_index. reflexivity. }
  destruct (require_step (isIndexHtml toLowerCase) (js "/index.html")
              (indexHtml description) r1 Hindex Hnd1)
    as (Hnd2 & Hsome2 & Hkeep2 & Hup2 & Hkeys2).
  set (r2 := defineIf (negb (someKey (isIndexHtml toLowerCase) r1)) (js "/index.html")
               (indexHtml description) r1) in *.
  destruct (includes name (js "react")) eqn:Hreact.
  - destruct (require_step isMainEntry (js "/src/main.tsx") mainTsx r2 eq_refl Hnd2)
      as (Hnd3 & Hsome3 & Hkeep3 & Hup3 & Hkeys3).
    set (r3 := defineIf (negb (someKey isMainEntry r2)) (js "/src/main.tsx") mainTsx r2) in *.
    destruct (require_step isApp (js "/src/App.tsx") appTsx r3 eq_refl Hnd3)
      as (Hnd4 & Hsome4 & Hkeep4 & Hup4 & Hkeys4).
    set (r4 := defineIf (negb (someKey isApp r3)) (js "/src/App.tsx") appTsx r3) in *.
    exists r4. split; [reflexivity |]. split; [exact Hnd4 |].
    split; [auto |]. split; [auto |].
    assert (Hwithin : forall k, In k (map fst r4) ->
              In k (map fst sandpackFiles)
              \/ In k [js "/package.json"; js "/index.html"; js "/src/main.tsx";
                       js "/src/App.tsx"]).
    { intros k H4. cbn [In].
      destruct (Hkeys4 k H4) as [H3 | ->]; [| tauto].
      destruct (Hkeys3 k H3) as [H2 | ->]; [| tauto].
      destruct (Hkeys2 k H2) as [H1 | ->]; [| tauto].
      destruct (Hkeys1 k H1) as [H0 | ->]; tauto. }
    split; [exact Hwithin |].
    split; [now apply someKey_mono, someKey_mono |].
    assert (Hin : In (getEntryFile files) (map fst r4)).
    { destruct files as [| f files]; [| apply Hup4, Hup3, Hup2, Hup1, Hentry; discriminate].
      change (getEntryFile []) with (js "/src/App.tsx").
      rewrite (Hempty eq_refl) in *.
      destruct (someKey isApp r3) eqn:Happ.
      - exfalso. apply someKey_In in Happ as (k & Hk & Htest).
        destruct (Hkeys3 k Hk) as [H2 | ->]; [| discriminate Htest].
        destruct (Hkeys2 k H2) as [H1 | ->]; [| discriminate Htest].
        destruct (Hkeys1 k H1) as [[] | ->]. discriminate Htest.
      - unfold r4. cbn [negb defineIf]. apply define_keys. now left. }
    split; [intros _; split; [now apply someKey_mono | split; [exact Hsome4 | exact Hin]] |].
    split; [intros _; exact Hin | discriminate].
  - exists r2. split; [reflexivity |]. split; [exact Hnd2 |].
    split; [auto |]. split; [auto |].
    split.
    { intros k H2. cbn [In].
      destruct (Hkeys2 k H2) as [H1 | ->]; [| tauto].
      destruct (Hkeys1 k H1) as [H0 | ->]; tauto. }
    split; [exact Hsome2 |]. split; [discriminate |].
    split; [intros Hne; now apply Hup2, Hup1, Hentry |].
    intros -> _ Hin. rewrite (Hempty eq_refl) in *.
    change (getEntryFile []) with (js "/src/App.tsx") in Hin.
    destruct (Hkeys2 _ Hin) as [H1 | H]; [| discriminate H].
    destruct (Hkeys1 _ H1) as [[] | H]. discriminate H.
Qed.

End FinalFiles.

Lemma final_files_are_complete_witness :
  exists final,
    Preview.ensureRequiredFiles Preview.asciiLower (js "{}") (js "Shop")
      (Preview.getTemplate Preview.asciiLower (js "Full-Stack"))
      [(js "/src/App.tsx", js "export default App;"); (js "/package.json", js "{ }")]
    = Return final
    /\ map fst final
       = [js "/src/App.tsx"; js "/package.json"; js "/index.html"; js "/src/main.tsx"]
    /\ getOwn (js "/package.json") final = Some (js "{}")
    /\ In (Sandpack.getEntryFile
             [{| path := js "src/App.tsx"; content := J (JStr (js "export default App;")) |};
              {| path := js "package.json"; content := J (JStr (js "{ }")) |}])
          (map fst final).
Proof.
  pose proof (final_files_are_complete Preview.asciiLower eq_refl
                (js "{}") (js "Shop") (js "Full-Stack")
                [{| path := js "src/App.tsx"; content := J (JStr (js "export default App;")) |};
                 {| path := js "package.json"; content := J (JStr (js "{ }")) |}]
                [(js "/src/App.tsx", js "export default App;"); (js "/package.json", js "{ }")]
                eq_refl) as H.
  change (Preview.getTemplate Preview.asciiLower (js "Full-Stack"))
    with (Preview.TemplateName (js "react-ts")) in *.
  destruct H as (final & Hfinal & _ & Hpkg & _ & _ & _ & _ & Hentry & _).
  exists final. split; [exact Hfinal |].
  split; [| split; [exact Hpkg | apply Hentry; discriminate]].
  vm_compute in Hfinal. injection Hfinal as <-. reflexivity.
Defined.

(** * contextualChatService.js: the intent of a message *)

Section Intent.
Import ChatIntent.

Variable toLowerCase : jsstring -> jsstring.

Lemma someKeyword_In (keywords : list jsstring) (lowerMessage keyword : jsstring) :
  In keyword keywords -> includes lowerMessage keyword = true ->
  someKeyword keywords lowerMessage = true.
Proof. intros Hin Hinc. apply existsb_exists. now exists keyword. Qed.

(** X28. Which method answers a chat message, by the keywords in its lower
    case. [handleGeneralChat] never does. [handleQuestion] does exactly when
    the message has a question keyword and neither an edit nor a feature
    keyword. Every other message is a code edit, and goes through the
    reasoning service exactly when it has an error keyword; a message with
    [fix] in it always does, whatever else it says, and a question keyword
    changes nothing once a feature keyword such as [ui] occurs. A message is
    given the type [fix_issue] exactly when it has an edit or a feature
    keyword and no file reference. *)
Theorem message_dispatch (message : jsstring) :
  let lowerMessage := toLowerCase message in
  let edit := someKeyword editKeywords lowerMessage in
  let feature := someKeyword featureKeywords lowerMessage in
  let question := someKeyword questionKeywords lowerMessage in
  let error := someKeyword errorKeywords lowerMessage in
  chosenHandler toLowerCase message <> handleGeneralChat
  /\ (chosenHandler toLowerCase message = handleQuestion
      <-> question = true /\ edit = false /\ feature = false)
  /\ (chosenHandler toLowerCase message = handleCodeEditWithReasoning
      <-> error = true /\ (question = false \/ edit = true \/ feature = true))
  /\ (includes lowerMessage (js "fix") = true ->
      chosenHandler toLowerCase message = handleCodeEditWithReasoning)
  /\ (includes lowerMessage (js "ui") = true ->
      chosenHandler toLowerCase message <> handleQuestion)
  /\ (type (analyzeIntent toLowerCase message) = js "fix_issue"
      <-> (edit = true \/ feature = true) /\ hasFileReference lowerMessage = false).
Proof.
  intros lowerMessage edit feature question error.
  assert (Hfix : includes lowerMessage (js "fix") = true -> edit = true /\ error = true).
  { intros H. split; apply (someKeyword_In _ _ (js "fix")); try exact H; cbn; tauto. }
  assert (Hui : includes lowerMessage (js "ui") = true -> feature = true).
  { intros H. apply (someKeyword_In _ _ (js "ui")); [cbn; tauto | exact H]. }
  unfold chosenHandler, handleCodeEdit, isErrorFixing, analyzeIntent.
  fold lowerMessage. fold edit. fold feature. fold question. fold error.
  destruct edit, feature, question, error, (hasFileReference lowerMessage);
    cbn [orb andb negb type];
    repeat match goal with
           | |- context [eqb ?a ?b] =>
               let v := eval vm_compute in (eqb a b) in change (eqb a b) with v
           end;
    cbn [orb andb negb];
    (split; [discriminate |]);
    (split; [split; [try discriminate; tauto | intros (? & ? & ?); congruence] |]);
    (split; [split; [try discriminate; intros _; tauto
                    | intros (? & [? | [? | ?]]); congruence] |]);
    (split; [intros H; destruct (Hfix H); congruence |]);
    (split; [intros H; pose proof (Hui H); congruence |]);
    (split; [try (intros H; vm_compute in H; discriminate); tauto
            | intros ([? | ?] & ?); congruence]).
Qed.

End Intent.

(** * contextualChatService.js: the changes read from an answer *)

Section CodeEdits.
Import ContextualChatService.

Lemma orElse_truthy (a : value) (b : string) :
  b <> EmptyString -> truthyJson (orElse a b) = true.
Proof.
  intros Hb. unfold orElse, or_.
  destruct (truthy a) eqn:Ha.
  - destruct a as [| x |]; [discriminate | exact Ha |]. now destruct b.
  - now destruct b.
Qed.

Lemma prop_cases (v : json) (k : jsstring) :
  prop v k = Undefined \/ exists x, prop v k = J x.
Proof.
  unfold prop, getField. destruct v as [| | | | | props]; auto.
  destruct (getOwn k props); eauto.
Qed.

Lemma validateChange_valid (index : N) (change : json) (c : Change) :
  validateChange index change = Return c ->
  truthyJson (file c) = true
  /\ In (action c) validActions
  /\ (action c = js "create" -> truthyJson (newContent c) = true)
  /\ (action c = js "delete" -> prop change (js "action") = J (JStr (js "delete")))
  /\ truthyJson (summary c) = true.
Proof.
  unfold validateChange.
  destruct (getField change (js "file")) as [[| changeFile |] | e]; try discriminate.
  destruct (truthyJson changeFile) eqn:Hfile; [| discriminate]. cbn [negb].
  set (a := orElse (prop change (js "action")) "edit").
  destruct (negb (isValidAction a) && negb (convertible a)); [discriminate |].
  destruct ((isAction a "edit" || isAction a "create")
            && negb (truthy (prop change (js "newContent")))
            && negb (truthy (prop change (js "content")))) eqn:Hcontent; [discriminate |].
  destruct (hasPlaceholders _) as [placeholders | e]; [| discriminate].
  destruct (placeholders && negb (convertible changeFile)); [discriminate |].
  intros [= <-]. cbn [file action newContent summary].
  split; [exact Hfile |].
  assert (Hsummary : truthyJson
            (orElse (prop change (js "summary"))
               (if isAction a "create" then "Created file"
                else if isAction a "delete" then "Deleted file" else "Updated file")) = true).
  { apply orElse_truthy. destruct (isAction a "create"); [discriminate |].
    destruct (isAction a "delete"); discriminate. }
  destruct a as [| | | s | |] eqn:Ha; cbn [isValidAction];
    try (split; [now left | split; [discriminate | split; [discriminate | exact Hsummary]]]).
  destruct (existsb (eqb s) validActions) eqn:Hvalid;
    [| split; [now left | split; [discriminate | split; [discriminate | exact Hsummary]]]].
  split.
  { apply existsb_exists in Hvalid as (x & Hx & Heq).
    apply bool_decide_eq_true in Heq. now subst x. }
  split; [| split; [| exact Hsummary]].
  - intros ->. cbn [isAction] in Hcontent.
    replace (eqb (js "create") (js "create")) with true in Hcontent by reflexivity.
    rewrite orb_true_r in Hcontent. cbn [andb] in Hcontent.
    unfold orElse, or_.
    destruct (truthy (prop change (js "newContent"))) eqn:Hn.
    + rewrite Hn.
      destruct (prop_cases change (js "newContent")) as [Hp | [x Hp]]; rewrite Hp in *;
        [discriminate | exact Hn].
    + cbn [negb andb] in Hcontent. apply negb_false_iff in Hcontent.
      rewrite Hcontent.
      destruct (prop_cases change (js "content")) as [Hp | [x Hp]]; rewrite Hp in *;
        [discriminate | exact Hcontent].
  - intros ->. subst a. unfold orElse, or_ in Ha.
    destruct (truthy (prop change (js "action"))) eqn:Ht; [| discriminate].
    destruct (prop_cases change (js "action")) as [Hp | [x Hp]]; rewrite Hp in *;
      [discriminate | congruence].
Qed.

Lemma validateChanges_valid (changes : list json) : forall index cs,
  validateChanges index changes = Return cs ->
  length cs = length changes
  /\ Forall (fun c => truthyJson (file c) = true
                      /\ In (action c) validActions
                      /\ (action c = js "create" -> truthyJson (newContent c) = true)
                      /\ truthyJson (summary c) = true) cs.
Proof.
  induction changes as [| change changes IH]; intros index cs; cbn [validateChanges].
  - intros [= <-]. split; [reflexivity | constructor].
  - destruct (validateChange index change) as [c | e] eqn:Hc; [| discriminate].
    destruct (validateChanges (index + 1) changes) as [cs' | e] eqn:Hcs; [| discriminate].
    intros [= <-]. destruct (IH _ _ Hcs) as [Hlen Hall].
    split; [cbn [length]; now rewrite Hlen |].
    constructor; [| exact Hall].
    destruct (validateChange_valid _ _ _ Hc) as (H1 & H2 & H3 & _ & H5). auto.
Qed.

Lemma count_actions (changes : list Change) :
  Forall (fun c => In (action c) validActions) changes ->
  (countAction "edit" changes + countAction "create" changes
   + countAction "delete" changes)%nat = length changes.
Proof.
  unfold countAction.
  induction 1 as [| c changes Hc _ IH]; [reflexivity |].
  cbn [List.filter length]. cbn [validActions In] in Hc.
  destruct Hc as [<- | [<- | [<- | []]]];
    repeat match goal with
           | |- context [eqb ?a ?b] =>
               let v := eval vm_compute in (eqb a b) in
               change (eqb a b) with v
           end; cbn [length]; lia.
Qed.

(** X21. What [parseCodeEditResponse] returns from its [try] block. Every
    change has a truthy file that converts to a string, one of the actions
    edit, create and delete, and a truthy summary; a change that creates a
    file has a truthy content. The three counters of [stats] add up to the
    number of changes, and the explanation, the affected files and the
    testing notes are truthy. *)
Theorem parseCodeEditResponse_edits
    (response : jsstring) (explanation : json) (changes : list Change)
    (affectedFiles testingNotes : json) (stats : Stats) :
  parseCodeEditResponse response
  = Edits explanation changes affectedFiles testingNotes stats ->
  Forall (fun c => truthyJson (file c) = true
                   /\ convertible (file c) = true
                   /\ In (action c) validActions
                   /\ (action c = js "create" -> truthyJson (newContent c) = true)
                   /\ truthyJson (summary c) = true) changes
  /\ (edited stats + created stats + deleted stats)%nat = length changes
  /\ truthyJson explanation = true
  /\ truthyJson affectedFiles = true
  /\ truthyJson testingNotes = true.
Proof.
  unfold parseCodeEditResponse.
  destruct (matchText reObject _) as [jsonMatch |]; [| discriminate].
  destruct (parse jsonMatch) as [parsed | e]; [| discriminate].
  destruct (getField parsed (js "changes")) as [[| [| | | | items |] |] | e];
    try discriminate.
  destruct (validateChanges 0 items) as [cs | e] eqn:Hcs; [| discriminate].
  destruct (forallb (fun c => convertible (file c)) cs) eqn:Hconv; [| discriminate].
  cbn [negb]. intros [= <- <- <- <- <-]. cbn [edited created deleted].
  destruct (validateChanges_valid _ _ _ Hcs) as [_ Hall].
  split; [| split; [| split; [| split]]].
  - apply List.Forall_forall. intros c Hc.
    destruct (proj1 (List.Forall_forall _ _) Hall c Hc) as (H1 & H2 & H3 & H4).
    repeat split; auto. exact (proj1 (forallb_forall _ _) Hconv c Hc).
  - apply count_actions. eapply List.Forall_impl; [| exact Hall]. cbn beta. tauto.
  - now apply orElse_truthy.
  - unfold or_. destruct (truthy (prop parsed (js "affectedFiles"))) eqn:Ht; [| reflexivity].
    destruct (prop_cases parsed (js "affectedFiles")) as [Hp | [x Hp]]; rewrite Hp in *;
      [discriminate | exact Ht].
  - now apply orElse_truthy.
Qed.

(** An answer in a fence, with one edit and one file to create. *)
Lemma parseCodeEditResponse_edits_witness :
  let response :=
    js "```json" ++ [10%N] ++ js "{" ++ quoted "changes" ++ js ": [{" ++ quoted "file"
    ++ js ": " ++ quoted "/src/App.tsx" ++ js ", " ++ quoted "content" ++ js ": "
    ++ quoted "export default 1" ++ js "}, {" ++ quoted "file" ++ js ": "
    ++ quoted "/src/new.ts" ++ js ", " ++ quoted "action" ++ js ": " ++ quoted "create"
    ++ js ", " ++ quoted "newContent" ++ js ": " ++ quoted "export {}" ++ js "}]}"
    ++ [10%N] ++ js "```" in
  exists explanation changes affectedFiles testingNotes stats,
    parseCodeEditResponse response
    = Edits explanation changes affectedFiles testingNotes stats
    /\ map action changes = [js "edit"; js "create"]
    /\ stats = {| edited := 1; created := 1; deleted := 0 |}
    /\ affectedFiles = JArr [JStr (js "/src/App.tsx"); JStr (js "/src/new.ts")]
    /\ (edited stats + created stats + deleted stats)%nat = length changes.
Proof.
  intros response.
  destruct (parseCodeEditResponse response)
    as [explanation changes affectedFiles testingNotes stats | ? ? ?] eqn:Hparse;
    [| vm_compute in Hparse; discriminate].
  exists explanation, changes, affectedFiles, testingNotes, stats.
  split; [reflexivity |].
  destruct (parseCodeEditResponse_edits _ _ _ _ _ _ Hparse) as (_ & Hcount & _).
  split; [| split; [| split]]; [| | | exact Hcount];
    vm_compute in Hparse; injection Hparse as <- <- <- <- <-; reflexivity.
Defined.

(** X22. A change whose action is a string other than edit, create and
    delete is not refused and is not checked for a content: it becomes an
    edit. Without [newContent] and [content] it is an edit with the empty
    string as content. *)
Theorem unknown_action_becomes_edit
    (index : N) (props : list (jsstring * json)) (changeFile : json) (a : jsstring) :
  getOwn (js "file") props = Some changeFile ->
  truthyJson changeFile = true ->
  getOwn (js "action") props = Some (JStr a) ->
  a <> [] -> ~ In a validActions ->
  getOwn (js "newContent") props = None ->
  getOwn (js "content") props = None ->
  validateChange index (JObj props)
  = Return {| file := changeFile; action := js "edit"; newContent := JStr [];
              summary := orElse (prop (JObj props) (js "summary")) "Updated file" |}.
Proof.
  intros Hfile Htruthy Haction Hne Hinvalid Hnew Hcontent.
  assert (Hvalid : existsb (eqb a) validActions = false).
  { destruct (existsb (eqb a) validActions) eqn:He; [| reflexivity].
    apply existsb_exists in He as (x & Hx & Heq).
    apply bool_decide_eq_true in Heq. now subst x. }
  assert (Hnot : forall name : string,
            In (js name) validActions -> eqb a (js name) = false).
  { intros name Hin. unfold eqb. apply bool_decide_eq_false_2. now intros ->. }
  unfold validateChange. cbn [getField]. rewrite Hfile, Htruthy. cbn [negb].
  unfold prop. cbn [getField]. rewrite Haction, Hnew, Hcontent.
  assert (Ha : orElse (J (JStr a)) "edit" = JStr a).
  { unfold orElse, or_. cbn [truthy truthyJson]. now destruct a. }
  rewrite Ha. cbn [isValidAction convertible isAction negb andb truthy].
  rewrite Hvalid. cbn [negb andb].
  rewrite (Hnot "edit"%string), (Hnot "create"%string), (Hnot "delete"%string)
    by (cbn; auto).
  cbn [orb andb]. reflexivity.
Qed.

Lemma unknown_action_becomes_edit_witness :
  validateChange 0 (JObj [(js "file", JStr (js "/src/App.tsx"));
                          (js "action", JStr (js "rename"))])
  = Return {| file := JStr (js "/src/App.tsx"); action := js "edit"; newContent := JStr [];
              summary := JStr (js "Updated file") |}.
Proof.
  apply (unknown_action_becomes_edit 0
           [(js "file", JStr (js "/src/App.tsx")); (js "action", JStr (js "rename"))]
           (JStr (js "/src/App.tsx")) (js "rename")); try reflexivity.
  - discriminate.
  - cbn. intuition discriminate.
Defined.

End CodeEdits.
